(** * Cascaded shadows of the clouds package: a shallow embedding

    The development follows the classes [CascadedShadows] and
    [CloudsShadowMaterial], then the class [CascadedShadowMaps], which keeps
    its cascades on directional lights, and two functions of the sky's
    fragment shader.
    JavaScript numbers are read as real numbers ([R]); counts and array
    indices are natural numbers.  Objects that are shared by reference (the
    entries of [cascades]) live in an explicit store and are named by their
    address. *)

From Stdlib Require Import Reals Lra Lia ZArith.
From Stdlib Require Import String DecimalString DecimalNat.
From stdpp Require Import base option list strings gmap.

Local Open Scope R_scope.

(** ** JavaScript arithmetic on numbers *)

Module Math.

(** [Math.round]: the integer nearest to [x], halves going up. *)
Definition round (x : R) : R := IZR (Int_part (x + / 2)).

Definition max (a b : R) : R := Rmax a b.
Definition min (a b : R) : R := Rmin a b.
Definition abs (a : R) : R := Rabs a.

(** [a ** b] for a positive base. *)
Definition pow (a b : R) : R := Rpower a b.

End Math.

(** ** three.js value types (r169) *)

Module Vector2.

Record t := mk { x : R; y : R }.

(** [new Vector2()] *)
Definition new : t := mk 0 0.

Definition set (_ : t) (x y : R) : t := mk x y.

End Vector2.

Module Vector3.

Record t := mk { x : R; y : R; z : R }.

Definition new : t := mk 0 0 0.

Definition setScalar (_ : t) (s : R) : t := mk s s s.
Definition copy (_ v : t) : t := v.
Definition multiplyScalar (v : t) (s : R) : t := mk (x v * s) (y v * s) (z v * s).
Definition add (a b : t) : t := mk (x a + x b) (y a + y b) (z a + z b).
Definition subVectors (a b : t) : t := mk (x a - x b) (y a - y b) (z a - z b).
Definition dot (a b : t) : R := x a * x b + y a * y b + z a * z b.
Definition lengthSq (v : t) : R := x v * x v + y v * y v + z v * z v.
Definition length (v : t) : R := sqrt (lengthSq v).

(** [divideScalar(this.length() || 1)] *)
Definition normalize (v : t) : t :=
  let l := length v in
  let d := if Req_dec_T l 0 then 1 else l in
  multiplyScalar v (1 / d).

Definition crossVectors (a b : t) : t :=
  mk (y a * z b - z a * y b) (z a * x b - x a * z b) (x a * y b - y a * x b).

Definition distanceToSquared (a b : t) : R :=
  let dx := x a - x b in
  let dy := y a - y b in
  let dz := z a - z b in
  dx * dx + dy * dy + dz * dz.

Definition distanceTo (a b : t) : R := sqrt (distanceToSquared a b).

Definition setX (v : t) (a : R) : t := mk a (y v) (z v).
Definition setY (v : t) (a : R) : t := mk (x v) a (z v).
Definition setZ (v : t) (a : R) : t := mk (x v) (y v) a.

End Vector3.

Module Matrix4.

(** The sixteen [elements], column-major as in three.js. *)
Record t := mk {
  e0 : R; e1 : R; e2 : R; e3 : R;
  e4 : R; e5 : R; e6 : R; e7 : R;
  e8 : R; e9 : R; e10 : R; e11 : R;
  e12 : R; e13 : R; e14 : R; e15 : R
}.

(** [new Matrix4()] is the identity. *)
Definition new : t := mk 1 0 0 0  0 1 0 0  0 0 1 0  0 0 0 1.

Definition zero : t := mk 0 0 0 0  0 0 0 0  0 0 0 0  0 0 0 0.

Definition copy (_ m : t) : t := m.

(** [makeOrthographic] in the WebGL coordinate system (the default). *)
Definition makeOrthographic (left right top bottom near far : R) : t :=
  let w := 1 / (right - left) in
  let h := 1 / (top - bottom) in
  let p := 1 / (far - near) in
  let x := (right + left) * w in
  let y := (top + bottom) * h in
  let z := (far + near) * p in
  let zInv := - 2 * p in
  mk (2 * w) 0 0 0
     0 (2 * h) 0 0
     0 0 zInv 0
     (- x) (- y) (- z) 1.

(** [lookAt(eye, target, up)] rewrites the rotation part only. *)
Definition lookAt (m : t) (eye target up : Vector3.t) : t :=
  let z0 := Vector3.subVectors eye target in
  let z1 := if Req_dec_T (Vector3.lengthSq z0) 0 then Vector3.setZ z0 1 else z0 in
  let z2 := Vector3.normalize z1 in
  let x0 := Vector3.crossVectors up z2 in
  let '(z3, x1) :=
    if Req_dec_T (Vector3.lengthSq x0) 0 then
      let z' :=
        if Req_dec_T (Math.abs (Vector3.z up)) 1
        then Vector3.setX z2 (Vector3.x z2 + 0.0001)
        else Vector3.setZ z2 (Vector3.z z2 + 0.0001) in
      let z'' := Vector3.normalize z' in
      (z'', Vector3.crossVectors up z'')
    else (z2, x0) in
  let x2 := Vector3.normalize x1 in
  let y0 := Vector3.crossVectors z3 x2 in
  mk (Vector3.x x2) (Vector3.y x2) (Vector3.z x2) (e3 m)
     (Vector3.x y0) (Vector3.y y0) (Vector3.z y0) (e7 m)
     (Vector3.x z3) (Vector3.y z3) (Vector3.z z3) (e11 m)
     (e12 m) (e13 m) (e14 m) (e15 m).

Definition setPosition (m : t) (v : Vector3.t) : t :=
  mk (e0 m) (e1 m) (e2 m) (e3 m)
     (e4 m) (e5 m) (e6 m) (e7 m)
     (e8 m) (e9 m) (e10 m) (e11 m)
     (Vector3.x v) (Vector3.y v) (Vector3.z v) (e15 m).

(** [multiplyMatrices(a, b)]: the product [a * b]. *)
Definition multiplyMatrices (a b : t) : t :=
  mk (e0 a * e0 b + e4 a * e1 b + e8 a * e2 b + e12 a * e3 b)
     (e1 a * e0 b + e5 a * e1 b + e9 a * e2 b + e13 a * e3 b)
     (e2 a * e0 b + e6 a * e1 b + e10 a * e2 b + e14 a * e3 b)
     (e3 a * e0 b + e7 a * e1 b + e11 a * e2 b + e15 a * e3 b)
     (e0 a * e4 b + e4 a * e5 b + e8 a * e6 b + e12 a * e7 b)
     (e1 a * e4 b + e5 a * e5 b + e9 a * e6 b + e13 a * e7 b)
     (e2 a * e4 b + e6 a * e5 b + e10 a * e6 b + e14 a * e7 b)
     (e3 a * e4 b + e7 a * e5 b + e11 a * e6 b + e15 a * e7 b)
     (e0 a * e8 b + e4 a * e9 b + e8 a * e10 b + e12 a * e11 b)
     (e1 a * e8 b + e5 a * e9 b + e9 a * e10 b + e13 a * e11 b)
     (e2 a * e8 b + e6 a * e9 b + e10 a * e10 b + e14 a * e11 b)
     (e3 a * e8 b + e7 a * e9 b + e11 a * e10 b + e15 a * e11 b)
     (e0 a * e12 b + e4 a * e13 b + e8 a * e14 b + e12 a * e15 b)
     (e1 a * e12 b + e5 a * e13 b + e9 a * e14 b + e13 a * e15 b)
     (e2 a * e12 b + e6 a * e13 b + e10 a * e14 b + e14 a * e15 b)
     (e3 a * e12 b + e7 a * e13 b + e11 a * e14 b + e15 a * e15 b).

Definition multiply (a b : t) : t := multiplyMatrices a b.

Definition determinant (m : t) : R :=
  let n11 := e0 m in let n21 := e1 m in let n31 := e2 m in let n41 := e3 m in
  let n12 := e4 m in let n22 := e5 m in let n32 := e6 m in let n42 := e7 m in
  let n13 := e8 m in let n23 := e9 m in let n33 := e10 m in let n43 := e11 m in
  let n14 := e12 m in let n24 := e13 m in let n34 := e14 m in let n44 := e15 m in
  let t11 := n23 * n34 * n42 - n24 * n33 * n42 + n24 * n32 * n43
             - n22 * n34 * n43 - n23 * n32 * n44 + n22 * n33 * n44 in
  let t12 := n14 * n33 * n42 - n13 * n34 * n42 - n14 * n32 * n43
             + n12 * n34 * n43 + n13 * n32 * n44 - n12 * n33 * n44 in
  let t13 := n13 * n24 * n42 - n14 * n23 * n42 + n14 * n22 * n43
             - n12 * n24 * n43 - n13 * n22 * n44 + n12 * n23 * n44 in
  let t14 := n14 * n23 * n32 - n13 * n24 * n32 - n14 * n22 * n33
             + n12 * n24 * n33 + n13 * n22 * n34 - n12 * n23 * n34 in
  n11 * t11 + n21 * t12 + n31 * t13 + n41 * t14.

(** [invert()]: the adjugate over the determinant, and the zero matrix
    when the determinant is zero. *)
Definition invert (m : t) : t :=
  let n11 := e0 m in let n21 := e1 m in let n31 := e2 m in let n41 := e3 m in
  let n12 := e4 m in let n22 := e5 m in let n32 := e6 m in let n42 := e7 m in
  let n13 := e8 m in let n23 := e9 m in let n33 := e10 m in let n43 := e11 m in
  let n14 := e12 m in let n24 := e13 m in let n34 := e14 m in let n44 := e15 m in
  let t11 := n23 * n34 * n42 - n24 * n33 * n42 + n24 * n32 * n43
             - n22 * n34 * n43 - n23 * n32 * n44 + n22 * n33 * n44 in
  let t12 := n14 * n33 * n42 - n13 * n34 * n42 - n14 * n32 * n43
             + n12 * n34 * n43 + n13 * n32 * n44 - n12 * n33 * n44 in
  let t13 := n13 * n24 * n42 - n14 * n23 * n42 + n14 * n22 * n43
             - n12 * n24 * n43 - n13 * n22 * n44 + n12 * n23 * n44 in
  let t14 := n14 * n23 * n32 - n13 * n24 * n32 - n14 * n22 * n33
             + n12 * n24 * n33 + n13 * n22 * n34 - n12 * n23 * n34 in
  let det := n11 * t11 + n21 * t12 + n31 * t13 + n41 * t14 in
  if Req_dec_T det 0 then zero else
  let detInv := 1 / det in
  mk (t11 * detInv)
     ((n24 * n33 * n41 - n23 * n34 * n41 - n24 * n31 * n43
       + n21 * n34 * n43 + n23 * n31 * n44 - n21 * n33 * n44) * detInv)
     ((n22 * n34 * n41 - n24 * n32 * n41 + n24 * n31 * n42
       - n21 * n34 * n42 - n22 * n31 * n44 + n21 * n32 * n44) * detInv)
     ((n23 * n32 * n41 - n22 * n33 * n41 - n23 * n31 * n42
       + n21 * n33 * n42 + n22 * n31 * n43 - n21 * n32 * n43) * detInv)
     (t12 * detInv)
     ((n13 * n34 * n41 - n14 * n33 * n41 + n14 * n31 * n43
       - n11 * n34 * n43 - n13 * n31 * n44 + n11 * n33 * n44) * detInv)
     ((n14 * n32 * n41 - n12 * n34 * n41 - n14 * n31 * n42
       + n11 * n34 * n42 + n12 * n31 * n44 - n11 * n32 * n44) * detInv)
     ((n12 * n33 * n41 - n13 * n32 * n41 + n13 * n31 * n42
       - n11 * n33 * n42 - n12 * n31 * n43 + n11 * n32 * n43) * detInv)
     (t13 * detInv)
     ((n14 * n23 * n41 - n13 * n24 * n41 - n14 * n21 * n43
       + n11 * n24 * n43 + n13 * n21 * n44 - n11 * n23 * n44) * detInv)
     ((n12 * n24 * n41 - n14 * n22 * n41 + n14 * n21 * n42
       - n11 * n24 * n42 - n12 * n21 * n44 + n11 * n22 * n44) * detInv)
     ((n13 * n22 * n41 - n12 * n23 * n41 - n13 * n21 * n42
       + n11 * n23 * n42 + n12 * n21 * n43 - n11 * n22 * n43) * detInv)
     (t14 * detInv)
     ((n13 * n24 * n31 - n14 * n23 * n31 + n14 * n21 * n33
       - n11 * n24 * n33 - n13 * n21 * n34 + n11 * n23 * n34) * detInv)
     ((n14 * n22 * n31 - n12 * n24 * n31 - n14 * n21 * n32
       + n11 * n24 * n32 + n12 * n21 * n34 - n11 * n22 * n34) * detInv)
     ((n12 * n23 * n31 - n13 * n22 * n31 + n13 * n21 * n32
       - n11 * n23 * n32 - n12 * n21 * n33 + n11 * n22 * n33) * detInv).

(** [Vector3.applyMatrix4(m)], with the perspective divide. *)
Definition applyToVector3 (v : Vector3.t) (m : t) : Vector3.t :=
  let x := Vector3.x v in
  let y := Vector3.y v in
  let z := Vector3.z v in
  let w := 1 / (e3 m * x + e7 m * y + e11 m * z + e15 m) in
  Vector3.mk ((e0 m * x + e4 m * y + e8 m * z + e12 m) * w)
             ((e1 m * x + e5 m * y + e9 m * z + e13 m) * w)
             ((e2 m * x + e6 m * y + e10 m * z + e14 m) * w).

(** [Vector3.setFromMatrixPosition(m)] *)
Definition position (m : t) : Vector3.t := Vector3.mk (e12 m) (e13 m) (e14 m).

End Matrix4.

Module Box3.

(** A box is either empty ([makeEmpty]; three.js keeps infinite bounds
    there) or has finite [min] and [max] corners. *)
Definition t := option (Vector3.t * Vector3.t).

Definition makeEmpty (_ : t) : t := None.

Definition expandByPoint (b : t) (p : Vector3.t) : t :=
  match b with
  | None => Some (p, p)
  | Some (mn, mx) =>
      Some (Vector3.mk (Math.min (Vector3.x mn) (Vector3.x p))
                       (Math.min (Vector3.y mn) (Vector3.y p))
                       (Math.min (Vector3.z mn) (Vector3.z p)),
            Vector3.mk (Math.max (Vector3.x mx) (Vector3.x p))
                       (Math.max (Vector3.y mx) (Vector3.y p))
                       (Math.max (Vector3.z mx) (Vector3.z p)))
  end.

(** [getCenter]: the origin for an empty box. *)
Definition getCenter (b : t) : Vector3.t :=
  match b with
  | None => Vector3.mk 0 0 0
  | Some (mn, mx) => Vector3.multiplyScalar (Vector3.add mn mx) 0.5
  end.

(** [max] of a box that holds a point; the empty box has no finite
    maximum and is never read. *)
Definition max (b : t) : Vector3.t :=
  match b with
  | Some (_, mx) => mx
  | None => Vector3.new
  end.

End Box3.

Module PerspectiveCamera.

(** What the shadow code reads of the camera. *)
Record t := mk { near : R; far : R; matrixWorld : Matrix4.t }.

(** [getWorldPosition]: the translation of an up-to-date [matrixWorld]. *)
Definition getWorldPosition (c : t) : Vector3.t := Matrix4.position (matrixWorld c).

End PerspectiveCamera.

(** [Object3D.DEFAULT_UP] *)
Definition DEFAULT_UP : Vector3.t := Vector3.mk 0 1 0.

(** ** Helpers of the repository that the shadow code imports *)

(** Modelled from the spec: [lerp] of [@takram/three-geospatial] is not under
    src/; it is the plain linear interpolation, its factor not clamped. *)
Definition lerp (x y t : R) : R := (1 - t) * x + t * y.

(** Modelled from the spec: [FrustumSplitMode] and [splitFrustum] of
    [helpers/splitFrustum.ts], which is not under src/.  The spec gives the
    three schemes and says [count] distances are produced, the last at [far].
    The caller's [result] array is overwritten: its new contents are what
    [splitFrustum] returns here. *)
Inductive FrustumSplitMode := uniform | logarithmic | practical.

Definition uniformSplit (count : nat) (near far : R) (i : nat) : R :=
  near + (far - near) * INR i / INR count.

Definition logarithmicSplit (count : nat) (near far : R) (i : nat) : R :=
  near * Math.pow (far / near) (INR i / INR count).

Definition practicalSplit (count : nat) (near far lambda : R) (i : nat) : R :=
  lambda * logarithmicSplit count near far i
  + (1 - lambda) * uniformSplit count near far i.

Definition splitAt (mode : FrustumSplitMode) (count : nat) (near far lambda : R)
    (i : nat) : R :=
  match mode with
  | uniform => uniformSplit count near far i
  | logarithmic => logarithmicSplit count near far i
  | practical => practicalSplit count near far lambda i
  end.

Definition splitFrustum (mode : FrustumSplitMode) (count : nat)
    (near far lambda : R) : list R :=
  map (splitAt mode count near far lambda) (seq 1 count).

Module FrustumCorners.

(** Four corners of one face, indexed 0..3. *)
Record quad := mkQuad { q0 : Vector3.t; q1 : Vector3.t; q2 : Vector3.t; q3 : Vector3.t }.

Definition get (q : quad) (j : nat) : Vector3.t :=
  match j with
  | 0%nat => q0 q
  | 1%nat => q1 q
  | 2%nat => q2 q
  | _ => q3 q
  end.

Record t := mk { near : quad; far : quad }.

Definition copy (_ f : t) : t := f.

Definition mapQuad (g : Vector3.t -> Vector3.t) (q : quad) : quad :=
  mkQuad (g (q0 q)) (g (q1 q)) (g (q2 q)) (g (q3 q)).

(** Modelled from the spec: [applyMatrix4] transforms all eight corners. *)
Definition applyMatrix4 (f : t) (m : Matrix4.t) : t :=
  mk (mapQuad (fun v => Matrix4.applyToVector3 v m) (near f))
     (mapQuad (fun v => Matrix4.applyToVector3 v m) (far f)).

End FrustumCorners.

Module Ellipsoid.

(** Modelled from the spec: the [Ellipsoid] class is not under src/.  Of an
    ellipsoid the shadow code uses the surface normal at a position. *)
Record t := mk { getSurfaceNormal : Vector3.t -> Vector3.t }.

End Ellipsoid.

(** Modelled from the spec: [FrustumCorners.setFromCamera] and
    [FrustumCorners.split] ([helpers/FrustumCorners.ts]) and the constant
    [Ellipsoid.WGS84] are not under src/.  The spec fixes that [split], given
    K split distances, leaves K sub-frusta in the buffer it is handed. *)
Class Helpers := {
  setFromCamera : PerspectiveCamera.t -> R -> FrustumCorners.t;
  split : FrustumCorners.t -> list R -> list FrustumCorners.t -> list FrustumCorners.t;
  split_length : forall fc sp out, length (split fc sp out) = length sp;
  WGS84 : Ellipsoid.t
}.

(** ** Arrays and loops *)

(** [a[i]] for a possibly negative index: [None] is [undefined]. *)
Definition at_index {A} (a : list A) (i : Z) : option A :=
  if decide (0 <= i)%Z then a !! Z.to_nat i else None.

(** [a[i] = v] on a dense array; an index past the end is the length itself
    wherever the code below writes. *)
Definition array_set {A} (a : list A) (i : nat) (v : A) : list A :=
  if decide (i < length a)%nat then <[i:=v]> a else a ++ [v].

(** [for (let i = 0; i < n; ++i) body] *)
Definition for_range {A} (n : nat) (body : nat -> A -> A) (a : A) : A :=
  fold_left (fun a i => body i a) (seq 0 n) a.

(** ** The class [CascadedShadows] *)

Definition extractOrthographicTuple (matrix : Matrix4.t) : R * R * R * R :=
  let m00 := Matrix4.e0 matrix in
  let m03 := Matrix4.e12 matrix in
  let m11 := Matrix4.e5 matrix in
  let m13 := Matrix4.e13 matrix in
  let RmL := 2 / m00 in
  let RpL := RmL * - m03 in
  let TmB := 2 / m11 in
  let TpB := TmB * - m13 in
  ((RpL - RmL) / 2, (RmL + RpL) / 2, (TmB + TpB) / 2, (TpB - TmB) / 2).

Module Cascade.

Record t := mk {
  interval : Vector2.t;
  matrix : Matrix4.t;
  inverseMatrix : Matrix4.t;
  projectionMatrix : Matrix4.t;
  inverseProjectionMatrix : Matrix4.t;
  viewMatrix : Matrix4.t;
  inverseViewMatrix : Matrix4.t
}.

(** The object literal of the [cascadeCount] setter. *)
Definition fresh : t :=
  mk Vector2.new Matrix4.new Matrix4.new Matrix4.new Matrix4.new Matrix4.new Matrix4.new.

Definition set_interval (v : Vector2.t) (c : t) : t :=
  mk v (matrix c) (inverseMatrix c) (projectionMatrix c)
     (inverseProjectionMatrix c) (viewMatrix c) (inverseViewMatrix c).

Definition set_projectionMatrix (m : Matrix4.t) (c : t) : t :=
  mk (interval c) (matrix c) (inverseMatrix c) m
     (inverseProjectionMatrix c) (viewMatrix c) (inverseViewMatrix c).

Definition set_inverseViewMatrix (m : Matrix4.t) (c : t) : t :=
  mk (interval c) (matrix c) (inverseMatrix c) (projectionMatrix c)
     (inverseProjectionMatrix c) (viewMatrix c) m.

End Cascade.

Module CascadedShadowsOptions.

Record t := mk {
  cascadeCount : option nat;
  cascadeSize : option R;
  far : option R;
  mode : option FrustumSplitMode;
  lambda : option R;
  margin : option R;
  fade : option bool
}.

End CascadedShadowsOptions.

Module CascadedShadows.

(** Addresses of cascade objects in the store. *)
Abbreviation loc := nat (only parsing).

(** The instance, together with the store of the cascade objects ever
    created for it: [cascades] is the array of references. *)
Record t := mk {
  store : list Cascade.t;
  cascades : list loc;
  cascadeSize : R;
  far : R;
  mode : FrustumSplitMode;
  lambda : R;
  margin : R;
  fade : bool;
  frusta : list FrustumCorners.t;
  splits : list R
}.

(** What a method call ends in: a normal return, or the exception thrown
    by a failed [invariant], each with the state reached. *)
Inductive outcome := Returned (s : t) | Thrown (s : t).

Definition bind (o : outcome) (k : t -> outcome) : outcome :=
  match o with
  | Returned s => k s
  | Thrown s => Thrown s
  end.

Definition set_store (st : list Cascade.t) (s : t) : t :=
  mk st (cascades s) (cascadeSize s) (far s) (mode s) (lambda s) (margin s)
     (fade s) (frusta s) (splits s).

(** Plain fields: assignment is all there is. *)
Definition set_cascadeSize (v : R) (s : t) : t :=
  mk (store s) (cascades s) v (far s) (mode s) (lambda s) (margin s)
     (fade s) (frusta s) (splits s).
Definition set_far (v : R) (s : t) : t :=
  mk (store s) (cascades s) (cascadeSize s) v (mode s) (lambda s) (margin s)
     (fade s) (frusta s) (splits s).
Definition set_mode (v : FrustumSplitMode) (s : t) : t :=
  mk (store s) (cascades s) (cascadeSize s) (far s) v (lambda s) (margin s)
     (fade s) (frusta s) (splits s).
Definition set_lambda (v : R) (s : t) : t :=
  mk (store s) (cascades s) (cascadeSize s) (far s) (mode s) v (margin s)
     (fade s) (frusta s) (splits s).
Definition set_margin (v : R) (s : t) : t :=
  mk (store s) (cascades s) (cascadeSize s) (far s) (mode s) (lambda s) v
     (fade s) (frusta s) (splits s).
Definition set_fade (v : bool) (s : t) : t :=
  mk (store s) (cascades s) (cascadeSize s) (far s) (mode s) (lambda s) (margin s)
     v (frusta s) (splits s).

(** [get cascadeCount] *)
Definition cascadeCount (s : t) : nat := length (cascades s).

(** [this.cascades[i] ??= { ... }] on the store and the array. *)
Definition ensureCascade (i : nat) (sc : list Cascade.t * list loc)
    : list Cascade.t * list loc :=
  match sc.2 !! i with
  | Some _ => sc
  | None => (sc.1 ++ [Cascade.fresh], array_set sc.2 i (length sc.1))
  end.

(** [set cascadeCount] *)
Definition set_cascadeCount (value : nat) (s : t) : t :=
  if decide (value <> cascadeCount s) then
    let sc := for_range value ensureCascade (store s, cascades s) in
    mk sc.1 (take value sc.2) (cascadeSize s) (far s) (mode s) (lambda s)
       (margin s) (fade s) (frusta s) (splits s)
  else s.

Definition cascadedShadowsOptionsDefaults : CascadedShadowsOptions.t :=
  CascadedShadowsOptions.mk (Some 4%nat) (Some 1024) (Some 1e4) (Some practical)
    (Some 0.5) (Some 0) (Some true).

(** The fields as declared, before the constructor body runs. *)
Definition initial : t := mk [] [] 0 0 practical 0 0 false [] [].

Definition constructor (options : CascadedShadowsOptions.t) : t :=
  let d := cascadedShadowsOptionsDefaults in
  let pick {A} (f : CascadedShadowsOptions.t -> option A) (z : A) : A :=
    default (default z (f d)) (f options) in
  let s := set_cascadeCount (pick CascadedShadowsOptions.cascadeCount 0%nat) initial in
  let s := set_cascadeSize (pick CascadedShadowsOptions.cascadeSize 0) s in
  let s := set_far (pick CascadedShadowsOptions.far 0) s in
  let s := set_mode (pick CascadedShadowsOptions.mode practical) s in
  let s := set_lambda (pick CascadedShadowsOptions.lambda 0) s in
  let s := set_margin (pick CascadedShadowsOptions.margin 0) s in
  set_fade (pick CascadedShadowsOptions.fade false) s.

Section Methods.

Context `{Helpers}.

(** [cascades[i].interval.set(splits[i - 1] ?? 0, splits[i] ?? 0)] *)
Definition intervalOf (splits : list R) (i : nat) (c : Cascade.t) : Cascade.t :=
  Cascade.set_interval
    (Vector2.set (Cascade.interval c)
       (default 0 (at_index splits (Z.of_nat i - 1)))
       (default 0 (at_index splits (Z.of_nat i))))
    c.

(** One step of a loop over the cascades: the object [cascades[i]]
    refers to is changed in place. *)
Definition on_cascade (cascades : list loc) (g : nat -> Cascade.t -> Cascade.t)
    (i : nat) (st : list Cascade.t) : list Cascade.t :=
  match cascades !! i with
  | Some l => alter (g i) l st
  | None => st
  end.

Definition updateIntervals (s : t) (camera : PerspectiveCamera.t) : t :=
  let cascadeCount := cascadeCount s in
  let far' := Math.min (far s) (PerspectiveCamera.far camera) in
  let splits' :=
    splitFrustum (mode s) cascadeCount (PerspectiveCamera.near camera) far' (lambda s) in
  let frustumScratch := setFromCamera camera far' in
  let frusta' := split frustumScratch splits' (frusta s) in
  let store' :=
    for_range cascadeCount (on_cascade (cascades s) (intervalOf splits')) (store s) in
  mk store' (cascades s) (cascadeSize s) (far s) (mode s) (lambda s) (margin s)
     (fade s) frusta' splits'.

Definition getFrustumRadius (s : t) (camera : PerspectiveCamera.t)
    (frustum : FrustumCorners.t) : R :=
  let nearCorners := FrustumCorners.near frustum in
  let farCorners := FrustumCorners.far frustum in
  let diagonalLength :=
    Math.max
      (Vector3.distanceTo (FrustumCorners.get farCorners 0)
                          (FrustumCorners.get farCorners 2))
      (Vector3.distanceTo (FrustumCorners.get farCorners 0)
                          (FrustumCorners.get nearCorners 2)) in
  let diagonalLength :=
    if fade s then
      let near := PerspectiveCamera.near camera in
      let far := Math.min (far s) (PerspectiveCamera.far camera) in
      let distance := Vector3.z (FrustumCorners.get farCorners 0) / (far - near) in
      diagonalLength + 0.25 * distance ^ 2 * (far - near)
    else diagonalLength in
  diagonalLength * 0.5.

(** The body of the loop of [updateProjectionMatrix]. *)
Definition fitProjection (s : t) (camera : PerspectiveCamera.t)
    (i : nat) (c : Cascade.t) : Cascade.t :=
  match frusta s !! i with
  | Some frustum =>
      let radius := getFrustumRadius s camera frustum in
      Cascade.set_projectionMatrix
        (Matrix4.makeOrthographic
           (- radius) radius radius (- radius)
           (- margin s) (radius * 2 + margin s))
        c
  | None => c
  end.

Definition updateProjectionMatrix (s : t) (camera : PerspectiveCamera.t) : outcome :=
  if decide (length (frusta s) = length (cascades s)) then
    Returned
      (set_store
         (for_range (length (frusta s))
            (on_cascade (cascades s) (fitProjection s camera)) (store s))
         s)
  else Thrown s.

(** [matrixScratch1.lookAt(0, -sunDirection, DEFAULT_UP)]: the scratch
    matrix starts as the identity and only its rotation is ever written. *)
Definition lightOrientationMatrix (sunDirection : Vector3.t) : Matrix4.t :=
  Matrix4.lookAt Matrix4.new
    (Vector3.setScalar Vector3.new 0)
    (Vector3.multiplyScalar (Vector3.copy Vector3.new sunDirection) (-1))
    DEFAULT_UP.

Definition cameraToLightMatrix (camera : PerspectiveCamera.t)
    (sunDirection : Vector3.t) : Matrix4.t :=
  Matrix4.multiplyMatrices
    (Matrix4.invert (Matrix4.copy Matrix4.new (lightOrientationMatrix sunDirection)))
    (PerspectiveCamera.matrixWorld camera).

(** The light's distance to the target. *)
Definition lightDistance (camera : PerspectiveCamera.t)
    (sunDirection : Vector3.t) (ellipsoid : Ellipsoid.t) : R :=
  let cameraPosition := PerspectiveCamera.getWorldPosition camera in
  let up := Ellipsoid.getSurfaceNormal ellipsoid cameraPosition in
  let zenithAngle := Vector3.dot sunDirection up in
  lerp 1e6 1e3 zenithAngle.

(** The bounding box of the eight corners, expanded in the code's order. *)
Definition frustumBox (f : FrustumCorners.t) : Box3.t :=
  for_range 4
    (fun j bbox =>
       let bbox := Box3.expandByPoint bbox (FrustumCorners.get (FrustumCorners.near f) j) in
       Box3.expandByPoint bbox (FrustumCorners.get (FrustumCorners.far f) j))
    (Box3.makeEmpty None).

(** [center] in light space: the box centre, pushed to the box's far
    side in z. *)
Definition boxTarget (margin : R) (bbox : Box3.t) : Vector3.t :=
  let center := Box3.getCenter bbox in
  Vector3.setZ center (Vector3.z (Box3.max bbox) + margin).

(** Rounding of the light-space translation to texel increments. *)
Definition snapToTexel (cascadeSize : R) (projectionMatrix : Matrix4.t)
    (center : Vector3.t) : Vector3.t :=
  let '(left', right', top, bottom) := extractOrthographicTuple projectionMatrix in
  let texelWidth := (right' - left') / cascadeSize in
  let texelHeight := (top - bottom) / cascadeSize in
  let center := Vector3.setX center (Math.round (Vector3.x center / texelWidth) * texelWidth) in
  Vector3.setY center (Math.round (Vector3.y center / texelHeight) * texelHeight).

(** [center] after [applyMatrix4(lightOrientationMatrix)]: the look-at
    target in world space. *)
Definition lightTarget (s : t) (camera : PerspectiveCamera.t)
    (sunDirection : Vector3.t) (frustum : FrustumCorners.t)
    (cascade : Cascade.t) : Vector3.t :=
  let lightSpace :=
    FrustumCorners.applyMatrix4
      (FrustumCorners.copy frustum frustum)
      (cameraToLightMatrix camera sunDirection) in
  let bbox := frustumBox lightSpace in
  let center := boxTarget (margin s) bbox in
  let center := snapToTexel (cascadeSize s) (Cascade.projectionMatrix cascade) center in
  Matrix4.applyToVector3 center (lightOrientationMatrix sunDirection).

Definition lightPosition (sunDirection : Vector3.t) (distance : R)
    (center : Vector3.t) : Vector3.t :=
  Vector3.add
    (Vector3.multiplyScalar (Vector3.copy Vector3.new sunDirection) distance)
    center.

(** The body of the loop of [updateInverseViewMatrix]. *)
Definition placeLight (s : t) (camera : PerspectiveCamera.t)
    (sunDirection : Vector3.t) (ellipsoid : Ellipsoid.t)
    (i : nat) (cascade : Cascade.t) : Cascade.t :=
  match frusta s !! i with
  | Some frustum =>
      let center := lightTarget s camera sunDirection frustum cascade in
      let position :=
        lightPosition sunDirection (lightDistance camera sunDirection ellipsoid) center in
      Cascade.set_inverseViewMatrix
        (Matrix4.setPosition
           (Matrix4.lookAt (Cascade.inverseViewMatrix cascade) center position DEFAULT_UP)
           position)
        cascade
  | None => cascade
  end.

Definition updateInverseViewMatrix (s : t) (camera : PerspectiveCamera.t)
    (sunDirection : Vector3.t) (ellipsoid : option Ellipsoid.t) : outcome :=
  let ellipsoid := default WGS84 ellipsoid in
  if decide (length (frusta s) = length (cascades s)) then
    Returned
      (set_store
         (for_range (length (frusta s))
            (on_cascade (cascades s) (placeLight s camera sunDirection ellipsoid))
            (store s))
         s)
  else Thrown s.

(** The body of the last loop of [update]. *)
Definition deriveMatrices (_ : nat) (c : Cascade.t) : Cascade.t :=
  let projectionMatrix := Cascade.projectionMatrix c in
  let inverseViewMatrix := Cascade.inverseViewMatrix c in
  let inverseProjectionMatrix :=
    Matrix4.invert (Matrix4.copy (Cascade.inverseProjectionMatrix c) projectionMatrix) in
  let viewMatrix :=
    Matrix4.invert (Matrix4.copy (Cascade.viewMatrix c) inverseViewMatrix) in
  let matrix :=
    Matrix4.multiply (Matrix4.copy (Cascade.matrix c) projectionMatrix) viewMatrix in
  let inverseMatrix :=
    Matrix4.multiply (Matrix4.copy (Cascade.inverseMatrix c) inverseViewMatrix)
      inverseProjectionMatrix in
  Cascade.mk (Cascade.interval c) matrix inverseMatrix projectionMatrix
    inverseProjectionMatrix viewMatrix inverseViewMatrix.

Definition update (s : t) (camera : PerspectiveCamera.t)
    (sunDirection : Vector3.t) (ellipsoid : option Ellipsoid.t) : outcome :=
  bind (Returned (updateIntervals s camera)) (fun s =>
  bind (updateProjectionMatrix s camera) (fun s =>
  bind (updateInverseViewMatrix s camera sunDirection ellipsoid) (fun s =>
  Returned
    (set_store
       (for_range (cascadeCount s) (on_cascade (cascades s) deriveMatrices) (store s))
       s)))).

End Methods.

(** The cascade object at index [i] of the array, read through the store. *)
Definition cascade_at (s : t) (i : nat) : option Cascade.t :=
  cascades s !! i ≫= fun l => store s !! l.

(** Every reference of the array points to an object of the store, and no
    two entries are the same object. *)
Definition wf (s : t) : Prop :=
  NoDup (cascades s) /\ Forall (fun l => (l < length (store s))%nat) (cascades s).

End CascadedShadows.

(** ** The class [CloudsShadowMaterial]: the shader-material sink *)

Module CloudsShadowMaterial.

(** The shader defines, and the material's [version]: three.js's
    [needsUpdate = true] is a setter that increments it. *)
Record t := mk { defines : gmap string string; version : nat }.

Definition set_needsUpdate (value : bool) (m : t) : t :=
  if value then mk (defines m) (S (version m)) else m.

(** The template literal of a count: its decimal numeral. *)
Definition numberToString (n : nat) : string :=
  NilEmpty.string_of_uint (Nat.to_uint n).

(** Unary plus on a define, for the numerals the setters write; [None] is
    [NaN] (a missing define, or text that is no decimal numeral). *)
Definition toNumber (s : option string) : option nat :=
  s ≫= fun s => Nat.of_uint <$> NilEmpty.uint_of_string s.

(** [get cascadeCount] *)
Definition cascadeCount (m : t) : option nat :=
  toNumber (defines m !! "CASCADE_COUNT"%string).

(** [set cascadeCount] *)
Definition set_cascadeCount (value : nat) (m : t) : t :=
  if decide (Some value <> cascadeCount m) then
    set_needsUpdate true
      (mk (<["CASCADE_COUNT"%string := numberToString value]> (defines m)) (version m))
  else m.

(** The constructor's defines, then [this.cascadeCount = 4]; the two
    texture constants come from [./constants], which is not under src/. *)
Definition constructor (STBN_TEXTURE_SIZE STBN_TEXTURE_DEPTH : nat) : t :=
  set_cascadeCount 4
    (mk (<["DEPTH_PACKING"%string := "0"%string]>
          (<["USE_SHAPE_DETAIL"%string := "1"%string]>
            (<["STBN_TEXTURE_SIZE"%string := numberToString STBN_TEXTURE_SIZE]>
              (<["STBN_TEXTURE_DEPTH"%string := numberToString STBN_TEXTURE_DEPTH]> ∅))))
        0).

End CloudsShadowMaterial.

(** ** What one call of [update] computes *)

Section UpdateResult.

Context `{Helpers}.

Variables (s : CascadedShadows.t) (camera : PerspectiveCamera.t)
  (sunDirection : Vector3.t) (ellipsoid : option Ellipsoid.t).

(** The far distance, the split distances and the sub-frusta of this call. *)
Definition shadowFar : R :=
  Math.min (CascadedShadows.far s) (PerspectiveCamera.far camera).

Definition newSplits : list R :=
  splitFrustum (CascadedShadows.mode s) (CascadedShadows.cascadeCount s)
    (PerspectiveCamera.near camera) shadowFar (CascadedShadows.lambda s).

Definition newFrusta : list FrustumCorners.t :=
  split (setFromCamera camera shadowFar) newSplits (CascadedShadows.frusta s).

(** The four loop bodies, one after the other, on one cascade object. *)
Definition updatedCascade (i : nat) (c : Cascade.t) : Cascade.t :=
  let s1 := CascadedShadows.updateIntervals s camera in
  CascadedShadows.deriveMatrices i
    (CascadedShadows.placeLight s1 camera sunDirection (default WGS84 ellipsoid) i
       (CascadedShadows.fitProjection s1 camera i
          (CascadedShadows.intervalOf newSplits i c))).

End UpdateResult.

(** ** The states the object goes through *)

(** A matrix whose last row is 0 0 0 1. *)
Definition affine (m : Matrix4.t) : Prop :=
  Matrix4.e3 m = 0 /\ Matrix4.e7 m = 0 /\ Matrix4.e11 m = 0 /\ Matrix4.e15 m = 1.

(** The array is well formed and the light matrix of every cascade is
    affine. *)
Definition consistent (s : CascadedShadows.t) : Prop :=
  CascadedShadows.wf s
  /\ forall (i : nat) (c : Cascade.t),
       CascadedShadows.cascade_at s i = Some c ->
       affine (Cascade.inverseViewMatrix c).

(** The states of a [CascadedShadows] object: built by the constructor, then
    changed by its setter, by assignments to its fields and by [update]. *)
Inductive reachable `{Helpers} : CascadedShadows.t -> Prop :=
| reachable_constructor (options : CascadedShadowsOptions.t) :
    reachable (CascadedShadows.constructor options)
| reachable_cascadeCount (v : nat) (s : CascadedShadows.t) :
    reachable s -> reachable (CascadedShadows.set_cascadeCount v s)
| reachable_cascadeSize (v : R) (s : CascadedShadows.t) :
    reachable s -> reachable (CascadedShadows.set_cascadeSize v s)
| reachable_far (v : R) (s : CascadedShadows.t) :
    reachable s -> reachable (CascadedShadows.set_far v s)
| reachable_mode (v : FrustumSplitMode) (s : CascadedShadows.t) :
    reachable s -> reachable (CascadedShadows.set_mode v s)
| reachable_lambda (v : R) (s : CascadedShadows.t) :
    reachable s -> reachable (CascadedShadows.set_lambda v s)
| reachable_margin (v : R) (s : CascadedShadows.t) :
    reachable s -> reachable (CascadedShadows.set_margin v s)
| reachable_fade (v : bool) (s : CascadedShadows.t) :
    reachable s -> reachable (CascadedShadows.set_fade v s)
| reachable_update (s : CascadedShadows.t) (camera : PerspectiveCamera.t)
    (sunDirection : Vector3.t) (ellipsoid : option Ellipsoid.t) (s' : CascadedShadows.t) :
    reachable s ->
    CascadedShadows.update s camera sunDirection ellipsoid = CascadedShadows.Returned s' ->
    reachable s'.

(** The matrix [lookAt] writes for a given backward axis [z]. *)
Definition lookAtBasis (m : Matrix4.t) (z : Vector3.t) : Matrix4.t :=
  let x := Vector3.normalize (Vector3.crossVectors DEFAULT_UP z) in
  let y := Vector3.crossVectors z x in
  Matrix4.mk (Vector3.x x) (Vector3.y x) (Vector3.z x) (Matrix4.e3 m)
             (Vector3.x y) (Vector3.y y) (Vector3.z y) (Matrix4.e7 m)
             (Vector3.x z) (Vector3.y z) (Vector3.z z) (Matrix4.e11 m)
             (Matrix4.e12 m) (Matrix4.e13 m) (Matrix4.e14 m) (Matrix4.e15 m).

(** ** A reference instance of the helpers, and a sample scene

    A camera-space frustum with a right-angle field of view and unit aspect,
    split by linear interpolation between its near and far corners; the unit
    sphere as the reference body; the shadows object built with the default
    options; a camera one unit above the sphere's pole, the sun overhead. *)

Module Reference.

Definition frustumAt (near far : R) : FrustumCorners.t :=
  FrustumCorners.mk
    (FrustumCorners.mkQuad
       (Vector3.mk near near (- near)) (Vector3.mk near (- near) (- near))
       (Vector3.mk (- near) (- near) (- near)) (Vector3.mk (- near) near (- near)))
    (FrustumCorners.mkQuad
       (Vector3.mk far far (- far)) (Vector3.mk far (- far) (- far))
       (Vector3.mk (- far) (- far) (- far)) (Vector3.mk (- far) far (- far))).

Definition cornersFromCamera (camera : PerspectiveCamera.t) (far : R) : FrustumCorners.t :=
  frustumAt (PerspectiveCamera.near camera) far.

Definition lerpVectors (a b : Vector3.t) (t : R) : Vector3.t :=
  Vector3.add a (Vector3.multiplyScalar (Vector3.subVectors b a) t).

Definition lerpQuad (f : FrustumCorners.t) (t : R) : FrustumCorners.quad :=
  FrustumCorners.mkQuad
    (lerpVectors (FrustumCorners.q0 (FrustumCorners.near f))
                 (FrustumCorners.q0 (FrustumCorners.far f)) t)
    (lerpVectors (FrustumCorners.q1 (FrustumCorners.near f))
                 (FrustumCorners.q1 (FrustumCorners.far f)) t)
    (lerpVectors (FrustumCorners.q2 (FrustumCorners.near f))
                 (FrustumCorners.q2 (FrustumCorners.far f)) t)
    (lerpVectors (FrustumCorners.q3 (FrustumCorners.near f))
                 (FrustumCorners.q3 (FrustumCorners.far f)) t).

(** The interpolation parameter of a split depth:
    (depth - near) / (far - near). *)
Definition depthParameter (f : FrustumCorners.t) (depth : R) : R :=
  let near := - Vector3.z (FrustumCorners.q0 (FrustumCorners.near f)) in
  let far := - Vector3.z (FrustumCorners.q0 (FrustumCorners.far f)) in
  (depth - near) / (far - near).

Definition splitCorners (f : FrustumCorners.t) (splits : list R)
    (_ : list FrustumCorners.t) : list FrustumCorners.t :=
  map (fun i =>
         FrustumCorners.mk
           (match at_index splits (Z.of_nat i - 1) with
            | Some d => lerpQuad f (depthParameter f d)
            | None => FrustumCorners.near f
            end)
           (match splits !! i with
            | Some d => lerpQuad f (depthParameter f d)
            | None => FrustumCorners.far f
            end))
      (seq 0 (length splits)).

Definition unitSphere : Ellipsoid.t := Ellipsoid.mk Vector3.normalize.

Definition helpers : Helpers :=
  Build_Helpers cornersFromCamera splitCorners
    (fun f sp out => eq_trans (length_map _ _) (length_seq _ _))
    unitSphere.

Definition options : CascadedShadowsOptions.t :=
  CascadedShadowsOptions.mk None None None None None None None.

Definition shadows : CascadedShadows.t := CascadedShadows.constructor options.

Definition above_pole : Matrix4.t := Matrix4.mk 1 0 0 0  0 1 0 0  0 0 1 0  0 0 1 1.

Definition camera : PerspectiveCamera.t := PerspectiveCamera.mk 1 1000 above_pole.

Definition farCamera : PerspectiveCamera.t := PerspectiveCamera.mk 1 2000 above_pole.

Definition sun : Vector3.t := Vector3.mk 0 0 1.

End Reference.

(** The derived matrices of a cascade agree with the two that [update]
    computes first: the inverses are inverses, and the two products are the
    products. *)
Definition derived (c : Cascade.t) : Prop :=
  Cascade.inverseProjectionMatrix c = Matrix4.invert (Cascade.projectionMatrix c)
  /\ Cascade.viewMatrix c = Matrix4.invert (Cascade.inverseViewMatrix c)
  /\ Cascade.matrix c
     = Matrix4.multiplyMatrices (Cascade.projectionMatrix c) (Cascade.viewMatrix c)
  /\ Cascade.inverseMatrix c
     = Matrix4.multiplyMatrices (Cascade.inverseViewMatrix c)
         (Cascade.inverseProjectionMatrix c).

(** ** [CloudsShadowMaterial]: the other accessors and the camera settings *)

Module Camera.

(** What [copyCameraSettings] reads of a three.js camera.  The optional
    property [isPerspectiveCamera] is [None] where it is not defined. *)
Record t := mk {
  isPerspectiveCamera : option bool;
  projectionMatrix : Matrix4.t;
  matrixWorldInverse : Matrix4.t;
  projectionMatrixInverse : Matrix4.t;
  near : R;
  far : R;
  matrixWorld : Matrix4.t
}.

(** [getWorldPosition]: the translation of an up-to-date [matrixWorld]. *)
Definition getWorldPosition (c : t) : Vector3.t := Matrix4.position (matrixWorld c).

End Camera.

Module ShadowMaterial.

(** Textures are named by their address. *)
Abbreviation Texture := nat (only parsing).

(** The uniforms the methods of the class write. *)
Record uniforms := mkUniforms {
  u_depthBuffer : option Texture;
  u_projectionMatrix : Matrix4.t;
  u_viewMatrix : Matrix4.t;
  u_inverseProjectionMatrix : Matrix4.t;
  u_resolution : Vector2.t;
  u_cameraNear : R;
  u_cameraFar : R;
  u_ellipsoidCenter : Vector3.t
}.

(** The instance: the defines and the version (a [CloudsShadowMaterial.t]),
    the uniforms, and the fields [ellipsoid], [correctAltitude] and
    [atmosphere.bottomRadius]. *)
Record t := mk {
  material : CloudsShadowMaterial.t;
  uniformsOf : uniforms;
  ellipsoid : Ellipsoid.t;
  correctAltitude : bool;
  bottomRadius : R
}.

Definition set_material (m : CloudsShadowMaterial.t) (s : t) : t :=
  mk m (uniformsOf s) (ellipsoid s) (correctAltitude s) (bottomRadius s).

Definition set_uniforms (u : uniforms) (s : t) : t :=
  mk (material s) u (ellipsoid s) (correctAltitude s) (bottomRadius s).

(** [this.defines.K = v] and [delete this.defines.K] *)
Definition define (k v : string) (m : CloudsShadowMaterial.t) : CloudsShadowMaterial.t :=
  CloudsShadowMaterial.mk (<[k := v]> (CloudsShadowMaterial.defines m))
    (CloudsShadowMaterial.version m).

Definition undefine (k : string) (m : CloudsShadowMaterial.t) : CloudsShadowMaterial.t :=
  CloudsShadowMaterial.mk (delete k (CloudsShadowMaterial.defines m))
    (CloudsShadowMaterial.version m).

(** [get depthPacking]: [+this.defines.DEPTH_PACKING] *)
Definition depthPacking (m : CloudsShadowMaterial.t) : option nat :=
  CloudsShadowMaterial.toNumber (CloudsShadowMaterial.defines m !! "DEPTH_PACKING"%string).

(** [set depthPacking] *)
Definition set_depthPacking (value : nat) (m : CloudsShadowMaterial.t)
    : CloudsShadowMaterial.t :=
  if decide (Some value <> depthPacking m) then
    CloudsShadowMaterial.set_needsUpdate true
      (define "DEPTH_PACKING" (CloudsShadowMaterial.numberToString value) m)
  else m.

(** [get useShapeDetail]: [this.defines.USE_SHAPE_DETAIL != null] *)
Definition useShapeDetail (m : CloudsShadowMaterial.t) : bool :=
  bool_decide (is_Some (CloudsShadowMaterial.defines m !! "USE_SHAPE_DETAIL"%string)).

(** [set useShapeDetail] *)
Definition set_useShapeDetail (value : bool) (m : CloudsShadowMaterial.t)
    : CloudsShadowMaterial.t :=
  if decide (value <> useShapeDetail m) then
    CloudsShadowMaterial.set_needsUpdate true
      (if value then define "USE_SHAPE_DETAIL" "1" m else undefine "USE_SHAPE_DETAIL" m)
  else m.

(** [get depthBuffer] and [set depthBuffer] *)
Definition depthBuffer (s : t) : option Texture := u_depthBuffer (uniformsOf s).

Definition set_depthBuffer (value : option Texture) (s : t) : t :=
  let u := uniformsOf s in
  set_uniforms
    (mkUniforms value (u_projectionMatrix u) (u_viewMatrix u) (u_inverseProjectionMatrix u)
       (u_resolution u) (u_cameraNear u) (u_cameraFar u) (u_ellipsoidCenter u))
    s.

Definition setSize (width height : R) (s : t) : t :=
  let u := uniformsOf s in
  set_uniforms
    (mkUniforms (u_depthBuffer u) (u_projectionMatrix u) (u_viewMatrix u)
       (u_inverseProjectionMatrix u) (Vector2.set (u_resolution u) width height)
       (u_cameraNear u) (u_cameraFar u) (u_ellipsoidCenter u))
    s.

(** The first statement of [copyCameraSettings]: the define
    [PERSPECTIVE_CAMERA] follows the kind of the camera. *)
Definition perspectiveDefine (camera : Camera.t) (m : CloudsShadowMaterial.t)
    : CloudsShadowMaterial.t :=
  let current := CloudsShadowMaterial.defines m !! "PERSPECTIVE_CAMERA"%string in
  if decide (Camera.isPerspectiveCamera camera = Some true) then
    if decide (current <> Some "1"%string) then
      CloudsShadowMaterial.set_needsUpdate true (define "PERSPECTIVE_CAMERA" "1" m)
    else m
  else
    if decide (is_Some current) then
      CloudsShadowMaterial.set_needsUpdate true (undefine "PERSPECTIVE_CAMERA" m)
    else m.

Section CopyCameraSettings.

(** [correctAtmosphereAltitude] of [@takram/three-atmosphere] is not under
    src/ and stays a parameter: it is handed the material (of which it is
    typed to read [ellipsoid] and [correctAltitude]), the camera position,
    the bottom radius and the vector it writes its result to. *)
Variable correctAtmosphereAltitude :
  Ellipsoid.t -> bool -> Vector3.t -> R -> Vector3.t -> Vector3.t.

Definition copyCameraSettings (camera : Camera.t) (s : t) : t :=
  let u := uniformsOf s in
  let material' := perspectiveDefine camera (material s) in
  let projectionMatrix := Matrix4.copy (u_projectionMatrix u) (Camera.projectionMatrix camera) in
  let viewMatrix := Matrix4.copy (u_viewMatrix u) (Camera.matrixWorldInverse camera) in
  let inverseProjectionMatrix :=
    Matrix4.copy (u_inverseProjectionMatrix u) (Camera.projectionMatrixInverse camera) in
  let position := Camera.getWorldPosition camera in
  let ellipsoidCenter :=
    correctAtmosphereAltitude (ellipsoid s) (correctAltitude s) position (bottomRadius s)
      (u_ellipsoidCenter u) in
  mk material'
     (mkUniforms (u_depthBuffer u) projectionMatrix viewMatrix inverseProjectionMatrix
        (u_resolution u) (Camera.near camera) (Camera.far camera) ellipsoidCenter)
     (ellipsoid s) (correctAltitude s) (bottomRadius s).

End CopyCameraSettings.

End ShadowMaterial.

(** The common shape of the setters of a define: where a test on the
    define's current value says so, the define is rewritten (or deleted) and
    [needsUpdate] is set. *)
Definition keyedUpdate (k : string) (test : option string -> bool) (v : option string)
    (m : CloudsShadowMaterial.t) : CloudsShadowMaterial.t :=
  if test (CloudsShadowMaterial.defines m !! k) then
    CloudsShadowMaterial.mk
      (partial_alter (fun _ => v) k (CloudsShadowMaterial.defines m))
      (S (CloudsShadowMaterial.version m))
  else m.

(** ** The class [CascadedShadowMaps]: cascades on directional lights *)

Module OrthographicCamera.

(** The shadow camera of a directional light. *)
Record t := mk {
  left : R; right : R; top : R; bottom : R; near : R; far : R; zoom : R;
  projectionMatrix : Matrix4.t;
  projectionMatrixInverse : Matrix4.t
}.

(** [updateProjectionMatrix()] of three.js, for a camera without a view
    offset. *)
Definition updateProjectionMatrix (c : t) : t :=
  let dx := (right c - left c) / (2 * zoom c) in
  let dy := (top c - bottom c) / (2 * zoom c) in
  let cx := (right c + left c) / 2 in
  let cy := (top c + bottom c) / 2 in
  let projection :=
    Matrix4.makeOrthographic (cx - dx) (cx + dx) (cy + dy) (cy - dy) (near c) (far c) in
  mk (left c) (right c) (top c) (bottom c) (near c) (far c) (zoom c)
     projection (Matrix4.invert (Matrix4.copy (projectionMatrixInverse c) projection)).

End OrthographicCamera.

Module DirectionalLight.

(** What the class reads and writes of a cascaded light: [shadow.camera],
    [position] and [target.position]. *)
Record t := mk {
  shadowCamera : OrthographicCamera.t;
  position : Vector3.t;
  targetPosition : Vector3.t
}.

End DirectionalLight.

Module CascadedDirectionalLights.

(** [CascadedDirectionalLights] is not under src/.  Of it the class uses the
    array [cascadedLights], the vector [direction] and, for [mapSize], the
    main light's [shadow.mapSize.width]. *)
Record t := mk {
  cascadedLights : list DirectionalLight.t;
  direction : Vector3.t;
  mapSizeWidth : R
}.

End CascadedDirectionalLights.

#[global] Instance FrustumSplitMode_eq_dec : EqDecision FrustumSplitMode.
Proof. solve_decision. Defined.

Module CascadedShadowMaps.

(** The far end of a cascade's interval: a number, or [Infinity]. *)
Inductive extended := Finite (r : R) | Infinity.

(** An entry of [cascades]: a [Vector2] whose [y] may be [Infinity]. *)
Record interval := mkInterval { x : R; y : extended }.

Inductive error := TypeError | InvariantViolation.

Section Class.

(** [MaterialStates] is not under src/: the state it keeps is a type
    parameter. *)
Context {MaterialStates : Type}.

Record t := mk {
  needsUpdateFrusta : bool;
  directionalLights : CascadedDirectionalLights.t;
  materialStates : MaterialStates;
  mainFrustum : FrustumCorners.t;
  cascadedFrusta : list FrustumCorners.t;
  splits : list R;
  cascades : list interval;
  _far : R;
  _mode : FrustumSplitMode;
  _lambda : R;
  _margin : R;
  _fade : bool;
  _disableLastCascadeCutoff : bool;
  mainCamera : PerspectiveCamera.t
}.

(** What a method call ends in: a normal return, or an exception, each
    with the state reached. *)
Inductive outcome := Returned (s : t) | Thrown (e : error) (s : t).

Definition bind (o : outcome) (k : t -> outcome) : outcome :=
  match o with
  | Returned s => k s
  | Thrown e s => Thrown e s
  end.

(** A loop whose body may throw. *)
Definition for_range_outcome (n : nat) (body : nat -> t -> outcome) (s : t) : outcome :=
  fold_left (fun o i => bind o (body i)) (seq 0 n) (Returned s).

(** The getters. *)
Definition cascadeCount (s : t) : nat :=
  length (CascadedDirectionalLights.cascadedLights (directionalLights s)).
Definition mapSize (s : t) : R := CascadedDirectionalLights.mapSizeWidth (directionalLights s).
Definition far (s : t) : R := _far s.
Definition mode (s : t) : FrustumSplitMode := _mode s.
Definition lambda (s : t) : R := _lambda s.
Definition margin (s : t) : R := _margin s.
Definition fade (s : t) : bool := _fade s.
Definition disableLastCascadeCutoff (s : t) : bool := _disableLastCascadeCutoff s.

Definition set_needsUpdateFrusta (v : bool) (s : t) : t :=
  mk v (directionalLights s) (materialStates s) (mainFrustum s) (cascadedFrusta s)
     (splits s) (cascades s) (_far s) (_mode s) (_lambda s) (_margin s) (_fade s)
     (_disableLastCascadeCutoff s) (mainCamera s).

Definition set_directionalLights (v : CascadedDirectionalLights.t) (s : t) : t :=
  mk (needsUpdateFrusta s) v (materialStates s) (mainFrustum s) (cascadedFrusta s)
     (splits s) (cascades s) (_far s) (_mode s) (_lambda s) (_margin s) (_fade s)
     (_disableLastCascadeCutoff s) (mainCamera s).

Definition set_cascadedLights (v : list DirectionalLight.t) (s : t) : t :=
  set_directionalLights
    (CascadedDirectionalLights.mk v
       (CascadedDirectionalLights.direction (directionalLights s))
       (CascadedDirectionalLights.mapSizeWidth (directionalLights s)))
    s.

Definition set_materialStates (v : MaterialStates) (s : t) : t :=
  mk (needsUpdateFrusta s) (directionalLights s) v (mainFrustum s) (cascadedFrusta s)
     (splits s) (cascades s) (_far s) (_mode s) (_lambda s) (_margin s) (_fade s)
     (_disableLastCascadeCutoff s) (mainCamera s).

Definition set_cascades (v : list interval) (s : t) : t :=
  mk (needsUpdateFrusta s) (directionalLights s) (materialStates s) (mainFrustum s)
     (cascadedFrusta s) (splits s) v (_far s) (_mode s) (_lambda s) (_margin s) (_fade s)
     (_disableLastCascadeCutoff s) (mainCamera s).

(** The setters of the six private fields: each compares, assigns and
    raises the flag. *)
Definition set_far (value : R) (s : t) : t :=
  if Req_dec_T value (_far s) then s else
    mk true (directionalLights s) (materialStates s) (mainFrustum s) (cascadedFrusta s)
       (splits s) (cascades s) value (_mode s) (_lambda s) (_margin s) (_fade s)
       (_disableLastCascadeCutoff s) (mainCamera s).

Definition set_mode (value : FrustumSplitMode) (s : t) : t :=
  if decide (value <> _mode s) then
    mk true (directionalLights s) (materialStates s) (mainFrustum s) (cascadedFrusta s)
       (splits s) (cascades s) (_far s) value (_lambda s) (_margin s) (_fade s)
       (_disableLastCascadeCutoff s) (mainCamera s)
  else s.

Definition set_lambda (value : R) (s : t) : t :=
  if Req_dec_T value (_lambda s) then s else
    mk true (directionalLights s) (materialStates s) (mainFrustum s) (cascadedFrusta s)
       (splits s) (cascades s) (_far s) (_mode s) value (_margin s) (_fade s)
       (_disableLastCascadeCutoff s) (mainCamera s).

Definition set_margin (value : R) (s : t) : t :=
  if Req_dec_T value (_margin s) then s else
    mk true (directionalLights s) (materialStates s) (mainFrustum s) (cascadedFrusta s)
       (splits s) (cascades s) (_far s) (_mode s) (_lambda s) value (_fade s)
       (_disableLastCascadeCutoff s) (mainCamera s).

Definition set_fade (value : bool) (s : t) : t :=
  if decide (value <> _fade s) then
    mk true (directionalLights s) (materialStates s) (mainFrustum s) (cascadedFrusta s)
       (splits s) (cascades s) (_far s) (_mode s) (_lambda s) (_margin s) value
       (_disableLastCascadeCutoff s) (mainCamera s)
  else s.

Definition set_disableLastCascadeCutoff (value : bool) (s : t) : t :=
  if decide (value <> _disableLastCascadeCutoff s) then
    mk true (directionalLights s) (materialStates s) (mainFrustum s) (cascadedFrusta s)
       (splits s) (cascades s) (_far s) (_mode s) (_lambda s) (_margin s) (_fade s)
       value (mainCamera s)
  else s.

(** [CascadedDirectionalLights.setCount] and [MaterialStates.update] are
    not under src/ and stay parameters: the first is handed the lights, the
    second the instance, of which it is taken to change the material states
    only. *)
Variable setCount : nat -> CascadedDirectionalLights.t -> CascadedDirectionalLights.t.
Variable materialStates_update : t -> MaterialStates.

(** [set cascadeCount] *)
Definition set_cascadeCount (value : nat) (s : t) : t :=
  if decide (value <> cascadeCount s) then
    set_needsUpdateFrusta true (set_directionalLights (setCount value (directionalLights s)) s)
  else s.

Context `{Helpers}.

(** The entry the loop of [updateCascades] leaves at index [i]. *)
Definition intervalOf (splits : list R) (i : nat) : interval :=
  mkInterval (default 0 (at_index splits (Z.of_nat i - 1)))
             (Finite (default 0 (at_index splits (Z.of_nat i)))).

Definition updateCascades (s : t) : outcome :=
  let cascadeCount := cascadeCount s in
  let splits' :=
    splitFrustum (mode s) cascadeCount (PerspectiveCamera.near (mainCamera s))
      (Math.min (PerspectiveCamera.far (mainCamera s)) (far s)) (lambda s) in
  let mainFrustum' := setFromCamera (mainCamera s) (far s) in
  let cascadedFrusta' := split mainFrustum' splits' (cascadedFrusta s) in
  let cascades' :=
    for_range cascadeCount (fun i a => array_set a i (intervalOf splits' i)) (cascades s) in
  let s1 :=
    mk (needsUpdateFrusta s) (directionalLights s) (materialStates s) mainFrustum'
       cascadedFrusta' splits' cascades' (_far s) (_mode s) (_lambda s) (_margin s)
       (_fade s) (_disableLastCascadeCutoff s) (mainCamera s) in
  if disableLastCascadeCutoff s then
    match at_index cascades' (Z.of_nat cascadeCount - 1) with
    | Some last =>
        Returned
          (set_cascades
             (take cascadeCount
                (<[Nat.pred cascadeCount := mkInterval (x last) Infinity]> cascades'))
             s1)
    | None => Thrown TypeError s1
    end
  else Returned (set_cascades (take cascadeCount cascades') s1).

Definition getFrustumRadius (s : t) (frustum : FrustumCorners.t) : R :=
  let nearCorners := FrustumCorners.near frustum in
  let farCorners := FrustumCorners.far frustum in
  let diagonalLength :=
    Math.max
      (Vector3.distanceTo (FrustumCorners.get farCorners 0)
                          (FrustumCorners.get farCorners 2))
      (Vector3.distanceTo (FrustumCorners.get farCorners 0)
                          (FrustumCorners.get nearCorners 2)) in
  let diagonalLength :=
    if fade s then
      let camera := mainCamera s in
      let near := PerspectiveCamera.near camera in
      let far := Math.min (PerspectiveCamera.far camera) (far s) in
      let distance := Vector3.z (FrustumCorners.get farCorners 0) / (far - near) in
      diagonalLength + 0.25 * distance ^ 2 * (far - near)
    else diagonalLength in
  diagonalLength * 0.5.

(** The body of the loop of [updateShadowBounds], on the light. *)
Definition fitShadowCamera (s : t) (frustum : FrustumCorners.t)
    (light : DirectionalLight.t) : DirectionalLight.t :=
  let radius := getFrustumRadius s frustum in
  let camera := DirectionalLight.shadowCamera light in
  let camera :=
    OrthographicCamera.mk (- radius) radius radius (- radius) 0 (radius * 2 + margin s)
      (OrthographicCamera.zoom camera) (OrthographicCamera.projectionMatrix camera)
      (OrthographicCamera.projectionMatrixInverse camera) in
  DirectionalLight.mk (OrthographicCamera.updateProjectionMatrix camera)
    (DirectionalLight.position light) (DirectionalLight.targetPosition light).

Definition updateShadowBounds (s : t) : outcome :=
  let frusta := cascadedFrusta s in
  let lights := CascadedDirectionalLights.cascadedLights (directionalLights s) in
  if decide (length frusta = length lights) then
    Returned
      (for_range (length frusta)
         (fun i s =>
            match cascadedFrusta s !! i with
            | Some frustum =>
                set_cascadedLights
                  (alter (fitShadowCamera s frustum) i
                     (CascadedDirectionalLights.cascadedLights (directionalLights s)))
                  s
            | None => s
            end)
         s)
  else Thrown InvariantViolation s.

Definition updateFrusta (s : t) : outcome :=
  bind (updateCascades s) (fun s =>
  bind (updateShadowBounds s) (fun s =>
  Returned (set_materialStates (materialStates_update s) s))).

(** [lightDirection]: the normalised copy of the lights' direction. *)
Definition lightDirection (s : t) : Vector3.t :=
  Vector3.normalize
    (Vector3.copy Vector3.new (CascadedDirectionalLights.direction (directionalLights s))).

(** [matrixScratch1.lookAt(new Vector3(), lightDirection, DEFAULT_UP)]: the
    scratch matrix starts as the identity and only its rotation is ever
    written. *)
Definition lightOrientationMatrix (s : t) : Matrix4.t :=
  Matrix4.lookAt Matrix4.new Vector3.new (lightDirection s) DEFAULT_UP.

Definition cameraToLightMatrix (s : t) : Matrix4.t :=
  Matrix4.multiplyMatrices
    (Matrix4.invert (Matrix4.copy Matrix4.new (lightOrientationMatrix s)))
    (PerspectiveCamera.matrixWorld (mainCamera s)).

(** [center] of the loop of [update], in light space, for a frustum and the
    shadow camera of its light. *)
Definition snappedCenter (s : t) (frustum : FrustumCorners.t)
    (camera : OrthographicCamera.t) : Vector3.t :=
  let lightSpace :=
    FrustumCorners.applyMatrix4 (FrustumCorners.copy frustum frustum)
      (cameraToLightMatrix s) in
  let bbox := CascadedShadows.frustumBox lightSpace in
  let center := CascadedShadows.boxTarget (margin s) bbox in
  let texelWidth :=
    (OrthographicCamera.right camera - OrthographicCamera.left camera) / mapSize s in
  let texelHeight :=
    (OrthographicCamera.top camera - OrthographicCamera.bottom camera) / mapSize s in
  let center :=
    Vector3.setX center (Math.round (Vector3.x center / texelWidth) * texelWidth) in
  Vector3.setY center (Math.round (Vector3.y center / texelHeight) * texelHeight).

(** The body of the loop of [update]. *)
Definition placeLight (i : nat) (s : t) : outcome :=
  match cascadedFrusta s !! i with
  | Some frustum =>
      let lights := CascadedDirectionalLights.cascadedLights (directionalLights s) in
      match lights !! i with
      | Some light =>
          let center := snappedCenter s frustum (DirectionalLight.shadowCamera light) in
          let center := Matrix4.applyToVector3 center (lightOrientationMatrix s) in
          Returned
            (set_cascadedLights
               (<[i := DirectionalLight.mk (DirectionalLight.shadowCamera light)
                         (Vector3.copy (DirectionalLight.position light) center)
                         (Vector3.add
                            (Vector3.copy (DirectionalLight.targetPosition light) center)
                            (lightDirection s))]> lights)
               s)
      | None => Thrown TypeError s
      end
  | None => Returned s
  end.

Definition update (s : t) : outcome :=
  bind
    (if needsUpdateFrusta s
     then updateFrusta (set_needsUpdateFrusta false s)
     else Returned s)
    (fun s => for_range_outcome (length (cascadedFrusta s)) placeLight s).

End Class.

End CascadedShadowMaps.

Arguments CascadedShadowMaps.t MaterialStates : clear implicits.
Arguments CascadedShadowMaps.outcome MaterialStates : clear implicits.

(** ** What the methods of [CascadedShadowMaps] compute *)

Section ShadowMapsResult.

Context {MaterialStates : Type} `{Helpers}.

(** The configuration: the six private fields. *)
Definition configuration (s : CascadedShadowMaps.t MaterialStates)
    : R * FrustumSplitMode * R * R * bool * bool :=
  (CascadedShadowMaps.far s, CascadedShadowMaps.mode s, CascadedShadowMaps.lambda s,
   CascadedShadowMaps.margin s, CascadedShadowMaps.fade s,
   CascadedShadowMaps.disableLastCascadeCutoff s).

(** What [updateFrusta] computes, apart from the shadow cameras. *)
Definition frustaState (s : CascadedShadowMaps.t MaterialStates)
    : MaterialStates * FrustumCorners.t * list FrustumCorners.t * list R
      * list CascadedShadowMaps.interval :=
  (CascadedShadowMaps.materialStates s, CascadedShadowMaps.mainFrustum s,
   CascadedShadowMaps.cascadedFrusta s, CascadedShadowMaps.splits s,
   CascadedShadowMaps.cascades s).

Definition lightsOf (s : CascadedShadowMaps.t MaterialStates) : list DirectionalLight.t :=
  CascadedDirectionalLights.cascadedLights (CascadedShadowMaps.directionalLights s).

(** The state an outcome carries. *)
Definition stateOf (o : CascadedShadowMaps.outcome MaterialStates)
    : CascadedShadowMaps.t MaterialStates :=
  match o with
  | CascadedShadowMaps.Returned s => s
  | CascadedShadowMaps.Thrown _ s => s
  end.

(** The light the body of the loop of [update] leaves at index [i]. *)
Definition placedLight (s : CascadedShadowMaps.t MaterialStates) (i : nat)
    (light : DirectionalLight.t) : DirectionalLight.t :=
  match CascadedShadowMaps.cascadedFrusta s !! i with
  | Some frustum =>
      let center :=
        Matrix4.applyToVector3
          (CascadedShadowMaps.snappedCenter s frustum (DirectionalLight.shadowCamera light))
          (CascadedShadowMaps.lightOrientationMatrix s) in
      DirectionalLight.mk (DirectionalLight.shadowCamera light) center
        (Vector3.add center (CascadedShadowMaps.lightDirection s))
  | None => light
  end.

(** The light the body of the loop of [updateShadowBounds] leaves at
    index [i]. *)
Definition fittedLight (s : CascadedShadowMaps.t MaterialStates) (i : nat)
    (light : DirectionalLight.t) : DirectionalLight.t :=
  match CascadedShadowMaps.cascadedFrusta s !! i with
  | Some frustum => CascadedShadowMaps.fitShadowCamera s frustum light
  | None => light
  end.

(** The entry of [cascades] at index [i] after [updateCascades]. *)
Definition mapsInterval (s : CascadedShadowMaps.t MaterialStates) (splits : list R)
    (i : nat) : CascadedShadowMaps.interval :=
  let entry := CascadedShadowMaps.intervalOf splits i in
  if CascadedShadowMaps.disableLastCascadeCutoff s
     && bool_decide (i = Nat.pred (CascadedShadowMaps.cascadeCount s))
  then CascadedShadowMaps.mkInterval (CascadedShadowMaps.x entry) CascadedShadowMaps.Infinity
  else entry.

(** A setter that found a new value: the flag is raised, the configuration
    is [config], and nothing else has changed. *)
Definition raisesFlag (s s' : CascadedShadowMaps.t MaterialStates)
    (config : R * FrustumSplitMode * R * R * bool * bool) : Prop :=
  CascadedShadowMaps.needsUpdateFrusta s' = true
  /\ configuration s' = config
  /\ frustaState s' = frustaState s
  /\ CascadedShadowMaps.directionalLights s' = CascadedShadowMaps.directionalLights s
  /\ CascadedShadowMaps.mainCamera s' = CascadedShadowMaps.mainCamera s.

(** The split distances and the sub-frusta [updateCascades] computes. *)
Definition mapsSplits (s : CascadedShadowMaps.t MaterialStates) : list R :=
  splitFrustum (CascadedShadowMaps.mode s) (CascadedShadowMaps.cascadeCount s)
    (PerspectiveCamera.near (CascadedShadowMaps.mainCamera s))
    (Rmin (PerspectiveCamera.far (CascadedShadowMaps.mainCamera s)) (CascadedShadowMaps.far s))
    (CascadedShadowMaps.lambda s).

Definition mapsFrusta (s : CascadedShadowMaps.t MaterialStates) : list FrustumCorners.t :=
  split (setFromCamera (CascadedShadowMaps.mainCamera s) (CascadedShadowMaps.far s))
    (mapsSplits s) (CascadedShadowMaps.cascadedFrusta s).

(** The state [updateCascades] returns. *)
Definition afterCascades (s : CascadedShadowMaps.t MaterialStates)
    : CascadedShadowMaps.t MaterialStates :=
  CascadedShadowMaps.mk (CascadedShadowMaps.needsUpdateFrusta s)
    (CascadedShadowMaps.directionalLights s) (CascadedShadowMaps.materialStates s)
    (setFromCamera (CascadedShadowMaps.mainCamera s) (CascadedShadowMaps.far s))
    (mapsFrusta s) (mapsSplits s)
    (map (mapsInterval s (mapsSplits s)) (seq 0 (CascadedShadowMaps.cascadeCount s)))
    (CascadedShadowMaps._far s) (CascadedShadowMaps._mode s) (CascadedShadowMaps._lambda s)
    (CascadedShadowMaps._margin s) (CascadedShadowMaps._fade s)
    (CascadedShadowMaps._disableLastCascadeCutoff s) (CascadedShadowMaps.mainCamera s).

End ShadowMapsResult.

(** A sample instance: two lights shining down the z axis, no material
    states, the camera of the sample scene. *)
Module ReferenceMaps.

Definition light : DirectionalLight.t :=
  DirectionalLight.mk
    (OrthographicCamera.mk (-5) 5 5 (-5) 0.5 500 1 Matrix4.new Matrix4.new)
    Vector3.new Vector3.new.

Definition maps : CascadedShadowMaps.t unit :=
  CascadedShadowMaps.mk true
    (CascadedDirectionalLights.mk [light; light] (Vector3.mk 0 0 (-2)) 2048)
    tt (Reference.frustumAt 1 5000) [] [] []
    5000 practical 0.5 200 true false Reference.camera.

Definition noLights : CascadedShadowMaps.t unit :=
  CascadedShadowMaps.mk true
    (CascadedDirectionalLights.mk [] (Vector3.mk 0 0 (-2)) 2048)
    tt (Reference.frustumAt 1 5000) [] [] []
    5000 practical 0.5 200 true true Reference.camera.

Definition noMaterials (_ : CascadedShadowMaps.t unit) : unit := tt.

End ReferenceMaps.

(** ** The sky's fragment shader: the moon's disc *)

Module AtmosphereShader.

(** GLSL's [step], [mix] and unary minus on a [vec3]; [float]s are read as
    real numbers. *)
Definition step (edge x : R) : R := if Rlt_dec x edge then 0 else 1.

Definition mix (x y a : R) : R := x * (1 - a) + y * a.

Definition negate (v : Vector3.t) : Vector3.t :=
  Vector3.mk (- Vector3.x v) (- Vector3.y v) (- Vector3.z v).

Definition intersectSphere (ray point : Vector3.t) (radius : R) : R :=
  let P := negate point in
  let PoR := Vector3.dot P ray in
  let D := Vector3.dot P P - radius * radius in
  - PoR - sqrt (PoR * PoR - D).

Definition orenNayarDiffuse (L V N : Vector3.t) : R :=
  let NoL := Vector3.dot N L in
  let NoV := Vector3.dot N V in
  let s := Vector3.dot L V - NoL * NoV in
  let t := mix 1 (Rmax NoL NoV) (step 0 s) in
  Rmax 0 NoL * (0.62406015 + 0.41284404 * s / t).

End AtmosphereShader.

(** * Properties *)

(** ** The three.js inverse *)

(** The inverse really is one. *)
Lemma Matrix4_invert_right (m : Matrix4.t) :
  Matrix4.determinant m <> 0 ->
  Matrix4.multiplyMatrices m (Matrix4.invert m) = Matrix4.new.
Proof.
  intros Hdet. destruct m.
  unfold Matrix4.invert, Matrix4.determinant in *.
  cbn [Matrix4.e0 Matrix4.e1 Matrix4.e2 Matrix4.e3 Matrix4.e4 Matrix4.e5
       Matrix4.e6 Matrix4.e7 Matrix4.e8 Matrix4.e9 Matrix4.e10 Matrix4.e11
       Matrix4.e12 Matrix4.e13 Matrix4.e14 Matrix4.e15] in *.
  cbv zeta in *.
  destruct (Req_dec_T _ 0) as [E|_]; [contradiction|].
  unfold Matrix4.multiplyMatrices, Matrix4.new; cbn.
  f_equal; field; exact Hdet.
Qed.

(** ** Frustum splitting *)

Section SplitFrustum.

Variables (count : nat) (near far : R).
Hypothesis count_pos : (1 <= count)%nat.
Hypothesis near_far : 0 < near < far.

Let INR_count_pos : 0 < INR count.
Proof. apply lt_0_INR. lia. Qed.

Lemma ratio_lt (i j : nat) : (i < j)%nat -> INR i / INR count < INR j / INR count.
Proof.
  intros Hij. apply Rmult_lt_compat_r.
  - now apply Rinv_0_lt_compat.
  - now apply lt_INR.
Qed.

Lemma ratio_full : INR count / INR count = 1.
Proof. field. lra. Qed.

Lemma uniformSplit_lt (i j : nat) :
  (i < j)%nat -> uniformSplit count near far i < uniformSplit count near far j.
Proof.
  intros Hij. unfold uniformSplit.
  pose proof (ratio_lt i j Hij) as Hr. unfold Rdiv in *.
  rewrite !Rmult_assoc. nra.
Qed.

Lemma uniformSplit_0 : uniformSplit count near far 0 = near.
Proof. unfold uniformSplit. simpl. field. lra. Qed.

Lemma uniformSplit_last : uniformSplit count near far count = far.
Proof. unfold uniformSplit. field. lra. Qed.

Lemma base_gt_1 : 1 < far / near.
Proof.
  apply (Rmult_lt_reg_r near); [lra|].
  replace (far / near * near) with far by (field; lra). lra.
Qed.

Lemma logarithmicSplit_lt (i j : nat) :
  (i < j)%nat -> logarithmicSplit count near far i < logarithmicSplit count near far j.
Proof.
  intros Hij. unfold logarithmicSplit, Math.pow.
  apply Rmult_lt_compat_l; [lra|].
  apply Rpower_lt; [exact base_gt_1 | now apply ratio_lt].
Qed.

Lemma logarithmicSplit_0 : logarithmicSplit count near far 0 = near.
Proof.
  unfold logarithmicSplit, Math.pow. simpl INR.
  replace (0 / INR count) with 0 by (field; lra).
  rewrite Rpower_O; [lra|]. pose proof base_gt_1. lra.
Qed.

Lemma logarithmicSplit_last : logarithmicSplit count near far count = far.
Proof.
  unfold logarithmicSplit, Math.pow. rewrite ratio_full.
  rewrite Rpower_1; [field; lra|]. pose proof base_gt_1. lra.
Qed.

Lemma practicalSplit_lt (lambda : R) (i j : nat) :
  0 <= lambda <= 1 -> (i < j)%nat ->
  practicalSplit count near far lambda i < practicalSplit count near far lambda j.
Proof.
  intros Hl Hij. unfold practicalSplit.
  pose proof (uniformSplit_lt i j Hij) as Hu.
  pose proof (logarithmicSplit_lt i j Hij) as Hg.
  generalize dependent (uniformSplit count near far i).
  generalize dependent (uniformSplit count near far j).
  generalize dependent (logarithmicSplit count near far i).
  generalize dependent (logarithmicSplit count near far j).
  intros lj li Hg uj ui Hu.
  assert (0 <= lambda * (lj - li)) by (apply Rmult_le_pos; lra).
  assert (0 <= (1 - lambda) * (uj - ui)) by (apply Rmult_le_pos; lra).
  destruct (Rle_lt_dec lambda (1 / 2)).
  - assert (0 < (1 - lambda) * (uj - ui)) by (apply Rmult_lt_0_compat; lra). lra.
  - assert (0 < lambda * (lj - li)) by (apply Rmult_lt_0_compat; lra). lra.
Qed.

Lemma practicalSplit_0 (lambda : R) : practicalSplit count near far lambda 0 = near.
Proof. unfold practicalSplit. rewrite uniformSplit_0, logarithmicSplit_0. ring. Qed.

Lemma practicalSplit_last (lambda : R) : practicalSplit count near far lambda count = far.
Proof. unfold practicalSplit. rewrite uniformSplit_last, logarithmicSplit_last. ring. Qed.

Variables (mode : FrustumSplitMode) (lambda : R).
Hypothesis lambda_blend : mode = practical -> 0 <= lambda <= 1.

Lemma splitAt_lt (i j : nat) :
  (i < j)%nat -> splitAt mode count near far lambda i < splitAt mode count near far lambda j.
Proof.
  intros Hij. destruct mode; simpl.
  - now apply uniformSplit_lt.
  - now apply logarithmicSplit_lt.
  - apply practicalSplit_lt; auto.
Qed.

Lemma splitAt_0 : splitAt mode count near far lambda 0 = near.
Proof.
  destruct mode; simpl;
    [apply uniformSplit_0 | apply logarithmicSplit_0 | apply practicalSplit_0].
Qed.

Lemma splitAt_last : splitAt mode count near far lambda count = far.
Proof.
  destruct mode; simpl;
    [apply uniformSplit_last | apply logarithmicSplit_last | apply practicalSplit_last].
Qed.

Lemma splitAt_bounds (i : nat) :
  (1 <= i <= count)%nat -> near < splitAt mode count near far lambda i <= far.
Proof.
  intros [Hi1 Hi2]. split.
  - rewrite <- splitAt_0 at 1. apply splitAt_lt. lia.
  - destruct (decide (i = count)) as [->|Hne].
    + rewrite splitAt_last. lra.
    + left. rewrite <- splitAt_last at 2. apply splitAt_lt. lia.
Qed.

End SplitFrustum.

Lemma splitFrustum_length mode count near far lambda :
  length (splitFrustum mode count near far lambda) = count.
Proof. unfold splitFrustum. now rewrite length_map, length_seq. Qed.

Lemma splitFrustum_lookup mode count near far lambda (i : nat) :
  (i < count)%nat ->
  splitFrustum mode count near far lambda !! i
  = Some (splitAt mode count near far lambda (S i)).
Proof.
  intros Hi. unfold splitFrustum.
  rewrite list_lookup_fmap, lookup_seq_lt by done. reflexivity.
Qed.

Lemma splitFrustum_lookup_inv mode count near far lambda (i : nat) (a : R) :
  splitFrustum mode count near far lambda !! i = Some a ->
  (i < count)%nat /\ a = splitAt mode count near far lambda (S i).
Proof.
  intros Hl. assert (Hi : (i < count)%nat).
  { apply lookup_lt_Some in Hl. now rewrite splitFrustum_length in Hl. }
  rewrite splitFrustum_lookup in Hl by done. split; congruence.
Qed.

(** C1 (as amended).  For each of the three modes, a cascade count N >= 1,
    0 < near < far and, for the practical mode, a blend factor lambda in
    [0, 1], [splitFrustum] gives exactly N split distances, the i-th (from 1)
    being near + (far - near) * i / N (uniform), near * (far / near) ^ (i / N)
    (logarithmic), or lambda * logarithmic_i + (1 - lambda) * uniform_i
    (practical); they are strictly increasing and lie in (near, far], the last
    one being far; for N = 1 the only split is far.  With near = 1,
    far = 1000 and N = 4 the uniform splits are 250.75, 500.5, 750.25, 1000. *)
Theorem splitFrustum_contract (mode : FrustumSplitMode) (N : nat) (near far lambda : R) :
  (1 <= N)%nat -> 0 < near < far -> (mode = practical -> 0 <= lambda <= 1) ->
  let splits := splitFrustum mode N near far lambda in
  length splits = N
  /\ (forall i : nat, (i < N)%nat ->
        splits !! i = Some
          match mode with
          | uniform => near + (far - near) * INR (S i) / INR N
          | logarithmic => near * Rpower (far / near) (INR (S i) / INR N)
          | practical =>
              lambda * (near * Rpower (far / near) (INR (S i) / INR N))
              + (1 - lambda) * (near + (far - near) * INR (S i) / INR N)
          end)
  /\ (forall (i j : nat) (a b : R),
        (i < j)%nat -> splits !! i = Some a -> splits !! j = Some b -> a < b)
  /\ (forall (i : nat) (a : R), splits !! i = Some a -> near < a <= far)
  /\ last splits = Some far
  /\ (N = 1%nat -> splits = [far])
  /\ splitFrustum uniform 4 1 1000 lambda = [250.75; 500.5; 750.25; 1000].
Proof.
  intros HN Hnf Hl splits.
  assert (Hlast : last splits = Some far).
  { rewrite last_lookup. subst splits. rewrite splitFrustum_length.
    rewrite splitFrustum_lookup by lia.
    replace (S (Nat.pred N)) with N by lia.
    now rewrite splitAt_last. }
  split; [apply splitFrustum_length|].
  split; [|split; [|split; [|split; [exact Hlast|split]]]].
  - intros i Hi. subst splits. rewrite splitFrustum_lookup by done.
    destruct mode; reflexivity.
  - intros i j a b Hij Ha Hb.
    apply splitFrustum_lookup_inv in Ha as [_ ->].
    apply splitFrustum_lookup_inv in Hb as [_ ->].
    apply splitAt_lt; auto with lia.
  - intros i a Ha. apply splitFrustum_lookup_inv in Ha as [Hi ->].
    apply splitAt_bounds; auto with lia.
  - intros ->. subst splits. unfold splitFrustum. simpl.
    f_equal. now apply (splitAt_last 1).
  - unfold splitFrustum. simpl. unfold uniformSplit. simpl INR. repeat f_equal; lra.
Qed.

(** The contract at the practical mode with four cascades, near = 1,
    far = 1000 and lambda = 1/2. *)
Lemma splitFrustum_contract_witness :
  let splits := splitFrustum practical 4 1 1000 (1 / 2) in
  length splits = 4%nat
  /\ (forall i : nat, (i < 4)%nat ->
        splits !! i = Some
          (1 / 2 * (1 * Rpower (1000 / 1) (INR (S i) / INR 4))
           + (1 - 1 / 2) * (1 + (1000 - 1) * INR (S i) / INR 4)))
  /\ (forall (i j : nat) (a b : R),
        (i < j)%nat -> splits !! i = Some a -> splits !! j = Some b -> a < b)
  /\ (forall (i : nat) (a : R), splits !! i = Some a -> 1 < a <= 1000)
  /\ last splits = Some 1000
  /\ (4%nat = 1%nat -> splits = [1000])
  /\ splitFrustum uniform 4 1 1000 (1 / 2) = [250.75; 500.5; 750.25; 1000].
Proof.
  apply (splitFrustum_contract practical 4 1 1000 (1 / 2)); [lia | lra | intros _; lra].
Defined.

(** C1, as stated, fails: the last split is [far] itself, which is not inside
    the open interval (near, far); the uniform splits of near = 1,
    far = 1000, count = 4 are not 250, 500, 750, 1000; and with a blend
    factor outside [0, 1] a practical split leaves the range (lambda = 2,
    near = 1, far = 100, count = 2 gives -30.5 first). *)
Lemma splitFrustum_contract_counterexample :
  (exists a : R, last (splitFrustum uniform 4 1 1000 (1 / 2)) = Some a /\ ~ (1 < a < 1000))
  /\ splitFrustum uniform 4 1 1000 (1 / 2) <> [250; 500; 750; 1000]
  /\ (exists a : R, splitFrustum practical 2 1 100 2 !! 0%nat = Some a /\ ~ (1 < a < 100)).
Proof.
  assert (E : splitFrustum uniform 4 1 1000 (1 / 2) = [250.75; 500.5; 750.25; 1000]).
  { unfold splitFrustum. simpl. unfold uniformSplit. simpl INR. repeat f_equal; lra. }
  assert (E' : splitFrustum practical 2 1 100 2 = [-30.5; 100]).
  { unfold splitFrustum. simpl.
    unfold practicalSplit, logarithmicSplit, uniformSplit, Math.pow. simpl INR.
    replace (100 / 1) with 100 by lra.
    replace (1 / (1 + 1)) with (/ 2) by lra.
    replace ((1 + 1) / (1 + 1)) with 1 by lra.
    rewrite Rpower_sqrt, Rpower_1 by lra.
    replace 100 with (10 * 10) at 1 by lra.
    rewrite sqrt_square by lra.
    repeat f_equal; lra. }
  rewrite E, E'. split; [|split].
  - exists 1000. split; [reflexivity | lra].
  - intros H. injection H as H _. lra.
  - exists (-30.5). split; [reflexivity | lra].
Qed.

(** ** Loops over the cascades *)

Lemma for_range_S {A} (n : nat) (body : nat -> A -> A) (a : A) :
  for_range (S n) body a = body n (for_range n body a).
Proof. unfold for_range. now rewrite seq_S, fold_left_app. Qed.

Section OnCascade.

Variables (cs : list CascadedShadows.loc) (g : nat -> Cascade.t -> Cascade.t).

Lemma on_cascade_length (i : nat) (st : list Cascade.t) :
  length (CascadedShadows.on_cascade cs g i st) = length st.
Proof.
  unfold CascadedShadows.on_cascade. destruct (cs !! i); [apply length_alter | reflexivity].
Qed.

Lemma for_range_on_cascade_length (n : nat) (st : list Cascade.t) :
  length (for_range n (CascadedShadows.on_cascade cs g) st) = length st.
Proof.
  induction n as [|n IH]; [reflexivity|].
  now rewrite for_range_S, on_cascade_length.
Qed.

(** Objects the loop does not reach are left alone. *)
Lemma for_range_on_cascade_miss (n : nat) (st : list Cascade.t) (l : nat) :
  (forall i : nat, (i < n)%nat -> cs !! i <> Some l) ->
  for_range n (CascadedShadows.on_cascade cs g) st !! l = st !! l.
Proof.
  induction n as [|n IH]; intros Hmiss; [reflexivity|].
  rewrite for_range_S. unfold CascadedShadows.on_cascade at 1.
  destruct (cs !! n) as [l'|] eqn:El.
  - rewrite list_lookup_alter_ne.
    + apply IH. intros i Hi. apply Hmiss. lia.
    + intros ->. now apply (Hmiss n); [lia|].
  - apply IH. intros i Hi. apply Hmiss. lia.
Qed.

(** The object at index [i] is changed by the [i]-th round and by no other,
    as long as no two entries of the array are the same object. *)
Lemma for_range_on_cascade_hit (n : nat) (st : list Cascade.t) (i l : nat) :
  NoDup cs -> (i < n)%nat -> cs !! i = Some l ->
  for_range n (CascadedShadows.on_cascade cs g) st !! l = g i <$> st !! l.
Proof.
  intros Hnd. induction n as [|n IH]; intros Hi Hl; [lia|].
  rewrite for_range_S. unfold CascadedShadows.on_cascade at 1.
  destruct (decide (i = n)) as [->|Hne].
  - rewrite Hl, list_lookup_alter_eq. f_equal.
    apply for_range_on_cascade_miss. intros j Hj Hj'.
    pose proof (NoDup_lookup _ _ _ _ Hnd Hj' Hl). lia.
  - destruct (cs !! n) as [l'|] eqn:El.
    + rewrite list_lookup_alter_ne; [apply IH; [lia | done]|].
      intros ->. pose proof (NoDup_lookup _ _ _ _ Hnd El Hl). lia.
    + apply IH; [lia | done].
Qed.

End OnCascade.

(** ** What [update] does to each cascade *)

Section Update.

Context `{Helpers}.

Variables (s : CascadedShadows.t) (camera : PerspectiveCamera.t)
  (sunDirection : Vector3.t) (ellipsoid : option Ellipsoid.t).

Lemma newSplits_length : length (newSplits s camera) = CascadedShadows.cascadeCount s.
Proof. apply splitFrustum_length. Qed.

Lemma newFrusta_length : length (newFrusta s camera) = CascadedShadows.cascadeCount s.
Proof. unfold newFrusta. now rewrite split_length, newSplits_length. Qed.

(** [update] returns: the invariants of its two middle steps hold, and each
    cascade object of the array went through the four loop bodies, every
    other object of the store being left as it was. *)
Lemma update_spec :
  NoDup (CascadedShadows.cascades s) ->
  exists s' : CascadedShadows.t,
    CascadedShadows.update s camera sunDirection ellipsoid = CascadedShadows.Returned s'
    /\ CascadedShadows.cascades s' = CascadedShadows.cascades s
    /\ CascadedShadows.cascadeSize s' = CascadedShadows.cascadeSize s
    /\ CascadedShadows.far s' = CascadedShadows.far s
    /\ CascadedShadows.mode s' = CascadedShadows.mode s
    /\ CascadedShadows.lambda s' = CascadedShadows.lambda s
    /\ CascadedShadows.margin s' = CascadedShadows.margin s
    /\ CascadedShadows.fade s' = CascadedShadows.fade s
    /\ CascadedShadows.frusta s' = (newFrusta s camera)
    /\ CascadedShadows.splits s' = (newSplits s camera)
    /\ length (CascadedShadows.store s') = length (CascadedShadows.store s)
    /\ (forall i l : nat, CascadedShadows.cascades s !! i = Some l ->
          CascadedShadows.store s' !! l
          = updatedCascade s camera sunDirection ellipsoid i <$> CascadedShadows.store s !! l)
    /\ (forall l : nat, l ∉ CascadedShadows.cascades s ->
          CascadedShadows.store s' !! l = CascadedShadows.store s !! l).
Proof.
  intros Hnd.
  pose proof newFrusta_length as Hfl. unfold CascadedShadows.cascadeCount in Hfl.
  unfold CascadedShadows.update, CascadedShadows.bind.
  unfold CascadedShadows.updateProjectionMatrix.
  change (CascadedShadows.frusta (CascadedShadows.updateIntervals s camera)) with (newFrusta s camera).
  change (CascadedShadows.cascades (CascadedShadows.updateIntervals s camera)) with (CascadedShadows.cascades s).
  rewrite decide_True by exact Hfl.
  unfold CascadedShadows.updateInverseViewMatrix.
  repeat change (CascadedShadows.frusta (CascadedShadows.set_store ?st ?x))
    with (CascadedShadows.frusta x).
  repeat change (CascadedShadows.cascades (CascadedShadows.set_store ?st ?x))
    with (CascadedShadows.cascades x).
  change (CascadedShadows.frusta (CascadedShadows.updateIntervals s camera)) with (newFrusta s camera).
  change (CascadedShadows.cascades (CascadedShadows.updateIntervals s camera)) with (CascadedShadows.cascades s).
  rewrite decide_True by exact Hfl.
  eexists. split; [reflexivity|].
  repeat (split; [reflexivity|]).
  unfold CascadedShadows.cascadeCount.
  repeat change (CascadedShadows.store (CascadedShadows.set_store ?st ?x)) with st.
  repeat change (CascadedShadows.cascades (CascadedShadows.set_store ?st ?x))
    with (CascadedShadows.cascades x).
  repeat change (CascadedShadows.frusta (CascadedShadows.set_store ?st ?x))
    with (CascadedShadows.frusta x).
  change (CascadedShadows.cascades (CascadedShadows.updateIntervals s camera)) with (CascadedShadows.cascades s).
  change (CascadedShadows.frusta (CascadedShadows.updateIntervals s camera)) with (newFrusta s camera).
  change (CascadedShadows.store (CascadedShadows.updateIntervals s camera))
    with (for_range (length (CascadedShadows.cascades s))
            (CascadedShadows.on_cascade (CascadedShadows.cascades s)
               (CascadedShadows.intervalOf (newSplits s camera)))
            (CascadedShadows.store s)).
  rewrite Hfl.
  split; [|split].
  - now rewrite !for_range_on_cascade_length.
  - intros i l Hl.
    assert (Hi : (i < length (CascadedShadows.cascades s))%nat)
      by (eapply lookup_lt_Some; eauto).
    rewrite !(for_range_on_cascade_hit _ _ _ _ i l Hnd Hi Hl).
    rewrite <- !option_fmap_compose. reflexivity.
  - intros l Hl.
    rewrite !for_range_on_cascade_miss; [reflexivity|..];
      intros i _ Hi; apply Hl; eapply list_elem_of_lookup_2; eauto.
Qed.

End Update.

(** ** Resizing the cascade array *)

Lemma ensureCascade_loop (n : nat) (st : list Cascade.t) (cs : list nat) :
  for_range n CascadedShadows.ensureCascade (st, cs)
  = (st ++ replicate (n - length cs) Cascade.fresh,
     cs ++ seq (length st) (n - length cs)).
Proof.
  induction n as [|n IH].
  - simpl. now rewrite !app_nil_r.
  - rewrite for_range_S, IH. unfold CascadedShadows.ensureCascade. cbn [fst snd].
    destruct (decide (n < length cs)%nat) as [Hlt|Hge].
    + replace (S n - length cs)%nat with 0%nat by lia.
      replace (n - length cs)%nat with 0%nat by lia.
      simpl. rewrite !app_nil_r.
      destruct (lookup_lt_is_Some_2 cs n Hlt) as [l ->]. reflexivity.
    + replace (S n - length cs)%nat with (S (n - length cs)) by lia.
      rewrite lookup_ge_None_2
        by (rewrite length_app, length_seq; lia).
      unfold array_set. rewrite decide_False
        by (rewrite length_app, length_seq; lia).
      rewrite seq_S, replicate_S_end, !app_assoc.
      now rewrite length_app, length_replicate.
Qed.

Lemma set_cascadeCount_store (n : nat) (s : CascadedShadows.t) :
  CascadedShadows.store (CascadedShadows.set_cascadeCount n s)
  = CascadedShadows.store s
    ++ replicate (n - CascadedShadows.cascadeCount s) Cascade.fresh.
Proof.
  unfold CascadedShadows.set_cascadeCount.
  destruct (decide (n <> CascadedShadows.cascadeCount s)) as [Hne|Heq].
  - cbn [CascadedShadows.store]. now rewrite ensureCascade_loop.
  - replace (n - CascadedShadows.cascadeCount s)%nat with 0%nat by lia.
    simpl. now rewrite app_nil_r.
Qed.

Lemma set_cascadeCount_cascades (n : nat) (s : CascadedShadows.t) :
  CascadedShadows.cascades (CascadedShadows.set_cascadeCount n s)
  = take n (CascadedShadows.cascades s)
    ++ seq (length (CascadedShadows.store s)) (n - CascadedShadows.cascadeCount s).
Proof.
  unfold CascadedShadows.set_cascadeCount, CascadedShadows.cascadeCount.
  destruct (decide (n <> length (CascadedShadows.cascades s))) as [Hne|Heq].
  - cbn [CascadedShadows.cascades]. rewrite ensureCascade_loop. cbn [snd].
    rewrite take_app.
    destruct (decide (n < length (CascadedShadows.cascades s))%nat).
    + replace (n - length (CascadedShadows.cascades s))%nat with 0%nat by lia.
      reflexivity.
    + rewrite (take_ge (seq _ _)) by (rewrite length_seq; lia). reflexivity.
  - replace (n - length (CascadedShadows.cascades s))%nat with 0%nat by lia.
    rewrite take_ge by lia. simpl. now rewrite app_nil_r.
Qed.

Lemma set_cascadeCount_cascadeCount (n : nat) (s : CascadedShadows.t) :
  CascadedShadows.cascadeCount (CascadedShadows.set_cascadeCount n s) = n.
Proof.
  unfold CascadedShadows.cascadeCount at 1. rewrite set_cascadeCount_cascades.
  rewrite length_app, length_take, length_seq.
  unfold CascadedShadows.cascadeCount. lia.
Qed.

(** The setter keeps the array well formed. *)
Lemma set_cascadeCount_wf (n : nat) (s : CascadedShadows.t) :
  CascadedShadows.wf s -> CascadedShadows.wf (CascadedShadows.set_cascadeCount n s).
Proof.
  intros [Hnd Hin]. unfold CascadedShadows.wf.
  rewrite set_cascadeCount_cascades, set_cascadeCount_store.
  rewrite Forall_forall in Hin. split.
  - apply NoDup_app. split; [|split].
    + eapply sublist_NoDup; [exact Hnd | apply sublist_take].
    + intros l Hl Hl'. apply elem_of_seq in Hl'.
      apply elem_of_take in Hl as (i & Hl & _).
      apply list_elem_of_lookup_2 in Hl. specialize (Hin _ Hl). lia.
    + apply NoDup_seq.
  - rewrite Forall_forall. intros l Hl. rewrite length_app, length_replicate.
    apply elem_of_app in Hl as [Hl|Hl].
    + apply elem_of_take in Hl as (i & Hl & _).
      apply list_elem_of_lookup_2 in Hl. specialize (Hin _ Hl). lia.
    + apply elem_of_seq in Hl. lia.
Qed.

Lemma initial_wf : CascadedShadows.wf CascadedShadows.initial.
Proof. split; [apply NoDup_nil_2 | apply Forall_nil_2]. Qed.

Lemma constructor_wf (options : CascadedShadowsOptions.t) :
  CascadedShadows.wf (CascadedShadows.constructor options).
Proof.
  unfold CascadedShadows.constructor.
  exact (set_cascadeCount_wf _ _ initial_wf).
Qed.

Lemma constructor_cascadeCount (options : CascadedShadowsOptions.t) :
  CascadedShadows.cascadeCount (CascadedShadows.constructor options)
  = default 4%nat (CascadedShadowsOptions.cascadeCount options).
Proof.
  unfold CascadedShadows.constructor.
  exact (set_cascadeCount_cascadeCount _ _).
Qed.

(** With a well-formed array, every index below the count has its object. *)
Lemma cascade_at_is_Some (s : CascadedShadows.t) (i : nat) :
  CascadedShadows.wf s -> (i < CascadedShadows.cascadeCount s)%nat ->
  exists (l : nat) (c : Cascade.t),
    CascadedShadows.cascades s !! i = Some l /\ CascadedShadows.store s !! l = Some c.
Proof.
  intros [_ Hin] Hi. rewrite Forall_forall in Hin.
  destruct (lookup_lt_is_Some_2 _ _ Hi) as [l Hl].
  destruct (lookup_lt_is_Some_2 (CascadedShadows.store s) l) as [c Hc].
  { apply Hin. eapply list_elem_of_lookup_2; eauto. }
  eauto.
Qed.

(** From no cascade to four, down to two and back to four: the first two
    references stay, the last two are new. *)
Example resize_4_2_4 :
  CascadedShadows.cascades
    (CascadedShadows.set_cascadeCount 4
       (CascadedShadows.set_cascadeCount 2
          (CascadedShadows.set_cascadeCount 4 CascadedShadows.initial)))
  = [0; 1; 4; 5]%nat.
Proof. reflexivity. Qed.

(** C5 (as amended).  The [cascadeCount] setter is identity-stable: going
    from M to N cascades, the array ends with N entries; the entries below
    min(M, N) are the same objects as before; no object that existed is
    changed by the resize; every entry from M up to N is a newly created
    object, at an address nothing had before, whose interval is (0, 0) and
    whose six matrices are each the identity (what [new Matrix4()] gives);
    a well-formed array stays well formed.  In particular, going from 4 to 2
    and back to 4 keeps the first two cascades' objects and puts new objects
    at indices 2 and 3. *)
Theorem set_cascadeCount_identity_stable (s : CascadedShadows.t) (N : nat) :
  let M := CascadedShadows.cascadeCount s in
  let s' := CascadedShadows.set_cascadeCount N s in
  let identity := Matrix4.mk 1 0 0 0  0 1 0 0  0 0 1 0  0 0 0 1 in
  CascadedShadows.cascadeCount s' = N
  /\ (forall i : nat, (i < Nat.min M N)%nat ->
        CascadedShadows.cascades s' !! i = CascadedShadows.cascades s !! i)
  /\ (forall (l : nat) (c : Cascade.t),
        CascadedShadows.store s !! l = Some c -> CascadedShadows.store s' !! l = Some c)
  /\ (forall i : nat, (M <= i < N)%nat ->
        exists l : nat,
          CascadedShadows.cascades s' !! i = Some l
          /\ (length (CascadedShadows.store s) <= l)%nat
          /\ CascadedShadows.store s' !! l
             = Some (Cascade.mk (Vector2.mk 0 0) identity identity identity
                       identity identity identity))
  /\ (CascadedShadows.wf s -> CascadedShadows.wf s')
  /\ (M = 4%nat ->
      let s'' := CascadedShadows.set_cascadeCount 4 (CascadedShadows.set_cascadeCount 2 s) in
      (forall i : nat, (i < 2)%nat ->
         CascadedShadows.cascades s'' !! i = CascadedShadows.cascades s !! i)
      /\ (forall (l : nat) (c : Cascade.t),
            CascadedShadows.store s !! l = Some c -> CascadedShadows.store s'' !! l = Some c)
      /\ (forall i : nat, (2 <= i < 4)%nat ->
            exists l : nat,
              CascadedShadows.cascades s'' !! i = Some l
              /\ (length (CascadedShadows.store s) <= l)%nat)).
Proof.
  intros M s' identity. subst M s'.
  assert (Hkeep : forall n t i, (i < Nat.min (CascadedShadows.cascadeCount t) n)%nat ->
            CascadedShadows.cascades (CascadedShadows.set_cascadeCount n t) !! i
            = CascadedShadows.cascades t !! i).
  { intros n t i Hi. rewrite set_cascadeCount_cascades.
    rewrite lookup_app_l by (rewrite length_take; unfold CascadedShadows.cascadeCount in Hi; lia).
    apply lookup_take_lt. lia. }
  assert (Hstore : forall n t l c, CascadedShadows.store t !! l = Some c ->
            CascadedShadows.store (CascadedShadows.set_cascadeCount n t) !! l = Some c).
  { intros n t l c Hl. rewrite set_cascadeCount_store. now apply lookup_app_l_Some. }
  assert (Hnew : forall n t i, (CascadedShadows.cascadeCount t <= i < n)%nat ->
            exists l : nat,
              CascadedShadows.cascades (CascadedShadows.set_cascadeCount n t) !! i = Some l
              /\ (length (CascadedShadows.store t) <= l)%nat
              /\ CascadedShadows.store (CascadedShadows.set_cascadeCount n t) !! l
                 = Some Cascade.fresh).
  { intros n t i Hi. unfold CascadedShadows.cascadeCount in Hi.
    exists (length (CascadedShadows.store t) + (i - length (CascadedShadows.cascades t)))%nat.
    rewrite set_cascadeCount_cascades, set_cascadeCount_store.
    unfold CascadedShadows.cascadeCount.
    rewrite take_ge by lia. split; [|split].
    - rewrite lookup_app_r by lia. apply lookup_seq_lt. lia.
    - lia.
    - rewrite lookup_app_r by lia.
      replace (_ + _ - _)%nat with (i - length (CascadedShadows.cascades t))%nat by lia.
      apply lookup_replicate_2. lia. }
  split; [apply set_cascadeCount_cascadeCount|].
  split; [apply Hkeep|]. split; [apply Hstore|]. split; [apply Hnew|].
  split; [apply set_cascadeCount_wf|].
  intros HM s''. subst s''. split; [|split].
  - intros i Hi. rewrite Hkeep by (rewrite set_cascadeCount_cascadeCount; lia).
    apply Hkeep. lia.
  - intros l c Hl. now apply Hstore, Hstore.
  - intros i Hi.
    destruct (Hnew 4%nat (CascadedShadows.set_cascadeCount 2 s) i) as (l & Hl & Hfresh & _).
    { rewrite set_cascadeCount_cascadeCount. lia. }
    exists l. split; [exact Hl|].
    rewrite set_cascadeCount_store, length_app in Hfresh. lia.
Qed.

(** C5, as stated, fails: the matrices of a newly created cascade are not
    zeroed.  Growing the empty array to one cascade gives an object whose
    projection matrix is the identity. *)
Lemma set_cascadeCount_fresh_not_zeroed :
  exists c : Cascade.t,
    CascadedShadows.cascade_at
      (CascadedShadows.set_cascadeCount 1 CascadedShadows.initial) 0 = Some c
    /\ Cascade.projectionMatrix c = Matrix4.new
    /\ Cascade.projectionMatrix c <> Matrix4.zero.
Proof.
  exists Cascade.fresh. split; [|split].
  - unfold CascadedShadows.cascade_at.
    rewrite set_cascadeCount_cascades, set_cascadeCount_store. reflexivity.
  - reflexivity.
  - simpl. unfold Matrix4.new, Matrix4.zero. intros E. injection E as E. lra.
Qed.

(** ** The fitted radius and the light distance *)

(** C6.  The fitted radius of a sub-frustum is half of a diagonal length:
    the larger of the distance from far corner 0 to far corner 2 and the
    distance from far corner 0 to near corner 2, to which, when [fade] is
    on, 0.25 * t^2 * (far - near) is added first, with
    t = farCorner0.z / (far - near), near = camera.near and
    far = min(this.far, camera.far). *)
Theorem getFrustumRadius_formula (s : CascadedShadows.t)
    (camera : PerspectiveCamera.t) (frustum : FrustumCorners.t) :
  let farCorner0 := FrustumCorners.q0 (FrustumCorners.far frustum) in
  let farCorner2 := FrustumCorners.q2 (FrustumCorners.far frustum) in
  let nearCorner2 := FrustumCorners.q2 (FrustumCorners.near frustum) in
  let diagonal :=
    Rmax (Vector3.distanceTo farCorner0 farCorner2)
         (Vector3.distanceTo farCorner0 nearCorner2) in
  let near := PerspectiveCamera.near camera in
  let far := Rmin (CascadedShadows.far s) (PerspectiveCamera.far camera) in
  let t := Vector3.z farCorner0 / (far - near) in
  CascadedShadows.getFrustumRadius s camera frustum
  = (if CascadedShadows.fade s
     then diagonal + 0.25 * t ^ 2 * (far - near)
     else diagonal) / 2
  /\ Vector3.distanceTo farCorner0 farCorner2
     = sqrt ((Vector3.x farCorner0 - Vector3.x farCorner2) ^ 2
             + (Vector3.y farCorner0 - Vector3.y farCorner2) ^ 2
             + (Vector3.z farCorner0 - Vector3.z farCorner2) ^ 2)
  /\ Vector3.distanceTo farCorner0 nearCorner2
     = sqrt ((Vector3.x farCorner0 - Vector3.x nearCorner2) ^ 2
             + (Vector3.y farCorner0 - Vector3.y nearCorner2) ^ 2
             + (Vector3.z farCorner0 - Vector3.z nearCorner2) ^ 2).
Proof.
  cbv zeta. split; [|split].
  - unfold CascadedShadows.getFrustumRadius, Math.max, Math.min. cbn [FrustumCorners.get].
    destruct (CascadedShadows.fade s); simpl; lra.
  - unfold Vector3.distanceTo, Vector3.distanceToSquared. f_equal. ring.
  - unfold Vector3.distanceTo, Vector3.distanceToSquared. f_equal. ring.
Qed.

(** The light's distance to the target, as a linear function of the dot
    product of the sun direction and the surface normal at the camera
    position. *)
Lemma lightDistance_linear (camera : PerspectiveCamera.t)
    (sunDirection : Vector3.t) (ellipsoid : Ellipsoid.t) :
  CascadedShadows.lightDistance camera sunDirection ellipsoid
  = 1000000 + (1000 - 1000000)
              * Vector3.dot sunDirection
                  (Ellipsoid.getSurfaceNormal ellipsoid
                     (PerspectiveCamera.getWorldPosition camera)).
Proof.
  unfold CascadedShadows.lightDistance, lerp.
  set (d := Vector3.dot _ _). lra.
Qed.

(** ** The fields of an updated cascade *)

Lemma at_index_pred {A} (a : list A) (i : nat) :
  at_index a (Z.of_nat i - 1) = match i with 0%nat => None | S j => a !! j end.
Proof.
  unfold at_index. destruct i as [|j].
  - now rewrite decide_False by lia.
  - rewrite decide_True by lia. f_equal. lia.
Qed.

Lemma at_index_nat {A} (a : list A) (i : nat) : at_index a (Z.of_nat i) = a !! i.
Proof. unfold at_index. rewrite decide_True by lia. f_equal. lia. Qed.

Section UpdatedCascade.

Context `{Helpers}.

Variables (s : CascadedShadows.t) (camera : PerspectiveCamera.t)
  (sunDirection : Vector3.t) (ellipsoid : option Ellipsoid.t).

Lemma updatedCascade_interval (i : nat) (c : Cascade.t) :
  Cascade.interval (updatedCascade s camera sunDirection ellipsoid i c)
  = Vector2.mk
      (match i with 0%nat => 0 | S j => default 0 (newSplits s camera !! j) end)
      (default 0 (newSplits s camera !! i)).
Proof.
  unfold updatedCascade, CascadedShadows.deriveMatrices, CascadedShadows.placeLight,
    CascadedShadows.fitProjection.
  destruct (CascadedShadows.frusta _ !! i); cbn;
    rewrite at_index_pred, at_index_nat; now destruct i.
Qed.

Lemma updatedCascade_projectionMatrix (i : nat) (c : Cascade.t) (frustum : FrustumCorners.t) :
  newFrusta s camera !! i = Some frustum ->
  Cascade.projectionMatrix (updatedCascade s camera sunDirection ellipsoid i c)
  = let radius := CascadedShadows.getFrustumRadius s camera frustum in
    Matrix4.makeOrthographic (- radius) radius radius (- radius)
      (- CascadedShadows.margin s) (radius * 2 + CascadedShadows.margin s).
Proof.
  intros Hf.
  unfold updatedCascade, CascadedShadows.deriveMatrices, CascadedShadows.placeLight,
    CascadedShadows.fitProjection.
  change (CascadedShadows.frusta (CascadedShadows.updateIntervals s camera))
    with (newFrusta s camera).
  rewrite Hf. reflexivity.
Qed.

(** The light target reads the cascade through its projection matrix only. *)
Lemma lightTarget_ext (s1 s2 : CascadedShadows.t) (frustum : FrustumCorners.t)
    (c1 c2 : Cascade.t) :
  CascadedShadows.margin s1 = CascadedShadows.margin s2 ->
  CascadedShadows.cascadeSize s1 = CascadedShadows.cascadeSize s2 ->
  Cascade.projectionMatrix c1 = Cascade.projectionMatrix c2 ->
  CascadedShadows.lightTarget s1 camera sunDirection frustum c1
  = CascadedShadows.lightTarget s2 camera sunDirection frustum c2.
Proof.
  intros Hm Hs Hp. unfold CascadedShadows.lightTarget. now rewrite Hm, Hs, Hp.
Qed.

Lemma updatedCascade_inverseViewMatrix (i : nat) (c : Cascade.t) (frustum : FrustumCorners.t) :
  newFrusta s camera !! i = Some frustum ->
  let c' := updatedCascade s camera sunDirection ellipsoid i c in
  let target := CascadedShadows.lightTarget s camera sunDirection frustum c' in
  let position :=
    CascadedShadows.lightPosition sunDirection
      (CascadedShadows.lightDistance camera sunDirection (default WGS84 ellipsoid))
      target in
  Cascade.inverseViewMatrix c'
  = Matrix4.setPosition
      (Matrix4.lookAt (Cascade.inverseViewMatrix c) target position DEFAULT_UP)
      position.
Proof.
  intros Hf c' target position. subst c' target position.
  unfold updatedCascade, CascadedShadows.deriveMatrices, CascadedShadows.placeLight,
    CascadedShadows.fitProjection.
  change (CascadedShadows.frusta (CascadedShadows.updateIntervals s camera))
    with (newFrusta s camera).
  rewrite Hf. reflexivity.
Qed.

Lemma updatedCascade_derived (i : nat) (c : Cascade.t) :
  let c' := updatedCascade s camera sunDirection ellipsoid i c in
  Cascade.inverseProjectionMatrix c' = Matrix4.invert (Cascade.projectionMatrix c')
  /\ Cascade.viewMatrix c' = Matrix4.invert (Cascade.inverseViewMatrix c')
  /\ Cascade.matrix c'
     = Matrix4.multiplyMatrices (Cascade.projectionMatrix c') (Cascade.viewMatrix c')
  /\ Cascade.inverseMatrix c'
     = Matrix4.multiplyMatrices (Cascade.inverseViewMatrix c')
         (Cascade.inverseProjectionMatrix c').
Proof. repeat split. Qed.

(** [update] on a well-formed array: it returns, the array stays well
    formed, and every index has its updated cascade. *)
Lemma update_cascades :
  CascadedShadows.wf s ->
  exists s' : CascadedShadows.t,
    CascadedShadows.update s camera sunDirection ellipsoid = CascadedShadows.Returned s'
    /\ CascadedShadows.wf s'
    /\ CascadedShadows.cascadeCount s' = CascadedShadows.cascadeCount s
    /\ CascadedShadows.cascadeSize s' = CascadedShadows.cascadeSize s
    /\ CascadedShadows.far s' = CascadedShadows.far s
    /\ CascadedShadows.mode s' = CascadedShadows.mode s
    /\ CascadedShadows.lambda s' = CascadedShadows.lambda s
    /\ CascadedShadows.margin s' = CascadedShadows.margin s
    /\ CascadedShadows.fade s' = CascadedShadows.fade s
    /\ CascadedShadows.frusta s' = newFrusta s camera
    /\ CascadedShadows.splits s' = newSplits s camera
    /\ (forall i : nat, (i < CascadedShadows.cascadeCount s)%nat ->
          exists c : Cascade.t,
            CascadedShadows.cascade_at s i = Some c
            /\ CascadedShadows.cascade_at s' i
               = Some (updatedCascade s camera sunDirection ellipsoid i c)).
Proof.
  intros Hwf. pose proof Hwf as [Hnd Hin].
  destruct (update_spec s camera sunDirection ellipsoid Hnd)
    as (s' & Hup & Hcs & Hsz & Hfar & Hmode & Hlam & Hmar & Hfade & Hfr & Hsp & Hlen & Hhit & _).
  exists s'. split; [exact Hup|].
  split; [unfold CascadedShadows.wf; now rewrite Hcs, Hlen|].
  split; [unfold CascadedShadows.cascadeCount; now rewrite Hcs|].
  repeat (split; [assumption|]).
  intros i Hi.
  destruct (cascade_at_is_Some s i Hwf Hi) as (l & c & Hl & Hc).
  exists c. unfold CascadedShadows.cascade_at. rewrite Hcs, Hl. cbn.
  split; [exact Hc|]. rewrite (Hhit i l Hl), Hc. reflexivity.
Qed.

End UpdatedCascade.

(** ** Orthographic bounds and texel snapping *)

Lemma extractOrthographicTuple_makeOrthographic (l r t b n f : R) :
  r <> l -> t <> b ->
  extractOrthographicTuple (Matrix4.makeOrthographic l r t b n f) = (l, r, t, b).
Proof.
  intros Hrl Htb. unfold extractOrthographicTuple, Matrix4.makeOrthographic.
  cbn [Matrix4.e0 Matrix4.e12 Matrix4.e5 Matrix4.e13].
  repeat f_equal; field; lra.
Qed.

(** [Math.round] picks an integer at most one half away. *)
Lemma round_nearest (x : R) :
  exists k : Z, Math.round x = IZR k /\ - / 2 < Math.round x - x <= / 2.
Proof.
  unfold Math.round. exists (Int_part (x + / 2)). split; [reflexivity|].
  destruct (base_Int_part (x + / 2)) as [Hle Hgt]. lra.
Qed.

Lemma round_eq (x : R) (k : Z) : IZR k - / 2 <= x < IZR k + / 2 -> Math.round x = IZR k.
Proof.
  intros Hx. unfold Math.round. f_equal. symmetry. apply Int_part_spec. lra.
Qed.

(** Snapping a coordinate to the grid of step [w]: a whole multiple of [w]
    at most half a step away. *)
Lemma snap_nearest (x w : R) :
  w <> 0 ->
  exists k : Z,
    Math.round (x / w) * w = IZR k * w
    /\ Rabs (Math.round (x / w) * w - x) <= Rabs w / 2.
Proof.
  intros Hw. destruct (round_nearest (x / w)) as (k & Hk & Hlo & Hhi).
  exists k. split; [now rewrite Hk|].
  replace (Math.round (x / w) * w - x) with ((Math.round (x / w) - x / w) * w)
    by (field; exact Hw).
  rewrite Rabs_mult.
  assert (Rabs (Math.round (x / w) - x / w) <= / 2)
    by (apply Rabs_le; lra).
  pose proof (Rabs_pos w). nra.
Qed.

(** The box of a frustum holds a point, and its [max] bounds every corner
    in z. *)
Ltac name_Rmax :=
  repeat match goal with
  | |- context [Rmax ?a ?b] =>
      lazymatch a with
      | context [Rmax _ _] => fail
      | _ => lazymatch b with
             | context [Rmax _ _] => fail
             | _ => pose proof (Rmax_l a b); pose proof (Rmax_r a b);
                    generalize dependent (Rmax a b); intros
             end
      end
  end.

Lemma frustumBox_max_z (f : FrustumCorners.t) (j : nat) :
  Vector3.z (FrustumCorners.get (FrustumCorners.near f) j)
    <= Vector3.z (Box3.max (CascadedShadows.frustumBox f))
  /\ Vector3.z (FrustumCorners.get (FrustumCorners.far f) j)
    <= Vector3.z (Box3.max (CascadedShadows.frustumBox f)).
Proof.
  unfold CascadedShadows.frustumBox, for_range. simpl.
  unfold Math.max.
  destruct j as [|[|[|j]]]; simpl; name_Rmax; lra.
Qed.

Lemma getFrustumRadius_ext (s1 s2 : CascadedShadows.t)
    (camera : PerspectiveCamera.t) (frustum : FrustumCorners.t) :
  CascadedShadows.fade s1 = CascadedShadows.fade s2 ->
  CascadedShadows.far s1 = CascadedShadows.far s2 ->
  CascadedShadows.getFrustumRadius s1 camera frustum
  = CascadedShadows.getFrustumRadius s2 camera frustum.
Proof. intros Hf Hr. unfold CascadedShadows.getFrustumRadius. now rewrite Hf, Hr. Qed.

Section UpdateClaims.

Context `{Helpers}.

Variables (s : CascadedShadows.t) (camera : PerspectiveCamera.t)
  (sunDirection : Vector3.t) (ellipsoid : option Ellipsoid.t).

(** With lists of equal length, the two middle steps return. *)
Lemma updateProjectionMatrix_returns (s0 : CascadedShadows.t) :
  length (CascadedShadows.frusta s0) = length (CascadedShadows.cascades s0) ->
  exists s2 : CascadedShadows.t,
    CascadedShadows.updateProjectionMatrix s0 camera = CascadedShadows.Returned s2
    /\ CascadedShadows.frusta s2 = CascadedShadows.frusta s0
    /\ CascadedShadows.cascades s2 = CascadedShadows.cascades s0.
Proof.
  intros Hlen. unfold CascadedShadows.updateProjectionMatrix.
  rewrite decide_True by exact Hlen. eauto.
Qed.

Lemma updateInverseViewMatrix_returns (s0 : CascadedShadows.t) :
  length (CascadedShadows.frusta s0) = length (CascadedShadows.cascades s0) ->
  exists s3 : CascadedShadows.t,
    CascadedShadows.updateInverseViewMatrix s0 camera sunDirection ellipsoid
    = CascadedShadows.Returned s3.
Proof.
  intros Hlen. unfold CascadedShadows.updateInverseViewMatrix.
  rewrite decide_True by exact Hlen. eauto.
Qed.

Lemma updateIntervals_lengths :
  length (CascadedShadows.frusta (CascadedShadows.updateIntervals s camera))
  = length (CascadedShadows.cascades (CascadedShadows.updateIntervals s camera)).
Proof. exact (newFrusta_length s camera). Qed.

(** The invariants of [update]'s middle steps hold whatever the state. *)
Lemma update_steps_return :
  exists s2 s3 s' : CascadedShadows.t,
    CascadedShadows.updateProjectionMatrix (CascadedShadows.updateIntervals s camera) camera
    = CascadedShadows.Returned s2
    /\ CascadedShadows.updateInverseViewMatrix s2 camera sunDirection ellipsoid
       = CascadedShadows.Returned s3
    /\ CascadedShadows.update s camera sunDirection ellipsoid = CascadedShadows.Returned s'.
Proof.
  destruct (updateProjectionMatrix_returns _ updateIntervals_lengths)
    as (s2 & H2 & Hf2 & Hc2).
  destruct (updateInverseViewMatrix_returns s2) as (s3 & H3).
  { rewrite Hf2, Hc2. apply updateIntervals_lengths. }
  exists s2, s3. eexists. split; [exact H2|]. split; [exact H3|].
  unfold CascadedShadows.update, CascadedShadows.bind. rewrite H2, H3. reflexivity.
Qed.

(** The interval of each cascade after [update], by its split distances. *)
Lemma update_intervals :
  CascadedShadows.wf s ->
  exists s' : CascadedShadows.t,
    CascadedShadows.update s camera sunDirection ellipsoid = CascadedShadows.Returned s'
    /\ CascadedShadows.wf s'
    /\ CascadedShadows.cascadeCount s' = CascadedShadows.cascadeCount s
    /\ CascadedShadows.far s' = CascadedShadows.far s
    /\ CascadedShadows.mode s' = CascadedShadows.mode s
    /\ CascadedShadows.lambda s' = CascadedShadows.lambda s
    /\ (forall i : nat, (i < CascadedShadows.cascadeCount s)%nat ->
          exists c : Cascade.t,
            CascadedShadows.cascade_at s' i = Some c
            /\ Cascade.interval c
               = let at_ :=
                   splitAt (CascadedShadows.mode s) (CascadedShadows.cascadeCount s)
                     (PerspectiveCamera.near camera) (shadowFar s camera)
                     (CascadedShadows.lambda s) in
                 Vector2.mk (match i with 0%nat => 0 | S _ => at_ i end) (at_ (S i))).
Proof.
  intros Hwf.
  destruct (update_cascades s camera sunDirection ellipsoid Hwf)
    as (s' & Hup & Hwf' & Hn & _ & Hfar & Hmode & Hlam & _ & _ & _ & _ & Hat).
  exists s'. repeat (split; [assumption|]).
  intros i Hi. destruct (Hat i Hi) as (c & _ & Hc).
  eexists. split; [exact Hc|].
  rewrite updatedCascade_interval. unfold newSplits.
  rewrite splitFrustum_lookup by done. cbn [default].
  destruct i as [|j]; [reflexivity|].
  rewrite splitFrustum_lookup by lia. reflexivity.
Qed.

End UpdateClaims.

Lemma cascade_at_lt (s : CascadedShadows.t) (i : nat) (c : Cascade.t) :
  CascadedShadows.cascade_at s i = Some c -> (i < CascadedShadows.cascadeCount s)%nat.
Proof.
  unfold CascadedShadows.cascade_at, CascadedShadows.cascadeCount. intros Hc.
  destruct (CascadedShadows.cascades s !! i) as [l|] eqn:El; [|discriminate].
  eapply lookup_lt_Some; eauto.
Qed.

(** ** The look-at rotation is a rotation *)

Lemma normalize_unit (v : Vector3.t) :
  Vector3.lengthSq v <> 0 -> Vector3.lengthSq (Vector3.normalize v) = 1.
Proof.
  intros Hv. unfold Vector3.normalize, Vector3.length.
  assert (Hpos : 0 < Vector3.lengthSq v).
  { unfold Vector3.lengthSq in *. nra. }
  pose proof (sqrt_lt_R0 _ Hpos) as Hs.
  pose proof (sqrt_sqrt (Vector3.lengthSq v) ltac:(lra)) as Hss.
  destruct (Req_dec_T (sqrt (Vector3.lengthSq v)) 0) as [E|_]; [lra|].
  set (l := sqrt (Vector3.lengthSq v)) in *.
  unfold Vector3.multiplyScalar, Vector3.lengthSq in *.
  cbn [Vector3.x Vector3.y Vector3.z].
  replace (Vector3.x v * (1 / l) * (Vector3.x v * (1 / l))
           + Vector3.y v * (1 / l) * (Vector3.y v * (1 / l))
           + Vector3.z v * (1 / l) * (Vector3.z v * (1 / l)))
    with ((Vector3.x v * Vector3.x v + Vector3.y v * Vector3.y v
           + Vector3.z v * Vector3.z v) / (l * l))
    by (field; lra).
  rewrite Hss. field. lra.
Qed.

(** Whatever the eye and the target, [lookAt] with the default up vector
    builds its rotation on a unit axis that is not parallel to up. *)
Lemma lookAt_basis (m : Matrix4.t) (eye target : Vector3.t) :
  exists z : Vector3.t,
    Vector3.lengthSq z = 1
    /\ Vector3.lengthSq (Vector3.crossVectors DEFAULT_UP z) <> 0
    /\ Matrix4.lookAt m eye target DEFAULT_UP = lookAtBasis m z.
Proof.
  unfold Matrix4.lookAt. cbv zeta.
  set (z0 := Vector3.subVectors eye target).
  set (z1 := if Req_dec_T (Vector3.lengthSq z0) 0 then Vector3.setZ z0 1 else z0).
  assert (Hz1 : Vector3.lengthSq z1 <> 0).
  { subst z1. destruct (Req_dec_T (Vector3.lengthSq z0) 0) as [E|E]; [|exact E].
    unfold Vector3.lengthSq, Vector3.setZ in *. cbn [Vector3.x Vector3.y Vector3.z].
    nra. }
  pose proof (normalize_unit z1 Hz1) as Hunit.
  set (z2 := Vector3.normalize z1) in *.
  destruct (Req_dec_T (Vector3.lengthSq (Vector3.crossVectors DEFAULT_UP z2)) 0)
    as [Hpar|Hnpar].
  - assert (Hup : Math.abs (Vector3.z DEFAULT_UP) <> 1).
    { unfold Math.abs, DEFAULT_UP. cbn [Vector3.z]. rewrite Rabs_R0. lra. }
    destruct (Req_dec_T (Math.abs (Vector3.z DEFAULT_UP)) 1) as [E|_]; [contradiction|].
    set (z' := Vector3.setZ z2 (Vector3.z z2 + 0.0001)).
    assert (Hxz : Vector3.x z2 = 0 /\ Vector3.z z2 = 0).
    { unfold Vector3.lengthSq, Vector3.crossVectors, DEFAULT_UP in Hpar.
      cbn [Vector3.x Vector3.y Vector3.z] in Hpar. split; nra. }
    destruct Hxz as [Hx Hz].
    assert (Hz' : Vector3.lengthSq z' <> 0).
    { subst z'. unfold Vector3.lengthSq, Vector3.setZ.
      cbn [Vector3.x Vector3.y Vector3.z]. rewrite Hx, Hz. nra. }
    exists (Vector3.normalize z'). split; [now apply normalize_unit|].
    split; [|reflexivity].
    unfold Vector3.normalize, Vector3.length.
    assert (Hpos : 0 < Vector3.lengthSq z') by (unfold Vector3.lengthSq in *; nra).
    pose proof (sqrt_lt_R0 _ Hpos) as Hs.
    destruct (Req_dec_T (sqrt (Vector3.lengthSq z')) 0) as [E|_]; [lra|].
    set (l := sqrt (Vector3.lengthSq z')) in *.
    assert (Hinv : 0 < 1 / l) by (apply Rdiv_lt_0_compat; lra).
    subst z'. unfold Vector3.lengthSq, Vector3.crossVectors, DEFAULT_UP,
      Vector3.multiplyScalar, Vector3.setZ.
    cbn [Vector3.x Vector3.y Vector3.z]. rewrite Hx, Hz. nra.
  - exists z2. split; [exact Hunit|]. split; [exact Hnpar|reflexivity].
Qed.

(** On a unit axis not parallel to up, the look-at columns are orthonormal
    and right-handed: the determinant is that of the last row. *)
Lemma lookAtBasis_determinant (m : Matrix4.t) (z p : Vector3.t) :
  affine m ->
  Vector3.lengthSq z = 1 ->
  Vector3.lengthSq (Vector3.crossVectors DEFAULT_UP z) <> 0 ->
  Matrix4.determinant (Matrix4.setPosition (lookAtBasis m z) p) = 1.
Proof.
  intros (H3 & H7 & H11 & H15) Hz Hx.
  unfold lookAtBasis, Vector3.normalize, Vector3.length. cbv zeta.
  set (X := Vector3.crossVectors DEFAULT_UP z) in *.
  assert (Hpos : 0 < Vector3.lengthSq X) by (unfold Vector3.lengthSq in *; nra).
  pose proof (sqrt_lt_R0 _ Hpos) as Hs.
  pose proof (sqrt_sqrt (Vector3.lengthSq X) ltac:(lra)) as Hss.
  destruct (Req_dec_T (sqrt (Vector3.lengthSq X)) 0) as [E|_]; [lra|].
  set (l := sqrt (Vector3.lengthSq X)) in *.
  assert (Hk : (1 / l) * (1 / l) * Vector3.lengthSq X = 1).
  { rewrite <- Hss. field. lra. }
  generalize dependent (1 / l). intros k Hk.
  subst X. destruct z as [a b c].
  unfold Matrix4.determinant, Matrix4.setPosition, Vector3.crossVectors,
    Vector3.multiplyScalar, Vector3.lengthSq, DEFAULT_UP in *.
  cbn [Vector3.x Vector3.y Vector3.z Matrix4.e0 Matrix4.e1 Matrix4.e2 Matrix4.e3
       Matrix4.e4 Matrix4.e5 Matrix4.e6 Matrix4.e7 Matrix4.e8 Matrix4.e9
       Matrix4.e10 Matrix4.e11 Matrix4.e12 Matrix4.e13 Matrix4.e14 Matrix4.e15] in *.
  rewrite H3, H7, H11, H15.
  transitivity
    (k * k * ((1 * c - 0 * b) * (1 * c - 0 * b) + (0 * a - 0 * c) * (0 * a - 0 * c)
              + (0 * b - 1 * a) * (0 * b - 1 * a))
     * (a * a + b * b + c * c)).
  - ring.
  - rewrite Hk, Hz. ring.
Qed.

Lemma Matrix4_invert_left (m : Matrix4.t) :
  Matrix4.determinant m <> 0 ->
  Matrix4.multiplyMatrices (Matrix4.invert m) m = Matrix4.new.
Proof.
  intros Hdet. destruct m.
  unfold Matrix4.invert, Matrix4.determinant in *.
  cbn [Matrix4.e0 Matrix4.e1 Matrix4.e2 Matrix4.e3 Matrix4.e4 Matrix4.e5
       Matrix4.e6 Matrix4.e7 Matrix4.e8 Matrix4.e9 Matrix4.e10 Matrix4.e11
       Matrix4.e12 Matrix4.e13 Matrix4.e14 Matrix4.e15] in *.
  cbv zeta in *.
  destruct (Req_dec_T _ 0) as [E|_]; [contradiction|].
  unfold Matrix4.multiplyMatrices, Matrix4.new; cbn.
  f_equal; field; exact Hdet.
Qed.

Lemma lookAtBasis_affine (m : Matrix4.t) (z p : Vector3.t) :
  affine m -> affine (Matrix4.setPosition (lookAtBasis m z) p).
Proof. intros Hm. exact Hm. Qed.

(** The matrix the light is given: affine, of determinant 1, and so
    inverted by [invert] for good. *)
Lemma light_matrix_invertible (m : Matrix4.t) (eye target p : Vector3.t) :
  affine m ->
  let ivm := Matrix4.setPosition (Matrix4.lookAt m eye target DEFAULT_UP) p in
  affine ivm
  /\ Matrix4.determinant ivm = 1
  /\ Matrix4.multiplyMatrices ivm (Matrix4.invert ivm) = Matrix4.new
  /\ Matrix4.multiplyMatrices (Matrix4.invert ivm) ivm = Matrix4.new.
Proof.
  intros Hm ivm. subst ivm.
  destruct (lookAt_basis m eye target) as (z & Hz & Hx & ->).
  pose proof (lookAtBasis_determinant m z p Hm Hz Hx) as Hdet.
  split; [now apply lookAtBasis_affine|]. split; [exact Hdet|].
  split; [apply Matrix4_invert_right | apply Matrix4_invert_left]; rewrite Hdet; lra.
Qed.

(** ** The states the object goes through *)

(** The objects of the array after a resize: the old ones where they were,
    and new ones. *)
Lemma cascade_at_set_cascadeCount (n : nat) (s : CascadedShadows.t) (i : nat) (c : Cascade.t) :
  CascadedShadows.wf s ->
  CascadedShadows.cascade_at (CascadedShadows.set_cascadeCount n s) i = Some c ->
  CascadedShadows.cascade_at s i = Some c \/ c = Cascade.fresh.
Proof.
  intros [_ Hin] Hc. rewrite Forall_forall in Hin.
  unfold CascadedShadows.cascade_at in *.
  rewrite set_cascadeCount_cascades, set_cascadeCount_store in Hc.
  destruct ((take n (CascadedShadows.cascades s)
             ++ seq (length (CascadedShadows.store s))
                  (n - CascadedShadows.cascadeCount s)) !! i) as [l|] eqn:El;
    [|discriminate].
  cbn in Hc. apply lookup_app_Some in El as [El|[_ El]].
  - apply lookup_take_Some in El as [El _]. left. rewrite El. cbn.
    rewrite lookup_app_l in Hc; [exact Hc|].
    apply Hin. eapply list_elem_of_lookup_2; eauto.
  - right. apply lookup_seq in El as [-> Hlt].
    rewrite lookup_app_r in Hc by lia.
    apply lookup_replicate in Hc as [-> _]. reflexivity.
Qed.

Lemma fresh_affine : affine (Cascade.inverseViewMatrix Cascade.fresh).
Proof. repeat split. Qed.

Section Reachable.

Context `{Helpers}.

Lemma updatedCascade_affine (s : CascadedShadows.t) (camera : PerspectiveCamera.t)
    (sunDirection : Vector3.t) (ellipsoid : option Ellipsoid.t) (i : nat) (c : Cascade.t) :
  affine (Cascade.inverseViewMatrix c) ->
  affine (Cascade.inverseViewMatrix (updatedCascade s camera sunDirection ellipsoid i c)).
Proof.
  intros Hc.
  unfold updatedCascade, CascadedShadows.deriveMatrices, CascadedShadows.placeLight,
    CascadedShadows.fitProjection.
  destruct (CascadedShadows.frusta _ !! i) as [frustum|]; cbn; [|exact Hc].
  now apply light_matrix_invertible.
Qed.

(** Every state the object goes through keeps its array well formed and
    the light matrices of its cascades affine. *)
Lemma reachable_consistent (s : CascadedShadows.t) :
  reachable s -> consistent s.
Proof.
  induction 1 as [options|v s _ [Hwf Haff]|v s _ IH|v s _ IH|v s _ IH|v s _ IH
                  |v s _ IH|v s _ IH|s camera sunDirection ellipsoid s' _ [Hwf Haff] Hup];
    try exact IH.
  - split; [apply constructor_wf|].
    intros i c Hc.
    change (CascadedShadows.cascade_at
              (CascadedShadows.set_cascadeCount
                 (default (default 0%nat (Some 4%nat))
                    (CascadedShadowsOptions.cascadeCount options))
                 CascadedShadows.initial) i = Some c) in Hc.
    apply cascade_at_set_cascadeCount in Hc as [Hc| ->];
      [|apply fresh_affine|apply initial_wf].
    unfold CascadedShadows.cascade_at, CascadedShadows.initial in Hc.
    cbn [CascadedShadows.cascades] in Hc. now rewrite lookup_nil in Hc.
  - split; [now apply set_cascadeCount_wf|].
    intros i c Hc. apply cascade_at_set_cascadeCount in Hc as [Hc| ->]; eauto.
    apply fresh_affine.
  - destruct (update_cascades s camera sunDirection ellipsoid Hwf)
      as (s'' & Hup' & Hwf' & Hn & _ & _ & _ & _ & _ & _ & _ & _ & Hat).
    assert (s'' = s') by congruence. subst s''.
    split; [exact Hwf'|].
    intros i c Hc. pose proof (cascade_at_lt _ _ _ Hc) as Hi. rewrite Hn in Hi.
    destruct (Hat i Hi) as (c0 & Hc0 & Hc').
    assert (c = updatedCascade s camera sunDirection ellipsoid i c0) by congruence.
    subst c. apply updatedCascade_affine. eauto.
Qed.

End Reachable.

(** ** The claims about [update] *)

Section Claims.

Context `{Helpers}.

(** C2 (as amended).  After [update] the cascades' intervals are ordered
    near to far and do not overlap, each interval's far end is the next
    one's near end, the first interval starts at 0 and the last one ends at
    min(this.far, camera.far): together they cover
    [0, min(this.far, camera.far)].  (This is for at least one cascade,
    0 < camera.near < min(this.far, camera.far) and, in the practical mode,
    lambda in [0, 1].) *)
Theorem update_intervals_chain (s : CascadedShadows.t) (camera : PerspectiveCamera.t)
    (sunDirection : Vector3.t) (ellipsoid : option Ellipsoid.t) :
  CascadedShadows.wf s ->
  (1 <= CascadedShadows.cascadeCount s)%nat ->
  0 < PerspectiveCamera.near camera
    < Rmin (CascadedShadows.far s) (PerspectiveCamera.far camera) ->
  (CascadedShadows.mode s = practical -> 0 <= CascadedShadows.lambda s <= 1) ->
  exists s' : CascadedShadows.t,
    CascadedShadows.update s camera sunDirection ellipsoid = CascadedShadows.Returned s'
    /\ CascadedShadows.cascadeCount s' = CascadedShadows.cascadeCount s
    /\ (forall i : nat, (i < CascadedShadows.cascadeCount s')%nat ->
          exists c : Cascade.t,
            CascadedShadows.cascade_at s' i = Some c
            /\ Vector2.x (Cascade.interval c) < Vector2.y (Cascade.interval c))
    /\ (forall (i : nat) (c c' : Cascade.t),
          CascadedShadows.cascade_at s' i = Some c ->
          CascadedShadows.cascade_at s' (S i) = Some c' ->
          Vector2.y (Cascade.interval c) = Vector2.x (Cascade.interval c'))
    /\ (forall (i j : nat) (c c' : Cascade.t),
          (i < j)%nat ->
          CascadedShadows.cascade_at s' i = Some c ->
          CascadedShadows.cascade_at s' j = Some c' ->
          Vector2.y (Cascade.interval c) <= Vector2.x (Cascade.interval c'))
    /\ (forall c : Cascade.t,
          CascadedShadows.cascade_at s' 0 = Some c ->
          Vector2.x (Cascade.interval c) = 0)
    /\ (forall c : Cascade.t,
          CascadedShadows.cascade_at s' (CascadedShadows.cascadeCount s' - 1) = Some c ->
          Vector2.y (Cascade.interval c)
          = Rmin (CascadedShadows.far s') (PerspectiveCamera.far camera)).
Proof.
  intros Hwf HN Hnf Hl.
  destruct (update_intervals s camera sunDirection ellipsoid Hwf)
    as (s' & Hup & _ & Hn & Hfar & _ & _ & Hat).
  exists s'. split; [exact Hup|]. split; [exact Hn|].
  rewrite Hn, Hfar.
  set (N := CascadedShadows.cascadeCount s) in *.
  set (at_ := splitAt (CascadedShadows.mode s) N (PerspectiveCamera.near camera)
                (shadowFar s camera) (CascadedShadows.lambda s)) in *.
  change (Rmin (CascadedShadows.far s) (PerspectiveCamera.far camera))
    with (shadowFar s camera) in *.
  assert (Hlt : forall i j : nat, (i < j)%nat -> at_ i < at_ j)
    by (intros; apply splitAt_lt; auto).
  assert (H0 : at_ 0%nat = PerspectiveCamera.near camera)
    by (apply splitAt_0; auto).
  assert (Hlast : at_ N = shadowFar s camera)
    by (apply splitAt_last; auto).
  assert (Hint : forall i c, CascadedShadows.cascade_at s' i = Some c ->
            (i < N)%nat
            /\ Cascade.interval c
               = Vector2.mk (match i with 0%nat => 0 | S _ => at_ i end) (at_ (S i))).
  { intros i c Hc. pose proof (cascade_at_lt _ _ _ Hc) as Hi. rewrite Hn in Hi.
    split; [exact Hi|]. destruct (Hat i Hi) as (c0 & Hc0 & Hi0). congruence. }
  split; [|split; [|split; [|split]]].
  - intros i Hi. destruct (Hat i Hi) as (c & Hc & Hic). exists c. split; [exact Hc|].
    rewrite Hic. cbn. destruct i as [|i].
    + pose proof (Hlt 0%nat 1%nat ltac:(lia)). lra.
    + apply Hlt. lia.
  - intros i c c' Hc Hc'.
    apply Hint in Hc as [_ ->]. apply Hint in Hc' as [_ ->]. reflexivity.
  - intros i j c c' Hij Hc Hc'.
    apply Hint in Hc as [_ ->]. apply Hint in Hc' as [_ ->]. cbn.
    destruct j as [|j]; [lia|].
    destruct (decide (i = j)) as [->|Hne]; [lra|].
    left. apply Hlt. lia.
  - intros c Hc. apply Hint in Hc as [_ ->]. reflexivity.
  - intros c Hc. apply Hint in Hc as [_ ->]. cbn.
    replace (S (N - 1)) with N by lia. exact Hlast.
Qed.

(** C8.  After [update], the projection matrix of every cascade is the
    orthographic projection with left = -radius, right = radius,
    top = radius, bottom = -radius, near = -margin and
    far = 2 * radius + margin, where radius is the fitted radius of the
    cascade's sub-frustum and margin the configured margin. *)
Theorem update_projectionMatrix (s : CascadedShadows.t) (camera : PerspectiveCamera.t)
    (sunDirection : Vector3.t) (ellipsoid : option Ellipsoid.t) :
  CascadedShadows.wf s ->
  exists s' : CascadedShadows.t,
    CascadedShadows.update s camera sunDirection ellipsoid = CascadedShadows.Returned s'
    /\ CascadedShadows.cascadeCount s' = CascadedShadows.cascadeCount s
    /\ CascadedShadows.margin s' = CascadedShadows.margin s
    /\ (forall i : nat, (i < CascadedShadows.cascadeCount s')%nat ->
          exists (c : Cascade.t) (frustum : FrustumCorners.t),
            CascadedShadows.cascade_at s' i = Some c
            /\ CascadedShadows.frusta s' !! i = Some frustum
            /\ let radius := CascadedShadows.getFrustumRadius s' camera frustum in
               let margin := CascadedShadows.margin s' in
               Cascade.projectionMatrix c
               = Matrix4.makeOrthographic (- radius) radius radius (- radius)
                   (- margin) (2 * radius + margin)).
Proof.
  intros Hwf.
  destruct (update_cascades s camera sunDirection ellipsoid Hwf)
    as (s' & Hup & _ & Hn & _ & Hfar & _ & _ & Hmar & Hfade & Hfr & _ & Hat).
  exists s'. repeat (split; [assumption|]).
  intros i Hi. rewrite Hn in Hi. destruct (Hat i Hi) as (c & _ & Hc).
  destruct (lookup_lt_is_Some_2 (newFrusta s camera) i) as [frustum Hf].
  { now rewrite newFrusta_length. }
  eexists _, frustum. split; [exact Hc|]. split; [now rewrite Hfr|].
  rewrite (updatedCascade_projectionMatrix _ _ _ _ _ _ _ Hf). cbv zeta.
  rewrite (getFrustumRadius_ext s' s) by assumption. rewrite Hmar.
  f_equal; ring.
Qed.

(** C9.  Within [update], once [updateIntervals] has run the list of
    sub-frusta and the list of cascades have the same length, whatever the
    state before; so the length checks of [updateProjectionMatrix] and
    [updateInverseViewMatrix] pass, both return, and [update] never ends in
    their exception.  On a state whose two lists differ in length, each of
    the two methods throws at once, leaving the state as it found it. *)
Theorem update_invariants_hold (s : CascadedShadows.t) (camera : PerspectiveCamera.t)
    (sunDirection : Vector3.t) (ellipsoid : option Ellipsoid.t) :
  length (CascadedShadows.frusta (CascadedShadows.updateIntervals s camera))
  = length (CascadedShadows.cascades (CascadedShadows.updateIntervals s camera))
  /\ (exists s2 s3 s' : CascadedShadows.t,
        CascadedShadows.updateProjectionMatrix
          (CascadedShadows.updateIntervals s camera) camera
        = CascadedShadows.Returned s2
        /\ CascadedShadows.updateInverseViewMatrix s2 camera sunDirection ellipsoid
           = CascadedShadows.Returned s3
        /\ CascadedShadows.update s camera sunDirection ellipsoid
           = CascadedShadows.Returned s')
  /\ (forall t : CascadedShadows.t,
        CascadedShadows.update s camera sunDirection ellipsoid <> CascadedShadows.Thrown t)
  /\ (forall t : CascadedShadows.t,
        length (CascadedShadows.frusta t) <> length (CascadedShadows.cascades t) ->
        CascadedShadows.updateProjectionMatrix t camera = CascadedShadows.Thrown t
        /\ CascadedShadows.updateInverseViewMatrix t camera sunDirection ellipsoid
           = CascadedShadows.Thrown t)
  /\ (exists t : CascadedShadows.t,
        length (CascadedShadows.frusta t) <> length (CascadedShadows.cascades t)).
Proof.
  split; [apply updateIntervals_lengths|].
  split; [apply update_steps_return|].
  split; [|split].
  - intros t Ht.
    destruct (update_steps_return s camera sunDirection ellipsoid) as (s2 & s3 & s' & _ & _ & Hs').
    congruence.
  - intros t Hne. unfold CascadedShadows.updateProjectionMatrix,
      CascadedShadows.updateInverseViewMatrix.
    now rewrite !decide_False by exact Hne.
  - exists (CascadedShadows.set_cascadeCount 1 CascadedShadows.initial).
    rewrite set_cascadeCount_cascades. simpl. lia.
Qed.

(** C3 (as amended).  For every cascade, [update] places the light like
    this: the light-space target is the centre of the bounding box of the
    sub-frustum's corners in light space, its z set to the box's largest z
    plus the margin (texel snapping leaves z alone); the distance is
    lerp(1e6, 1e3, zenithFactor), zenithFactor being the dot product of the
    sun direction and the ellipsoid's surface normal at the camera's world
    position; the light position is target + sunDirection * distance, with
    the target taken to world space; the cascade's inverseViewMatrix is
    [Matrix4.lookAt(target, position, up)] (the target in the eye's place
    and the light position in the target's, so that the rotation's z axis
    points from the light position to the target) with its translation set
    to the light position; and the view matrix is what [invert] makes of
    that matrix: its inverse, the matrix being affine of determinant 1 as
    long as it was affine before (as it is in every state the object goes
    through). *)
Theorem update_light_view (s : CascadedShadows.t) (camera : PerspectiveCamera.t)
    (sunDirection : Vector3.t) (ellipsoid : option Ellipsoid.t) :
  CascadedShadows.wf s ->
  exists s' : CascadedShadows.t,
    CascadedShadows.update s camera sunDirection ellipsoid = CascadedShadows.Returned s'
    /\ CascadedShadows.cascadeCount s' = CascadedShadows.cascadeCount s
    /\ (forall i : nat, (i < CascadedShadows.cascadeCount s')%nat ->
          exists (c0 c : Cascade.t) (frustum : FrustumCorners.t),
            CascadedShadows.cascade_at s i = Some c0
            /\ CascadedShadows.cascade_at s' i = Some c
            /\ CascadedShadows.frusta s' !! i = Some frustum
            /\ let lightSpace :=
                 FrustumCorners.applyMatrix4 frustum
                   (CascadedShadows.cameraToLightMatrix camera sunDirection) in
               let bbox := CascadedShadows.frustumBox lightSpace in
               let boxCenter := CascadedShadows.boxTarget (CascadedShadows.margin s') bbox in
               let snapped :=
                 CascadedShadows.snapToTexel (CascadedShadows.cascadeSize s')
                   (Cascade.projectionMatrix c) boxCenter in
               let target :=
                 Matrix4.applyToVector3 snapped
                   (CascadedShadows.lightOrientationMatrix sunDirection) in
               let zenithFactor :=
                 Vector3.dot sunDirection
                   (Ellipsoid.getSurfaceNormal (default WGS84 ellipsoid)
                      (PerspectiveCamera.getWorldPosition camera)) in
               let distance := lerp 1e6 1e3 zenithFactor in
               let position :=
                 Vector3.add target (Vector3.multiplyScalar sunDirection distance) in
               Vector3.z boxCenter
               = Vector3.z (Box3.max bbox) + CascadedShadows.margin s'
               /\ (forall j : nat,
                     Vector3.z (FrustumCorners.get (FrustumCorners.near lightSpace) j)
                       <= Vector3.z (Box3.max bbox)
                     /\ Vector3.z (FrustumCorners.get (FrustumCorners.far lightSpace) j)
                       <= Vector3.z (Box3.max bbox))
               /\ Vector3.z snapped = Vector3.z boxCenter
               /\ Cascade.inverseViewMatrix c
                  = Matrix4.setPosition
                      (Matrix4.lookAt (Cascade.inverseViewMatrix c0) target position DEFAULT_UP)
                      position
               /\ Matrix4.position (Cascade.inverseViewMatrix c) = position
               /\ Cascade.viewMatrix c = Matrix4.invert (Cascade.inverseViewMatrix c)
               /\ (affine (Cascade.inverseViewMatrix c0) ->
                   affine (Cascade.inverseViewMatrix c)
                   /\ Matrix4.determinant (Cascade.inverseViewMatrix c) = 1
                   /\ Matrix4.multiplyMatrices (Cascade.inverseViewMatrix c)
                        (Cascade.viewMatrix c)
                      = Matrix4.new
                   /\ Matrix4.multiplyMatrices (Cascade.viewMatrix c)
                        (Cascade.inverseViewMatrix c)
                      = Matrix4.new)).
Proof.
  intros Hwf.
  destruct (update_cascades s camera sunDirection ellipsoid Hwf)
    as (s' & Hup & _ & Hn & Hsz & _ & _ & _ & Hmar & _ & Hfr & _ & Hat).
  exists s'. repeat (split; [assumption|]).
  intros i Hi. rewrite Hn in Hi. destruct (Hat i Hi) as (c0 & Hc0 & Hc).
  destruct (lookup_lt_is_Some_2 (newFrusta s camera) i) as [frustum Hf].
  { now rewrite newFrusta_length. }
  eexists c0, _, frustum. split; [exact Hc0|]. split; [exact Hc|].
  split; [now rewrite Hfr|]. cbv zeta.
  pose proof (updatedCascade_inverseViewMatrix s camera sunDirection ellipsoid i c0 frustum Hf)
    as Hivm. cbv zeta in Hivm.
  rewrite Hmar, Hsz.
  assert (Hpos : forall t d,
            CascadedShadows.lightPosition sunDirection d t
            = Vector3.add t (Vector3.multiplyScalar sunDirection d)).
  { intros t d. unfold CascadedShadows.lightPosition, Vector3.add, Vector3.copy.
    f_equal; ring. }
  rewrite Hpos in Hivm.
  split; [reflexivity|]. split; [apply frustumBox_max_z|].
  split; [unfold CascadedShadows.snapToTexel;
          now destruct (extractOrthographicTuple _) as [[[? ?] ?] ?]|].
  split; [exact Hivm|]. split; [now rewrite Hivm|].
  destruct (updatedCascade_derived s camera sunDirection ellipsoid i c0)
    as (_ & Hview & _).
  split; [exact Hview|].
  intros Haff. rewrite Hview, Hivm. now apply light_matrix_invertible.
Qed.

(** C7.  Texel snapping uses each cascade's own projection bounds.  The
    left, right, top and bottom read back from a cascade's orthographic
    projection matrix give texelWidth = (right - left) / cascadeSize and
    texelHeight = (top - bottom) / cascadeSize, and snapping sets
    x' = round(x / texelWidth) * texelWidth and
    y' = round(y / texelHeight) * texelHeight, leaving z: the multiple of
    the texel size nearest to each coordinate.  After [update], for every
    cascade these bounds are -radius, radius, radius, -radius of that
    cascade's own fitted radius, and its light position is built from the
    box centre snapped with them.  With texel size 1 the point
    (3.4, 7.6, z) snaps to (3, 8, z). *)
Theorem update_texel_snapping (s : CascadedShadows.t) (camera : PerspectiveCamera.t)
    (sunDirection : Vector3.t) (ellipsoid : option Ellipsoid.t) :
  CascadedShadows.wf s ->
  CascadedShadows.cascadeSize s <> 0 ->
  (forall (cascadeSize : R) (projectionMatrix : Matrix4.t) (center : Vector3.t),
     let '(left', right', top, bottom) := extractOrthographicTuple projectionMatrix in
     let texelWidth := (right' - left') / cascadeSize in
     let texelHeight := (top - bottom) / cascadeSize in
     CascadedShadows.snapToTexel cascadeSize projectionMatrix center
     = Vector3.mk (Math.round (Vector3.x center / texelWidth) * texelWidth)
                  (Math.round (Vector3.y center / texelHeight) * texelHeight)
                  (Vector3.z center))
  /\ (exists s' : CascadedShadows.t,
        CascadedShadows.update s camera sunDirection ellipsoid = CascadedShadows.Returned s'
        /\ CascadedShadows.cascadeSize s' = CascadedShadows.cascadeSize s
        /\ (forall i : nat, (i < CascadedShadows.cascadeCount s')%nat ->
              exists (c : Cascade.t) (frustum : FrustumCorners.t),
                CascadedShadows.cascade_at s' i = Some c
                /\ CascadedShadows.frusta s' !! i = Some frustum
                /\ let radius := CascadedShadows.getFrustumRadius s' camera frustum in
                   let texel := (radius - - radius) / CascadedShadows.cascadeSize s' in
                   let boxCenter :=
                     CascadedShadows.boxTarget (CascadedShadows.margin s')
                       (CascadedShadows.frustumBox
                          (FrustumCorners.applyMatrix4 frustum
                             (CascadedShadows.cameraToLightMatrix camera sunDirection))) in
                   let snapped :=
                     Vector3.mk (Math.round (Vector3.x boxCenter / texel) * texel)
                                (Math.round (Vector3.y boxCenter / texel) * texel)
                                (Vector3.z boxCenter) in
                   radius <> 0 ->
                   extractOrthographicTuple (Cascade.projectionMatrix c)
                   = (- radius, radius, radius, - radius)
                   /\ texel <> 0
                   /\ (exists k : Z, Vector3.x snapped = IZR k * texel)
                   /\ (exists k : Z, Vector3.y snapped = IZR k * texel)
                   /\ Rabs (Vector3.x snapped - Vector3.x boxCenter) <= Rabs texel / 2
                   /\ Rabs (Vector3.y snapped - Vector3.y boxCenter) <= Rabs texel / 2
                   /\ Matrix4.position (Cascade.inverseViewMatrix c)
                      = CascadedShadows.lightPosition sunDirection
                          (CascadedShadows.lightDistance camera sunDirection
                             (default WGS84 ellipsoid))
                          (Matrix4.applyToVector3 snapped
                             (CascadedShadows.lightOrientationMatrix sunDirection))))
  /\ (forall near far z : R,
        CascadedShadows.snapToTexel 1024
          (Matrix4.makeOrthographic (-512) 512 512 (-512) near far)
          (Vector3.mk 3.4 7.6 z)
        = Vector3.mk 3 8 z).
Proof.
  intros Hwf Hsize. split; [|split].
  - intros cascadeSize projectionMatrix center. unfold CascadedShadows.snapToTexel.
    now destruct (extractOrthographicTuple projectionMatrix) as [[[? ?] ?] ?].
  - destruct (update_cascades s camera sunDirection ellipsoid Hwf)
      as (s' & Hup & _ & Hn & Hsz & Hfar & _ & _ & Hmar & Hfade & Hfr & _ & Hat).
    exists s'. repeat (split; [assumption|]).
    intros i Hi. rewrite Hn in Hi. destruct (Hat i Hi) as (c0 & _ & Hc).
    destruct (lookup_lt_is_Some_2 (newFrusta s camera) i) as [frustum Hf].
    { now rewrite newFrusta_length. }
    eexists _, frustum. split; [exact Hc|]. split; [now rewrite Hfr|].
    cbv zeta. intros Hr.
    rewrite (getFrustumRadius_ext s' s) in * by assumption.
    set (radius := CascadedShadows.getFrustumRadius s camera frustum) in *.
    rewrite Hsz, Hmar.
    set (texel := (radius - - radius) / CascadedShadows.cascadeSize s).
    assert (Htexel : texel <> 0).
    { unfold texel. intros E.
      apply (Rmult_eq_compat_r (CascadedShadows.cascadeSize s)) in E.
      unfold Rdiv in E. rewrite Rmult_assoc, Rinv_l, Rmult_0_l in E by exact Hsize. lra. }
    assert (Hext : extractOrthographicTuple
                     (Cascade.projectionMatrix
                        (updatedCascade s camera sunDirection ellipsoid i c0))
                   = (- radius, radius, radius, - radius)).
    { rewrite (updatedCascade_projectionMatrix _ _ _ _ _ _ _ Hf). cbv zeta.
      apply extractOrthographicTuple_makeOrthographic; fold radius; lra. }
    split; [exact Hext|]. split; [exact Htexel|].
    cbn [Vector3.x Vector3.y].
    destruct (snap_nearest
                (Vector3.x (CascadedShadows.boxTarget (CascadedShadows.margin s)
                   (CascadedShadows.frustumBox
                      (FrustumCorners.applyMatrix4 frustum
                         (CascadedShadows.cameraToLightMatrix camera sunDirection)))))
                texel Htexel) as (kx & Hkx & Hdx).
    destruct (snap_nearest
                (Vector3.y (CascadedShadows.boxTarget (CascadedShadows.margin s)
                   (CascadedShadows.frustumBox
                      (FrustumCorners.applyMatrix4 frustum
                         (CascadedShadows.cameraToLightMatrix camera sunDirection)))))
                texel Htexel) as (ky & Hky & Hdy).
    split; [exists kx; exact Hkx|]. split; [exists ky; exact Hky|].
    split; [exact Hdx|]. split; [exact Hdy|].
    rewrite (updatedCascade_inverseViewMatrix _ _ _ _ _ _ _ Hf). cbv zeta.
    cbn [Matrix4.position Matrix4.setPosition Matrix4.e12 Matrix4.e13 Matrix4.e14].
    unfold CascadedShadows.lightTarget, CascadedShadows.snapToTexel.
    rewrite Hext. fold texel.
    unfold Vector3.setX, Vector3.setY. cbn [Vector3.x Vector3.y Vector3.z].
    now destruct (CascadedShadows.lightPosition _ _ _).
  - intros near far z. unfold CascadedShadows.snapToTexel.
    rewrite extractOrthographicTuple_makeOrthographic by lra.
    unfold Vector3.setX, Vector3.setY. cbn [Vector3.x Vector3.y Vector3.z].
    replace ((512 - -512) / 1024) with 1 by lra.
    rewrite (round_eq _ 3), (round_eq _ 8) by lra. f_equal; lra.
Qed.

(** ** Setters *)

Lemma toNumber_numberToString (n : nat) :
  CloudsShadowMaterial.toNumber (Some (CloudsShadowMaterial.numberToString n)) = Some n.
Proof.
  unfold CloudsShadowMaterial.toNumber, CloudsShadowMaterial.numberToString. cbn.
  rewrite NilEmpty.usu. cbn. now rewrite DecimalNat.Unsigned.of_to.
Qed.

(** The material as constructed: four cascades, [needsUpdate] set once, and
    a second assignment of 4 changes nothing. *)
Example material_after_construction :
  CloudsShadowMaterial.cascadeCount (CloudsShadowMaterial.constructor 128 64) = Some 4%nat
  /\ CloudsShadowMaterial.version (CloudsShadowMaterial.constructor 128 64) = 1%nat
  /\ CloudsShadowMaterial.defines (CloudsShadowMaterial.constructor 128 64)
       !! "CASCADE_COUNT"%string = Some "4"%string
  /\ CloudsShadowMaterial.set_cascadeCount 4 (CloudsShadowMaterial.constructor 128 64)
     = CloudsShadowMaterial.constructor 128 64.
Proof. repeat split; vm_compute; reflexivity. Qed.

(** C4 (as amended).  [CascadedShadows] keeps no dirty flag.  Setting a
    parameter to the value it has leaves the whole object as it is (the
    [cascadeCount] setter compares old and new and resizes only on a
    change; cascadeSize, far, mode, lambda, margin and fade are plain
    fields); setting another value makes it the current one; and [update]
    recomputes every cascade on every call from the configuration and the
    camera at hand, so that a new margin shows in the projection matrices
    of the next [update].  The material's [cascadeCount] setter compares
    old and new: with the current value it changes nothing and does not set
    [needsUpdate]; with another value it rewrites the CASCADE_COUNT define
    and sets [needsUpdate]. *)
Theorem config_setters_compare (s : CascadedShadows.t) (m : CloudsShadowMaterial.t)
    (camera : PerspectiveCamera.t) (sunDirection : Vector3.t)
    (ellipsoid : option Ellipsoid.t) :
  (CascadedShadows.set_cascadeCount (CascadedShadows.cascadeCount s) s = s
   /\ CascadedShadows.set_cascadeSize (CascadedShadows.cascadeSize s) s = s
   /\ CascadedShadows.set_far (CascadedShadows.far s) s = s
   /\ CascadedShadows.set_mode (CascadedShadows.mode s) s = s
   /\ CascadedShadows.set_lambda (CascadedShadows.lambda s) s = s
   /\ CascadedShadows.set_margin (CascadedShadows.margin s) s = s
   /\ CascadedShadows.set_fade (CascadedShadows.fade s) s = s)
  /\ ((forall v, CascadedShadows.cascadeCount (CascadedShadows.set_cascadeCount v s) = v)
      /\ (forall v, CascadedShadows.cascadeSize (CascadedShadows.set_cascadeSize v s) = v)
      /\ (forall v, CascadedShadows.far (CascadedShadows.set_far v s) = v)
      /\ (forall v, CascadedShadows.mode (CascadedShadows.set_mode v s) = v)
      /\ (forall v, CascadedShadows.lambda (CascadedShadows.set_lambda v s) = v)
      /\ (forall v, CascadedShadows.margin (CascadedShadows.set_margin v s) = v)
      /\ (forall v, CascadedShadows.fade (CascadedShadows.set_fade v s) = v))
  /\ (forall margin : R,
        CascadedShadows.wf s ->
        exists s' : CascadedShadows.t,
          CascadedShadows.update (CascadedShadows.set_margin margin s)
            camera sunDirection ellipsoid
          = CascadedShadows.Returned s'
          /\ (forall i : nat, (i < CascadedShadows.cascadeCount s)%nat ->
                exists (c : Cascade.t) (frustum : FrustumCorners.t),
                  CascadedShadows.cascade_at s' i = Some c
                  /\ CascadedShadows.frusta s' !! i = Some frustum
                  /\ Cascade.interval c
                     = Vector2.mk
                         (match i with
                          | 0%nat => 0
                          | S j => default 0 (CascadedShadows.splits s' !! j)
                          end)
                         (default 0 (CascadedShadows.splits s' !! i))
                  /\ CascadedShadows.splits s'
                     = splitFrustum (CascadedShadows.mode s) (CascadedShadows.cascadeCount s)
                         (PerspectiveCamera.near camera)
                         (Rmin (CascadedShadows.far s) (PerspectiveCamera.far camera))
                         (CascadedShadows.lambda s)
                  /\ let radius := CascadedShadows.getFrustumRadius s camera frustum in
                     Cascade.projectionMatrix c
                     = Matrix4.makeOrthographic (- radius) radius radius (- radius)
                         (- margin) (2 * radius + margin)))
  /\ (forall v : nat,
        CloudsShadowMaterial.cascadeCount m = Some v ->
        CloudsShadowMaterial.set_cascadeCount v m = m)
  /\ (forall v : nat,
        CloudsShadowMaterial.cascadeCount m <> Some v ->
        let m' := CloudsShadowMaterial.set_cascadeCount v m in
        CloudsShadowMaterial.version m' = S (CloudsShadowMaterial.version m)
        /\ CloudsShadowMaterial.cascadeCount m' = Some v
        /\ CloudsShadowMaterial.set_cascadeCount v m' = m').
Proof.
  split; [|split; [|split; [|split]]].
  - split.
    { unfold CascadedShadows.set_cascadeCount. now rewrite decide_False by tauto. }
    destruct s; repeat split.
  - split; [intros v; apply set_cascadeCount_cascadeCount|]. repeat split.
  - intros margin Hwf.
    destruct (update_cascades (CascadedShadows.set_margin margin s) camera sunDirection
                ellipsoid Hwf)
      as (s' & Hup & _ & Hn & _ & _ & _ & _ & Hmar & _ & Hfr & Hsp & Hat).
    exists s'. split; [exact Hup|].
    intros i Hi. destruct (Hat i Hi) as (c0 & _ & Hc).
    destruct (lookup_lt_is_Some_2
                (newFrusta (CascadedShadows.set_margin margin s) camera) i) as [frustum Hf].
    { now rewrite newFrusta_length. }
    eexists _, frustum. split; [exact Hc|]. split; [now rewrite Hfr|].
    split; [rewrite updatedCascade_interval, Hsp; reflexivity|].
    split; [exact Hsp|].
    rewrite (updatedCascade_projectionMatrix _ _ _ _ _ _ _ Hf). cbv zeta.
    cbn [CascadedShadows.margin CascadedShadows.set_margin].
    rewrite (getFrustumRadius_ext (CascadedShadows.set_margin margin s) s) by reflexivity.
    f_equal; ring.
  - intros v Hv. unfold CloudsShadowMaterial.set_cascadeCount.
    now rewrite decide_False by (rewrite Hv; tauto).
  - intros v Hv m'.
    assert (Hm' : m' = CloudsShadowMaterial.mk
              (<["CASCADE_COUNT"%string := CloudsShadowMaterial.numberToString v]>
                 (CloudsShadowMaterial.defines m))
              (S (CloudsShadowMaterial.version m))).
    { subst m'. unfold CloudsShadowMaterial.set_cascadeCount.
      now rewrite decide_True by congruence. }
    assert (Hget : CloudsShadowMaterial.cascadeCount m' = Some v).
    { rewrite Hm'. unfold CloudsShadowMaterial.cascadeCount. cbn.
      rewrite lookup_insert_eq. apply toNumber_numberToString. }
    split; [now rewrite Hm'|]. split; [exact Hget|].
    unfold CloudsShadowMaterial.set_cascadeCount.
    now rewrite decide_False by (rewrite Hget; tauto).
Qed.

(** C10.  The distance that [update] puts between a cascade's light and its
    look-at target is the interpolation from 1e6 to 1e3 by the plain dot
    product of the sun direction and the surface normal at the camera
    position, with no clamping: after [update], the translation of every
    cascade's inverseViewMatrix is the target moved along the sun direction
    by 1e6 + (1e3 - 1e6) * dot.  The factor is 1e6 at dot = 0 and 1e3 at
    dot = 1, and goes on linearly below zero: above 1e6 for every negative
    dot, 1999000 at dot = -1.  With a unit sun direction the light is at
    exactly that distance from the target. *)
Theorem update_light_distance_unclamped (s : CascadedShadows.t)
    (camera : PerspectiveCamera.t) (sunDirection : Vector3.t)
    (ellipsoid : option Ellipsoid.t) :
  CascadedShadows.wf s ->
  exists s' : CascadedShadows.t,
    CascadedShadows.update s camera sunDirection ellipsoid = CascadedShadows.Returned s'
    /\ CascadedShadows.cascadeCount s' = CascadedShadows.cascadeCount s
    /\ (forall i : nat, (i < CascadedShadows.cascadeCount s')%nat ->
          exists (c : Cascade.t) (frustum : FrustumCorners.t),
            CascadedShadows.cascade_at s' i = Some c
            /\ CascadedShadows.frusta s' !! i = Some frustum
            /\ let up :=
                 Ellipsoid.getSurfaceNormal (default WGS84 ellipsoid)
                   (PerspectiveCamera.getWorldPosition camera) in
               let d := Vector3.dot sunDirection up in
               let distance := 1000000 + (1000 - 1000000) * d in
               let target := CascadedShadows.lightTarget s' camera sunDirection frustum c in
               let position := Matrix4.position (Cascade.inverseViewMatrix c) in
               let offset := Vector3.subVectors position target in
               offset = Vector3.multiplyScalar sunDirection distance
               /\ (d = 0 -> offset = Vector3.multiplyScalar sunDirection 1000000)
               /\ (d = 1 -> offset = Vector3.multiplyScalar sunDirection 1000)
               /\ (d = -1 -> offset = Vector3.multiplyScalar sunDirection 1999000)
               /\ (d < 0 -> 1000000 < distance)
               /\ (-1 <= d <= 1 -> 1000 <= distance <= 1999000)
               /\ (Vector3.lengthSq sunDirection = 1 -> d <= 1 ->
                   Vector3.distanceTo position target = distance)).
Proof.
  intros Hwf.
  destruct (update_cascades s camera sunDirection ellipsoid Hwf)
    as (s' & Hup & _ & Hn & Hsz & _ & _ & _ & Hmar & _ & Hfr & _ & Hat).
  exists s'. repeat (split; [assumption|]).
  intros i Hi. rewrite Hn in Hi. destruct (Hat i Hi) as (c0 & _ & Hc).
  destruct (lookup_lt_is_Some_2 (newFrusta s camera) i) as [frustum Hf].
  { now rewrite newFrusta_length. }
  eexists _, frustum. split; [exact Hc|]. split; [now rewrite Hfr|].
  pose proof (updatedCascade_inverseViewMatrix s camera sunDirection ellipsoid i c0 frustum Hf)
    as Hivm. cbv zeta in Hivm.
  set (c := updatedCascade s camera sunDirection ellipsoid i c0) in *.
  rewrite (lightTarget_ext camera sunDirection s s' frustum c c
             (eq_sym Hmar) (eq_sym Hsz) eq_refl) in Hivm.
  rewrite lightDistance_linear in Hivm.
  cbv zeta.
  set (d := Vector3.dot sunDirection _) in *.
  set (target := CascadedShadows.lightTarget s' camera sunDirection frustum c) in *.
  assert (Hoff : Vector3.subVectors (Matrix4.position (Cascade.inverseViewMatrix c)) target
                 = Vector3.multiplyScalar sunDirection (1000000 + (1000 - 1000000) * d)).
  { rewrite Hivm.
    unfold CascadedShadows.lightPosition, Vector3.subVectors, Vector3.add,
      Vector3.multiplyScalar, Vector3.copy, Matrix4.position, Matrix4.setPosition.
    cbn [Vector3.x Vector3.y Vector3.z Matrix4.e12 Matrix4.e13 Matrix4.e14].
    f_equal; ring. }
  split; [exact Hoff|].
  split; [intros E; rewrite Hoff, E; f_equal; lra|].
  split; [intros E; rewrite Hoff, E; f_equal; lra|].
  split; [intros E; rewrite Hoff, E; f_equal; lra|].
  split; [intros E; lra|].
  split; [intros E; lra|].
  intros Hunit Hd.
  unfold Vector3.distanceTo.
  replace (Vector3.distanceToSquared (Matrix4.position (Cascade.inverseViewMatrix c)) target)
    with ((1000000 + (1000 - 1000000) * d) * (1000000 + (1000 - 1000000) * d)).
  { apply sqrt_square. lra. }
  pose proof (f_equal Vector3.x Hoff) as Hx.
  pose proof (f_equal Vector3.y Hoff) as Hy.
  pose proof (f_equal Vector3.z Hoff) as Hz.
  unfold Vector3.subVectors, Vector3.multiplyScalar in Hx, Hy, Hz.
  cbn [Vector3.x Vector3.y Vector3.z] in Hx, Hy, Hz.
  unfold Vector3.distanceToSquared. cbv zeta. rewrite Hx, Hy, Hz.
  unfold Vector3.lengthSq in Hunit.
  set (k := 1000000 + (1000 - 1000000) * d).
  transitivity (k * k * (Vector3.x sunDirection * Vector3.x sunDirection
                         + Vector3.y sunDirection * Vector3.y sunDirection
                         + Vector3.z sunDirection * Vector3.z sunDirection)); [|ring].
  rewrite Hunit. ring.
Qed.

End Claims.

(** ** The sample scene *)

Lemma reference_wf : CascadedShadows.wf Reference.shadows.
Proof. apply constructor_wf. Qed.

Lemma reference_cascadeCount :
  CascadedShadows.cascadeCount Reference.shadows = 4%nat.
Proof. apply constructor_cascadeCount. Qed.

Lemma reference_config :
  CascadedShadows.cascadeSize Reference.shadows = 1024
  /\ CascadedShadows.far Reference.shadows = 1e4
  /\ CascadedShadows.mode Reference.shadows = practical
  /\ CascadedShadows.lambda Reference.shadows = 0.5
  /\ CascadedShadows.margin Reference.shadows = 0
  /\ CascadedShadows.fade Reference.shadows = true.
Proof. repeat split. Qed.

(** ** The look-at matrix along the z axis *)

Lemma normalize_along_z (d : R) :
  0 < d ->
  Vector3.normalize (Vector3.mk 0 0 d) = Vector3.mk 0 0 1
  /\ Vector3.normalize (Vector3.mk 0 0 (- d)) = Vector3.mk 0 0 (-1).
Proof.
  intros Hd. unfold Vector3.normalize, Vector3.length, Vector3.lengthSq.
  cbn [Vector3.x Vector3.y Vector3.z].
  replace (0 * 0 + 0 * 0 + d * d) with (d * d) by ring.
  replace (0 * 0 + 0 * 0 + - d * - d) with (d * d) by ring.
  rewrite sqrt_square by lra.
  destruct (Req_dec_T d 0) as [E|_]; [lra|].
  unfold Vector3.multiplyScalar. cbn [Vector3.x Vector3.y Vector3.z].
  split; f_equal; field; lra.
Qed.

(** The third column of [lookAt] is the unit vector from the target to the
    eye: looking along z, its last entry tells which way. *)
Lemma lookAt_along_z (m : Matrix4.t) (eye target : Vector3.t) (d : R) :
  0 < d ->
  (Vector3.subVectors eye target = Vector3.mk 0 0 d ->
   Matrix4.e10 (Matrix4.lookAt m eye target DEFAULT_UP) = 1)
  /\ (Vector3.subVectors eye target = Vector3.mk 0 0 (- d) ->
      Matrix4.e10 (Matrix4.lookAt m eye target DEFAULT_UP) = -1).
Proof.
  intros Hd. destruct (normalize_along_z d Hd) as [Hpos Hneg].
  split; intros Hz; unfold Matrix4.lookAt; rewrite Hz; cbv zeta.
  - destruct (Req_dec_T (Vector3.lengthSq (Vector3.mk 0 0 d)) 0) as [E|_].
    { unfold Vector3.lengthSq in E. cbn [Vector3.x Vector3.y Vector3.z] in E. nra. }
    rewrite Hpos.
    destruct (Req_dec_T
                (Vector3.lengthSq (Vector3.crossVectors DEFAULT_UP (Vector3.mk 0 0 1))) 0)
      as [E|_].
    { unfold Vector3.lengthSq, Vector3.crossVectors, DEFAULT_UP in E.
      cbn [Vector3.x Vector3.y Vector3.z] in E. lra. }
    reflexivity.
  - destruct (Req_dec_T (Vector3.lengthSq (Vector3.mk 0 0 (- d))) 0) as [E|_].
    { unfold Vector3.lengthSq in E. cbn [Vector3.x Vector3.y Vector3.z] in E. nra. }
    rewrite Hneg.
    destruct (Req_dec_T
                (Vector3.lengthSq (Vector3.crossVectors DEFAULT_UP (Vector3.mk 0 0 (-1)))) 0)
      as [E|_].
    { unfold Vector3.lengthSq, Vector3.crossVectors, DEFAULT_UP in E.
      cbn [Vector3.x Vector3.y Vector3.z] in E. lra. }
    reflexivity.
Qed.

Lemma reference_lightDistance :
  CascadedShadows.lightDistance Reference.camera Reference.sun Reference.unitSphere = 1000.
Proof.
  unfold CascadedShadows.lightDistance.
  change (Ellipsoid.getSurfaceNormal Reference.unitSphere
            (PerspectiveCamera.getWorldPosition Reference.camera))
    with (Vector3.normalize (Vector3.mk 0 0 1)).
  destruct (normalize_along_z 1 ltac:(lra)) as [-> _].
  unfold Reference.sun, Vector3.dot, lerp. cbn [Vector3.x Vector3.y Vector3.z]. lra.
Qed.

Lemma reference_near_far :
  0 < PerspectiveCamera.near Reference.camera
    < Rmin (CascadedShadows.far Reference.shadows) (PerspectiveCamera.far Reference.camera).
Proof.
  change (0 < 1 < Rmin 1e4 1000). rewrite Rmin_right by lra. lra.
Qed.

Lemma reference_lambda :
  CascadedShadows.mode Reference.shadows = practical ->
  0 <= CascadedShadows.lambda Reference.shadows <= 1.
Proof. intros _. change (0 <= 0.5 <= 1). lra. Qed.

(** ** The claims at the sample scene *)

(** The intervals of the sample scene chain from 0. *)
Lemma update_intervals_chain_witness :
  CascadedShadows.wf Reference.shadows
  /\ (1 <= CascadedShadows.cascadeCount Reference.shadows)%nat
  /\ 0 < PerspectiveCamera.near Reference.camera
       < Rmin (CascadedShadows.far Reference.shadows)
              (PerspectiveCamera.far Reference.camera)
  /\ exists s' : CascadedShadows.t,
       CascadedShadows.update (H:=Reference.helpers) Reference.shadows Reference.camera
         Reference.sun None
       = CascadedShadows.Returned s'
       /\ CascadedShadows.cascadeCount s' = 4%nat
       /\ (forall c : Cascade.t,
             CascadedShadows.cascade_at s' 0 = Some c ->
             Vector2.x (Cascade.interval c) = 0).
Proof.
  assert (Hcount : (1 <= CascadedShadows.cascadeCount Reference.shadows)%nat)
    by (rewrite reference_cascadeCount; lia).
  split; [exact reference_wf|]. split; [exact Hcount|].
  split; [exact reference_near_far|].
  destruct (update_intervals_chain (H:=Reference.helpers) Reference.shadows
              Reference.camera Reference.sun None
              reference_wf Hcount reference_near_far reference_lambda)
    as (s' & Hup & Hn & _ & _ & _ & Hfirst & _).
  exists s'. split; [exact Hup|]. split; [|exact Hfirst].
  rewrite Hn. exact reference_cascadeCount.
Defined.

(** C2, as stated, fails: the first cascade's interval starts at 0, not at
    [camera.near].  With the default options and a camera with near = 1 and
    far = 1000, the first interval after [update] starts at 0. *)
Lemma first_interval_not_at_camera_near :
  exists (s' : CascadedShadows.t) (c : Cascade.t),
    CascadedShadows.update (H:=Reference.helpers) Reference.shadows Reference.camera
      Reference.sun None
    = CascadedShadows.Returned s'
    /\ CascadedShadows.cascade_at s' 0 = Some c
    /\ Vector2.x (Cascade.interval c) = 0
    /\ PerspectiveCamera.near Reference.camera = 1
    /\ Vector2.x (Cascade.interval c) <> PerspectiveCamera.near Reference.camera.
Proof.
  destruct (update_intervals (H:=Reference.helpers) Reference.shadows Reference.camera
              Reference.sun None reference_wf)
    as (s' & Hup & _ & _ & _ & _ & _ & Hat).
  destruct (Hat 0%nat) as (c & Hc & Hint).
  { rewrite reference_cascadeCount. lia. }
  exists s', c. split; [exact Hup|]. split; [exact Hc|].
  rewrite Hint. cbn. split; [reflexivity|]. split; [reflexivity|]. lra.
Qed.

(** The first cascade's projection matrix at the sample scene. *)
Lemma update_projectionMatrix_witness :
  CascadedShadows.wf Reference.shadows
  /\ exists s' : CascadedShadows.t,
       CascadedShadows.update (H:=Reference.helpers) Reference.shadows Reference.camera
         Reference.sun None
       = CascadedShadows.Returned s'
       /\ CascadedShadows.cascadeCount s' = 4%nat
       /\ exists (c : Cascade.t) (frustum : FrustumCorners.t),
            CascadedShadows.cascade_at s' 0 = Some c
            /\ CascadedShadows.frusta s' !! 0%nat = Some frustum
            /\ let radius := CascadedShadows.getFrustumRadius s' Reference.camera frustum in
               Cascade.projectionMatrix c
               = Matrix4.makeOrthographic (- radius) radius radius (- radius)
                   (- CascadedShadows.margin s') (2 * radius + CascadedShadows.margin s').
Proof.
  split; [exact reference_wf|].
  destruct (update_projectionMatrix (H:=Reference.helpers) Reference.shadows
              Reference.camera Reference.sun None reference_wf)
    as (s' & Hup & Hn & _ & Hat).
  assert (Hn' : CascadedShadows.cascadeCount s' = 4%nat)
    by (rewrite Hn; exact reference_cascadeCount).
  exists s'. split; [exact Hup|]. split; [exact Hn'|].
  apply Hat. rewrite Hn'. lia.
Defined.

(** The first cascade's view matrix at the sample scene. *)
Lemma update_light_view_witness :
  CascadedShadows.wf Reference.shadows
  /\ exists s' : CascadedShadows.t,
       CascadedShadows.update (H:=Reference.helpers) Reference.shadows Reference.camera
         Reference.sun None
       = CascadedShadows.Returned s'
       /\ exists c : Cascade.t,
            CascadedShadows.cascade_at s' 0 = Some c
            /\ Cascade.viewMatrix c = Matrix4.invert (Cascade.inverseViewMatrix c).
Proof.
  split; [exact reference_wf|].
  destruct (update_light_view (H:=Reference.helpers) Reference.shadows
              Reference.camera Reference.sun None reference_wf)
    as (s' & Hup & Hn & Hat).
  exists s'. split; [exact Hup|].
  destruct (Hat 0%nat) as (c0 & c & frustum & _ & Hc & _ & Hlight).
  { rewrite Hn, reference_cascadeCount. lia. }
  exists c. split; [exact Hc|].
  destruct Hlight as (_ & _ & _ & _ & _ & Hview & _). exact Hview.
Defined.

(** At the sample scene the sun is at the zenith: the first cascade's light
    is 1000 from its target. *)
Lemma update_light_distance_unclamped_witness :
  CascadedShadows.wf Reference.shadows
  /\ exists (s' : CascadedShadows.t) (c : Cascade.t) (frustum : FrustumCorners.t),
       CascadedShadows.update (H:=Reference.helpers) Reference.shadows Reference.camera
         Reference.sun None
       = CascadedShadows.Returned s'
       /\ CascadedShadows.cascade_at s' 0 = Some c
       /\ CascadedShadows.frusta s' !! 0%nat = Some frustum
       /\ Vector3.distanceTo (Matrix4.position (Cascade.inverseViewMatrix c))
            (CascadedShadows.lightTarget s' Reference.camera Reference.sun frustum c)
          = 1000.
Proof.
  split; [exact reference_wf|].
  destruct (update_light_distance_unclamped (H:=Reference.helpers) Reference.shadows
              Reference.camera Reference.sun None reference_wf)
    as (s' & Hup & Hn & Hat).
  destruct (Hat 0%nat) as (c & frustum & Hc & Hf & Hlight).
  { rewrite Hn, reference_cascadeCount. lia. }
  exists s', c, frustum. repeat (split; [assumption|]).
  cbv zeta in Hlight. destruct Hlight as (_ & _ & _ & _ & _ & _ & Hdist).
  pose proof reference_lightDistance as Hd. rewrite lightDistance_linear in Hd.
  change (default WGS84 None) with Reference.unitSphere in Hdist.
  rewrite Hdist; [exact Hd| |lra].
  unfold Reference.sun, Vector3.lengthSq. cbn [Vector3.x Vector3.y Vector3.z]. lra.
Defined.

(** C3, as stated, fails on the look-at: the code hands the target to
    [lookAt] as the eye and the light position as the target.  With the sun
    overhead, the matrix the code builds has -1 where the look-at with
    eye = position and target = target has 1. *)
Lemma light_view_not_look_at_from_position :
  exists (s' : CascadedShadows.t) (c0 c : Cascade.t) (target position : Vector3.t),
    CascadedShadows.update (H:=Reference.helpers) Reference.shadows Reference.camera
      Reference.sun None
    = CascadedShadows.Returned s'
    /\ CascadedShadows.cascade_at Reference.shadows 0 = Some c0
    /\ CascadedShadows.cascade_at s' 0 = Some c
    /\ position = Vector3.add target (Vector3.multiplyScalar Reference.sun 1000)
    /\ Cascade.inverseViewMatrix c
       = Matrix4.setPosition
           (Matrix4.lookAt (Cascade.inverseViewMatrix c0) target position DEFAULT_UP)
           position
    /\ Cascade.inverseViewMatrix c
       <> Matrix4.setPosition
            (Matrix4.lookAt (Cascade.inverseViewMatrix c0) position target DEFAULT_UP)
            position.
Proof.
  destruct (update_cascades (H:=Reference.helpers) Reference.shadows Reference.camera
              Reference.sun None reference_wf)
    as (s' & Hup & _ & _ & _ & _ & _ & _ & _ & _ & _ & _ & Hat).
  destruct (Hat 0%nat) as (c0 & Hc0 & Hc).
  { rewrite reference_cascadeCount. lia. }
  destruct (lookup_lt_is_Some_2
              (newFrusta (H:=Reference.helpers) Reference.shadows Reference.camera) 0)
    as [frustum Hf].
  { rewrite newFrusta_length, reference_cascadeCount. lia. }
  pose proof (updatedCascade_inverseViewMatrix (H:=Reference.helpers) Reference.shadows
                Reference.camera Reference.sun None 0 c0 frustum Hf) as Hivm.
  cbv zeta in Hivm.
  change (default WGS84 None) with Reference.unitSphere in Hivm.
  rewrite reference_lightDistance in Hivm.
  set (c := updatedCascade Reference.shadows Reference.camera Reference.sun None 0 c0) in *.
  set (target := CascadedShadows.lightTarget Reference.shadows Reference.camera
                   Reference.sun frustum c) in *.
  assert (Hpos : CascadedShadows.lightPosition Reference.sun 1000 target
                 = Vector3.add target (Vector3.multiplyScalar Reference.sun 1000)).
  { unfold CascadedShadows.lightPosition, Vector3.add, Vector3.copy. f_equal; ring. }
  rewrite Hpos in Hivm.
  exists s', c0, c, target, (Vector3.add target (Vector3.multiplyScalar Reference.sun 1000)).
  split; [exact Hup|]. split; [exact Hc0|]. split; [exact Hc|].
  split; [reflexivity|]. split; [exact Hivm|].
  rewrite Hivm. intros E. apply (f_equal Matrix4.e10) in E.
  cbn [Matrix4.setPosition Matrix4.e10] in E.
  destruct (lookAt_along_z (Cascade.inverseViewMatrix c0) target
              (Vector3.add target (Vector3.multiplyScalar Reference.sun 1000)) 1000
              ltac:(lra)) as [_ Hdown].
  destruct (lookAt_along_z (Cascade.inverseViewMatrix c0)
              (Vector3.add target (Vector3.multiplyScalar Reference.sun 1000)) target 1000
              ltac:(lra)) as [Hup' _].
  rewrite Hdown, Hup' in E.
  - lra.
  - unfold Vector3.subVectors, Vector3.add, Vector3.multiplyScalar, Reference.sun.
    cbn [Vector3.x Vector3.y Vector3.z]. f_equal; ring.
  - unfold Vector3.subVectors, Vector3.add, Vector3.multiplyScalar, Reference.sun.
    cbn [Vector3.x Vector3.y Vector3.z]. f_equal; ring.
Qed.

(** Texel snapping at the sample scene, whose cascade size is 1024. *)
Lemma update_texel_snapping_witness :
  CascadedShadows.wf Reference.shadows
  /\ CascadedShadows.cascadeSize Reference.shadows <> 0
  /\ exists s' : CascadedShadows.t,
       CascadedShadows.update (H:=Reference.helpers) Reference.shadows Reference.camera
         Reference.sun None
       = CascadedShadows.Returned s'
       /\ CascadedShadows.cascadeSize s' = 1024
       /\ CascadedShadows.snapToTexel 1024
            (Matrix4.makeOrthographic (-512) 512 512 (-512) 0 1024)
            (Vector3.mk 3.4 7.6 0)
          = Vector3.mk 3 8 0.
Proof.
  assert (Hsize : CascadedShadows.cascadeSize Reference.shadows <> 0).
  { change (1024 <> 0). lra. }
  split; [exact reference_wf|]. split; [exact Hsize|].
  destruct (update_texel_snapping (H:=Reference.helpers) Reference.shadows
              Reference.camera Reference.sun None reference_wf Hsize)
    as (_ & (s' & Hup & Hsz & _) & Hexample).
  exists s'. split; [exact Hup|]. split; [exact Hsz|]. apply Hexample.
Defined.

(** C4, as stated, fails: there is no dirty flag to consult.  After an
    [update], setting the margin to the value it has changes nothing, and
    the next [update], with a camera whose far plane moved from 1000 to
    2000, recomputes the cascades all the same: the last interval's far end
    goes from 1000 to 2000. *)
Lemma update_recomputes_without_config_change :
  exists (s1 s2 : CascadedShadows.t) (c1 c2 : Cascade.t),
    CascadedShadows.update (H:=Reference.helpers) Reference.shadows Reference.camera
      Reference.sun None
    = CascadedShadows.Returned s1
    /\ CascadedShadows.set_margin (CascadedShadows.margin s1) s1 = s1
    /\ CascadedShadows.update (H:=Reference.helpers)
         (CascadedShadows.set_margin (CascadedShadows.margin s1) s1)
         Reference.farCamera Reference.sun None
       = CascadedShadows.Returned s2
    /\ CascadedShadows.cascade_at s1 3 = Some c1
    /\ CascadedShadows.cascade_at s2 3 = Some c2
    /\ Vector2.y (Cascade.interval c1) = 1000
    /\ Vector2.y (Cascade.interval c2) = 2000.
Proof.
  destruct (update_intervals (H:=Reference.helpers) Reference.shadows Reference.camera
              Reference.sun None reference_wf)
    as (s1 & Hup1 & Hwf1 & Hn1 & Hfar1 & Hmode1 & Hlam1 & Hat1).
  rewrite reference_cascadeCount in Hn1, Hat1.
  destruct (update_intervals (H:=Reference.helpers) s1 Reference.farCamera
              Reference.sun None Hwf1)
    as (s2 & Hup2 & _ & _ & _ & _ & _ & Hat2).
  unfold shadowFar in Hat1, Hat2. rewrite Hn1, Hfar1, Hmode1, Hlam1 in Hat2.
  destruct (Hat1 3%nat ltac:(lia)) as (c1 & Hc1 & Hint1).
  destruct (Hat2 3%nat ltac:(lia)) as (c2 & Hc2 & Hint2).
  assert (Hsame : CascadedShadows.set_margin (CascadedShadows.margin s1) s1 = s1)
    by (now destruct s1).
  exists s1, s2, c1, c2. rewrite Hsame.
  split; [exact Hup1|]. split; [reflexivity|]. split; [exact Hup2|].
  split; [exact Hc1|]. split; [exact Hc2|].
  rewrite Hint1, Hint2. cbn [Vector2.y].
  assert (Hfar : CascadedShadows.far Reference.shadows = 1e4) by reflexivity.
  assert (Hlam : CascadedShadows.mode Reference.shadows = practical ->
                 0 <= CascadedShadows.lambda Reference.shadows <= 1)
    by exact reference_lambda.
  rewrite Hfar. unfold Math.min.
  change (PerspectiveCamera.far Reference.camera) with 1000.
  change (PerspectiveCamera.far Reference.farCamera) with 2000.
  change (PerspectiveCamera.near Reference.camera) with 1.
  change (PerspectiveCamera.near Reference.farCamera) with 1.
  rewrite !Rmin_right by lra.
  split; apply splitAt_last; auto with lia; lra.
Qed.

(** [update] returns at the sample scene. *)
Lemma update_invariants_hold_witness :
  exists s' : CascadedShadows.t,
    CascadedShadows.update (H:=Reference.helpers) Reference.shadows Reference.camera
      Reference.sun None
    = CascadedShadows.Returned s'.
Proof.
  destruct (update_invariants_hold (H:=Reference.helpers) Reference.shadows
              Reference.camera Reference.sun None)
    as (_ & (s2 & s3 & s' & _ & _ & Hup) & _).
  exists s'. exact Hup.
Defined.

(** Setting the sample's margin to its own value changes nothing; after
    setting it to 5, [update] returns. *)
Lemma config_setters_compare_witness :
  CascadedShadows.set_margin (CascadedShadows.margin Reference.shadows) Reference.shadows
  = Reference.shadows
  /\ exists s' : CascadedShadows.t,
       CascadedShadows.update (H:=Reference.helpers)
         (CascadedShadows.set_margin 5 Reference.shadows)
         Reference.camera Reference.sun None
       = CascadedShadows.Returned s'.
Proof.
  destruct (config_setters_compare (H:=Reference.helpers) Reference.shadows
              (CloudsShadowMaterial.constructor 128 64)
              Reference.camera Reference.sun None)
    as ((_ & _ & _ & _ & _ & Hsame & _) & _ & Hmargin & _).
  split; [exact Hsame|].
  destruct (Hmargin 5 reference_wf) as (s' & Hup & _).
  exists s'. exact Hup.
Defined.

(** * Further properties

    ** The constructor and the resizes *)

(** X1.  The constructor merges the options over the defaults: each of
    cascadeCount, cascadeSize, far, mode, lambda, margin and fade is the
    option where it is given and 4, 1024, 1e4, practical, 0.5, 0 and true
    where it is not.  The new instance holds that many cascades, each a new
    object with a zero interval and six identity matrices, no two entries
    of the array the same object, and its two buffers are empty. *)
Theorem constructor_defaults (options : CascadedShadowsOptions.t) :
  let s := CascadedShadows.constructor options in
  let count := default 4%nat (CascadedShadowsOptions.cascadeCount options) in
  CascadedShadows.cascadeCount s = count
  /\ CascadedShadows.cascadeSize s = default 1024 (CascadedShadowsOptions.cascadeSize options)
  /\ CascadedShadows.far s = default 1e4 (CascadedShadowsOptions.far options)
  /\ CascadedShadows.mode s = default practical (CascadedShadowsOptions.mode options)
  /\ CascadedShadows.lambda s = default 0.5 (CascadedShadowsOptions.lambda options)
  /\ CascadedShadows.margin s = default 0 (CascadedShadowsOptions.margin options)
  /\ CascadedShadows.fade s = default true (CascadedShadowsOptions.fade options)
  /\ CascadedShadows.cascades s = seq 0 count
  /\ CascadedShadows.store s = replicate count Cascade.fresh
  /\ CascadedShadows.frusta s = []
  /\ CascadedShadows.splits s = []
  /\ CascadedShadows.wf s.
Proof.
  cbv zeta.
  split; [apply constructor_cascadeCount|].
  unfold CascadedShadows.constructor.
  cbn [CascadedShadows.set_fade CascadedShadows.set_margin CascadedShadows.set_lambda
       CascadedShadows.set_mode CascadedShadows.set_far CascadedShadows.set_cascadeSize
       CascadedShadows.cascadeSize CascadedShadows.far CascadedShadows.mode
       CascadedShadows.lambda CascadedShadows.margin CascadedShadows.fade
       CascadedShadows.cascades CascadedShadows.store CascadedShadows.frusta
       CascadedShadows.splits].
  do 6 (split; [reflexivity|]).
  change (default (default 0%nat
            (CascadedShadowsOptions.cascadeCount CascadedShadows.cascadedShadowsOptionsDefaults))
            (CascadedShadowsOptions.cascadeCount options))
    with (default 4%nat (CascadedShadowsOptions.cascadeCount options)).
  set (count := default 4%nat (CascadedShadowsOptions.cascadeCount options)).
  split.
  { rewrite set_cascadeCount_cascades. cbn. now rewrite take_nil, Nat.sub_0_r. }
  split.
  { rewrite set_cascadeCount_store. cbn. now rewrite Nat.sub_0_r. }
  split.
  { unfold CascadedShadows.set_cascadeCount. now destruct (decide _). }
  split.
  { unfold CascadedShadows.set_cascadeCount. now destruct (decide _). }
  exact (constructor_wf options).
Qed.

(** X2.  Shrinking the cascade array to [n] and growing it to [k]: the
    objects below min(n, k) stay where they were, no object is changed by
    the resizes, an object dropped by the shrink is not in the array again
    (every index from [n] on holds an object created by the growth, with a
    zero interval and identity matrices), and the array stays free of
    repeated objects. *)
Theorem set_cascadeCount_never_reuses (s : CascadedShadows.t) (n k : nat) :
  CascadedShadows.wf s ->
  (n <= CascadedShadows.cascadeCount s)%nat ->
  let s' := CascadedShadows.set_cascadeCount k (CascadedShadows.set_cascadeCount n s) in
  CascadedShadows.cascadeCount s' = k
  /\ CascadedShadows.wf s'
  /\ (forall (l : nat) (c : Cascade.t),
        CascadedShadows.store s !! l = Some c -> CascadedShadows.store s' !! l = Some c)
  /\ (forall i : nat, (i < Nat.min n k)%nat ->
        CascadedShadows.cascades s' !! i = CascadedShadows.cascades s !! i)
  /\ (forall i l : nat, (n <= i)%nat ->
        CascadedShadows.cascades s !! i = Some l -> l ∉ CascadedShadows.cascades s')
  /\ (forall i : nat, (n <= i < k)%nat ->
        exists l : nat,
          CascadedShadows.cascades s' !! i = Some l
          /\ (length (CascadedShadows.store s) <= l)%nat
          /\ CascadedShadows.store s' !! l = Some Cascade.fresh).
Proof.
  intros Hwf Hn. pose proof Hwf as [Hnd Hin]. rewrite Forall_forall in Hin.
  cbv zeta.
  assert (Hc1 : CascadedShadows.cascades (CascadedShadows.set_cascadeCount n s)
                = take n (CascadedShadows.cascades s)).
  { rewrite set_cascadeCount_cascades.
    replace (n - CascadedShadows.cascadeCount s)%nat with 0%nat by lia.
    cbn. now rewrite app_nil_r. }
  assert (Hs1 : CascadedShadows.store (CascadedShadows.set_cascadeCount n s)
                = CascadedShadows.store s).
  { rewrite set_cascadeCount_store.
    replace (n - CascadedShadows.cascadeCount s)%nat with 0%nat by lia.
    cbn. now rewrite app_nil_r. }
  assert (Hn1 : CascadedShadows.cascadeCount (CascadedShadows.set_cascadeCount n s) = n)
    by apply set_cascadeCount_cascadeCount.
  assert (Hc2 : CascadedShadows.cascades
                  (CascadedShadows.set_cascadeCount k (CascadedShadows.set_cascadeCount n s))
                = take (Nat.min n k) (CascadedShadows.cascades s)
                  ++ seq (length (CascadedShadows.store s)) (k - n)).
  { rewrite set_cascadeCount_cascades, Hc1, Hs1, Hn1. f_equal.
    rewrite take_take. f_equal. lia. }
  assert (Hs2 : CascadedShadows.store
                  (CascadedShadows.set_cascadeCount k (CascadedShadows.set_cascadeCount n s))
                = CascadedShadows.store s ++ replicate (k - n) Cascade.fresh).
  { now rewrite set_cascadeCount_store, Hs1, Hn1. }
  assert (Hlt : length (take (Nat.min n k) (CascadedShadows.cascades s)) = Nat.min n k).
  { rewrite length_take. unfold CascadedShadows.cascadeCount in Hn. lia. }
  split; [apply set_cascadeCount_cascadeCount|].
  split; [now do 2 apply set_cascadeCount_wf|].
  split; [|split; [|split]].
  - intros l c Hl. rewrite Hs2. apply lookup_app_l_Some. exact Hl.
  - intros i Hi. rewrite Hc2. rewrite lookup_app_l by lia.
    apply lookup_take_lt. lia.
  - intros i l Hi Hl Hel. rewrite Hc2 in Hel.
    apply elem_of_app in Hel as [Hel|Hel].
    + apply list_elem_of_lookup_1 in Hel as [j Hj].
      apply lookup_take_Some in Hj as [Hj Hjn].
      assert (i = j) by (eapply NoDup_lookup; eauto). lia.
    + apply elem_of_seq in Hel.
      assert ((l < length (CascadedShadows.store s))%nat)
        by (apply Hin; eapply list_elem_of_lookup_2; eauto).
      lia.
  - intros i [Hi1 Hi2].
    exists (length (CascadedShadows.store s) + (i - n))%nat.
    rewrite Hc2, Hs2. split; [|split; [lia|]].
    + rewrite lookup_app_r by lia. rewrite Hlt.
      replace (Nat.min n k) with n by lia.
      apply lookup_seq. lia.
    + rewrite lookup_app_r by lia.
      apply lookup_replicate. split; [reflexivity|lia].
Qed.

(** The default four cascades, shrunk to two and grown back to four. *)
Lemma set_cascadeCount_never_reuses_witness :
  CascadedShadows.wf Reference.shadows
  /\ (2 <= CascadedShadows.cascadeCount Reference.shadows)%nat
  /\ CascadedShadows.cascadeCount
       (CascadedShadows.set_cascadeCount 4 (CascadedShadows.set_cascadeCount 2 Reference.shadows))
     = 4%nat.
Proof.
  assert (Hn : (2 <= CascadedShadows.cascadeCount Reference.shadows)%nat)
    by (rewrite reference_cascadeCount; lia).
  split; [exact reference_wf|]. split; [exact Hn|].
  apply (set_cascadeCount_never_reuses Reference.shadows 2 4 reference_wf Hn).
Defined.

(** ** The invariant of the reachable states *)

Lemma invert_new : Matrix4.invert Matrix4.new = Matrix4.new.
Proof.
  unfold Matrix4.invert, Matrix4.new.
  cbn [Matrix4.e0 Matrix4.e1 Matrix4.e2 Matrix4.e3 Matrix4.e4 Matrix4.e5
       Matrix4.e6 Matrix4.e7 Matrix4.e8 Matrix4.e9 Matrix4.e10 Matrix4.e11
       Matrix4.e12 Matrix4.e13 Matrix4.e14 Matrix4.e15].
  cbv zeta.
  destruct (Req_dec_T _ 0) as [E|_]; [exfalso; lra|].
  f_equal; field.
Qed.

Lemma multiplyMatrices_new_l (m : Matrix4.t) : Matrix4.multiplyMatrices Matrix4.new m = m.
Proof. destruct m. unfold Matrix4.multiplyMatrices, Matrix4.new; cbn. f_equal; ring. Qed.

Lemma multiplyMatrices_new_r (m : Matrix4.t) : Matrix4.multiplyMatrices m Matrix4.new = m.
Proof. destruct m. unfold Matrix4.multiplyMatrices, Matrix4.new; cbn. f_equal; ring. Qed.

Lemma multiplyMatrices_assoc (a b c : Matrix4.t) :
  Matrix4.multiplyMatrices (Matrix4.multiplyMatrices a b) c
  = Matrix4.multiplyMatrices a (Matrix4.multiplyMatrices b c).
Proof. destruct a, b, c. unfold Matrix4.multiplyMatrices; cbn. f_equal; ring. Qed.

Lemma fresh_derived : derived Cascade.fresh.
Proof.
  unfold derived, Cascade.fresh.
  cbn [Cascade.inverseProjectionMatrix Cascade.projectionMatrix Cascade.viewMatrix
       Cascade.inverseViewMatrix Cascade.matrix Cascade.inverseMatrix].
  rewrite invert_new, multiplyMatrices_new_l. repeat split.
Qed.

Lemma set_cascadeCount_buffers (n : nat) (s : CascadedShadows.t) :
  CascadedShadows.frusta (CascadedShadows.set_cascadeCount n s) = CascadedShadows.frusta s
  /\ CascadedShadows.splits (CascadedShadows.set_cascadeCount n s) = CascadedShadows.splits s.
Proof. unfold CascadedShadows.set_cascadeCount. destruct (decide _); split; reflexivity. Qed.

Section ReachableCoherent.

Context `{Helpers}.

Lemma updatedCascade_is_derived (s : CascadedShadows.t) (camera : PerspectiveCamera.t)
    (sunDirection : Vector3.t) (ellipsoid : option Ellipsoid.t) (i : nat) (c : Cascade.t) :
  derived (updatedCascade s camera sunDirection ellipsoid i c).
Proof. exact (updatedCascade_derived s camera sunDirection ellipsoid i c). Qed.

(** X3.  In every state the object goes through (the constructor, then
    the [cascadeCount] setter, assignments to the six fields and [update]),
    the array holds pairwise distinct existing objects, the two buffers
    [frusta] and [splits] have the same length, and every cascade is
    coherent: its light matrix has the last row 0 0 0 1, its view matrix is
    [invert] of the light matrix, its inverse projection is [invert] of the
    projection, and [matrix] and [inverseMatrix] are the two products
    projection * view and inverseView * inverseProjection. *)
Theorem reachable_coherent (s : CascadedShadows.t) :
  reachable s ->
  CascadedShadows.wf s
  /\ length (CascadedShadows.frusta s) = length (CascadedShadows.splits s)
  /\ forall (i : nat) (c : Cascade.t),
       CascadedShadows.cascade_at s i = Some c ->
       affine (Cascade.inverseViewMatrix c) /\ derived c.
Proof.
  induction 1 as [options|v s _ (Hwf & Hlen & Hat)|v s _ IH|v s _ IH|v s _ IH|v s _ IH
                  |v s _ IH|v s _ IH|s camera sunDirection ellipsoid s' _ (Hwf & Hlen & Hat) Hup];
    try exact IH.
  - split; [apply constructor_wf|].
    split.
    { unfold CascadedShadows.constructor.
      cbn [CascadedShadows.set_fade CascadedShadows.set_margin CascadedShadows.set_lambda
           CascadedShadows.set_mode CascadedShadows.set_far CascadedShadows.set_cascadeSize
           CascadedShadows.frusta CascadedShadows.splits].
      destruct (set_cascadeCount_buffers
                  (default (default 0%nat
                     (CascadedShadowsOptions.cascadeCount
                        CascadedShadows.cascadedShadowsOptionsDefaults))
                     (CascadedShadowsOptions.cascadeCount options))
                  CascadedShadows.initial) as [-> ->].
      reflexivity. }
    intros i c Hc.
    change (CascadedShadows.cascade_at
              (CascadedShadows.set_cascadeCount
                 (default (default 0%nat (Some 4%nat))
                    (CascadedShadowsOptions.cascadeCount options))
                 CascadedShadows.initial) i = Some c) in Hc.
    apply cascade_at_set_cascadeCount in Hc as [Hc| ->];
      [|split; [apply fresh_affine|apply fresh_derived]|apply initial_wf].
    unfold CascadedShadows.cascade_at, CascadedShadows.initial in Hc.
    cbn [CascadedShadows.cascades] in Hc. now rewrite lookup_nil in Hc.
  - split; [now apply set_cascadeCount_wf|].
    split.
    { destruct (set_cascadeCount_buffers v s) as [-> ->]. exact Hlen. }
    intros i c Hc. apply cascade_at_set_cascadeCount in Hc as [Hc| ->]; eauto.
    split; [apply fresh_affine|apply fresh_derived].
  - destruct (update_cascades s camera sunDirection ellipsoid Hwf)
      as (s'' & Hup' & Hwf' & Hn & _ & _ & _ & _ & _ & _ & Hfr & Hsp & Hat').
    assert (s'' = s') by congruence. subst s''.
    split; [exact Hwf'|].
    split.
    { rewrite Hfr, Hsp. unfold newFrusta. apply split_length. }
    intros i c Hc. pose proof (cascade_at_lt _ _ _ Hc) as Hi. rewrite Hn in Hi.
    destruct (Hat' i Hi) as (c0 & Hc0 & Hc').
    assert (c = updatedCascade s camera sunDirection ellipsoid i c0) by congruence.
    subst c. split; [|apply updatedCascade_is_derived].
    apply updatedCascade_affine. apply (Hat i c0 Hc0).
Qed.

End ReachableCoherent.

(** The instance built with the default options is a reachable state. *)
Lemma reachable_coherent_witness :
  reachable (H:=Reference.helpers) Reference.shadows
  /\ CascadedShadows.wf Reference.shadows
  /\ length (CascadedShadows.frusta Reference.shadows)
     = length (CascadedShadows.splits Reference.shadows).
Proof.
  assert (Hr : reachable (H:=Reference.helpers) Reference.shadows)
    by apply reachable_constructor.
  split; [exact Hr|].
  destruct (reachable_coherent (H:=Reference.helpers) Reference.shadows Hr) as (Hwf & Hlen & _).
  split; [exact Hwf | exact Hlen].
Defined.

(** ** [update], called again *)

(** [lookAt] keeps of the matrix it is called on the last row and the
    translation, and nothing else. *)
Lemma lookAt_frame (m : Matrix4.t) (eye target up : Vector3.t) :
  let L := Matrix4.lookAt Matrix4.new eye target up in
  Matrix4.lookAt m eye target up
  = Matrix4.mk (Matrix4.e0 L) (Matrix4.e1 L) (Matrix4.e2 L) (Matrix4.e3 m)
      (Matrix4.e4 L) (Matrix4.e5 L) (Matrix4.e6 L) (Matrix4.e7 m)
      (Matrix4.e8 L) (Matrix4.e9 L) (Matrix4.e10 L) (Matrix4.e11 m)
      (Matrix4.e12 m) (Matrix4.e13 m) (Matrix4.e14 m) (Matrix4.e15 m).
Proof.
  unfold Matrix4.lookAt. cbv zeta.
  destruct (Req_dec_T (Vector3.lengthSq (Vector3.crossVectors up _)) 0); reflexivity.
Qed.

Lemma lookAt_again (m : Matrix4.t) (eye target up p : Vector3.t) :
  Matrix4.setPosition
    (Matrix4.lookAt (Matrix4.setPosition (Matrix4.lookAt m eye target up) p) eye target up) p
  = Matrix4.setPosition (Matrix4.lookAt m eye target up) p.
Proof.
  rewrite (lookAt_frame (Matrix4.setPosition _ _)). rewrite (lookAt_frame m). reflexivity.
Qed.

Section Idempotent.

Context `{Helpers}.

Variables (camera : PerspectiveCamera.t) (sunDirection : Vector3.t)
  (ellipsoid : option Ellipsoid.t).

(** What [updatedCascade] reads of the instance. *)
Lemma updatedCascade_ext (s1 s2 : CascadedShadows.t) (i : nat) (c : Cascade.t) :
  CascadedShadows.cascadeCount s1 = CascadedShadows.cascadeCount s2 ->
  CascadedShadows.cascadeSize s1 = CascadedShadows.cascadeSize s2 ->
  CascadedShadows.far s1 = CascadedShadows.far s2 ->
  CascadedShadows.mode s1 = CascadedShadows.mode s2 ->
  CascadedShadows.lambda s1 = CascadedShadows.lambda s2 ->
  CascadedShadows.margin s1 = CascadedShadows.margin s2 ->
  CascadedShadows.fade s1 = CascadedShadows.fade s2 ->
  newFrusta s1 camera = newFrusta s2 camera ->
  updatedCascade s1 camera sunDirection ellipsoid i c
  = updatedCascade s2 camera sunDirection ellipsoid i c.
Proof.
  intros Hn Hsz Hfar Hmode Hlam Hmar Hfade Hfr.
  assert (Hsp : newSplits s1 camera = newSplits s2 camera).
  { unfold newSplits, shadowFar. now rewrite Hn, Hfar, Hmode, Hlam. }
  unfold updatedCascade. rewrite Hsp. f_equal.
  unfold CascadedShadows.placeLight, CascadedShadows.fitProjection.
  change (CascadedShadows.frusta (CascadedShadows.updateIntervals s1 camera))
    with (newFrusta s1 camera).
  change (CascadedShadows.frusta (CascadedShadows.updateIntervals s2 camera))
    with (newFrusta s2 camera).
  rewrite Hfr.
  destruct (newFrusta s2 camera !! i) as [frustum|]; [|reflexivity].
  assert (Hr : CascadedShadows.getFrustumRadius (CascadedShadows.updateIntervals s1 camera)
                 camera frustum
               = CascadedShadows.getFrustumRadius (CascadedShadows.updateIntervals s2 camera)
                   camera frustum)
    by (apply getFrustumRadius_ext; assumption).
  change (CascadedShadows.margin (CascadedShadows.updateIntervals s1 camera))
    with (CascadedShadows.margin s1).
  change (CascadedShadows.margin (CascadedShadows.updateIntervals s2 camera))
    with (CascadedShadows.margin s2).
  rewrite Hr, Hmar.
  set (c1 := Cascade.set_projectionMatrix _ _).
  assert (Ht : CascadedShadows.lightTarget (CascadedShadows.updateIntervals s1 camera)
                 camera sunDirection frustum c1
               = CascadedShadows.lightTarget (CascadedShadows.updateIntervals s2 camera)
                   camera sunDirection frustum c1)
    by (apply lightTarget_ext; [exact Hmar | exact Hsz | reflexivity]).
  rewrite Ht. reflexivity.
Qed.

Lemma Cascade_eq (a b : Cascade.t) :
  Cascade.interval a = Cascade.interval b ->
  Cascade.projectionMatrix a = Cascade.projectionMatrix b ->
  Cascade.inverseViewMatrix a = Cascade.inverseViewMatrix b ->
  derived a -> derived b -> a = b.
Proof.
  destruct a, b. unfold derived.
  cbn [Cascade.interval Cascade.matrix Cascade.inverseMatrix Cascade.projectionMatrix
       Cascade.inverseProjectionMatrix Cascade.viewMatrix Cascade.inverseViewMatrix].
  intros -> -> -> (-> & -> & -> & ->) (-> & -> & -> & ->). reflexivity.
Qed.

Lemma updatedCascade_no_frustum (s : CascadedShadows.t) (i : nat) (c : Cascade.t) :
  newFrusta s camera !! i = None ->
  Cascade.projectionMatrix (updatedCascade s camera sunDirection ellipsoid i c)
  = Cascade.projectionMatrix c
  /\ Cascade.inverseViewMatrix (updatedCascade s camera sunDirection ellipsoid i c)
     = Cascade.inverseViewMatrix c.
Proof.
  intros Hf. unfold updatedCascade, CascadedShadows.placeLight, CascadedShadows.fitProjection.
  change (CascadedShadows.frusta (CascadedShadows.updateIntervals s camera))
    with (newFrusta s camera).
  rewrite Hf. split; reflexivity.
Qed.

(** Running the four loop bodies on a cascade they have just run on
    changes nothing. *)
Lemma updatedCascade_idempotent (s : CascadedShadows.t) (i : nat) (c : Cascade.t) :
  updatedCascade s camera sunDirection ellipsoid i
    (updatedCascade s camera sunDirection ellipsoid i c)
  = updatedCascade s camera sunDirection ellipsoid i c.
Proof.
  set (c1 := updatedCascade s camera sunDirection ellipsoid i c).
  apply Cascade_eq;
    [| | |apply updatedCascade_is_derived|apply updatedCascade_is_derived].
  - subst c1. now rewrite !updatedCascade_interval.
  - destruct (newFrusta s camera !! i) as [frustum|] eqn:Hf.
    + subst c1. now rewrite !(updatedCascade_projectionMatrix _ _ _ _ _ _ frustum Hf).
    + now destruct (updatedCascade_no_frustum s i c1 Hf) as [-> _].
  - destruct (newFrusta s camera !! i) as [frustum|] eqn:Hf.
    + pose proof (updatedCascade_inverseViewMatrix s camera sunDirection ellipsoid i c1
                    frustum Hf) as H2.
      pose proof (updatedCascade_inverseViewMatrix s camera sunDirection ellipsoid i c
                    frustum Hf) as H1.
      cbv zeta in H1, H2. fold c1 in H1.
      rewrite H2.
      assert (Ht : CascadedShadows.lightTarget s camera sunDirection frustum
                     (updatedCascade s camera sunDirection ellipsoid i c1)
                   = CascadedShadows.lightTarget s camera sunDirection frustum c1).
      { apply lightTarget_ext; [reflexivity..|].
        subst c1. now rewrite !(updatedCascade_projectionMatrix _ _ _ _ _ _ frustum Hf). }
      rewrite Ht. rewrite H1 at 1. rewrite lookAt_again. now rewrite <- H1.
    + now destruct (updatedCascade_no_frustum s i c1 Hf) as [_ ->].
Qed.

End Idempotent.

Section UpdateTwice.

Context `{Helpers}.

(** X4.  [update] is idempotent: with the same camera (its near, far and
    up-to-date world matrix unchanged between the calls), sun direction and
    ellipsoid, a second call changes nothing, the state after the first
    call being a fixed point.  The frusta buffer is handed to
    [FrustumCorners.split] as its output; the theorem asks that what [split]
    returns does not depend on what the buffer held. *)
Theorem update_idempotent (s s' : CascadedShadows.t) (camera : PerspectiveCamera.t)
    (sunDirection : Vector3.t) (ellipsoid : option Ellipsoid.t) :
  (forall (fc : FrustumCorners.t) (sp : list R) (out out' : list FrustumCorners.t),
     split fc sp out = split fc sp out') ->
  CascadedShadows.wf s ->
  CascadedShadows.update s camera sunDirection ellipsoid = CascadedShadows.Returned s' ->
  CascadedShadows.update s' camera sunDirection ellipsoid = CascadedShadows.Returned s'.
Proof.
  intros Hout [Hnd Hin] Hup.
  destruct (update_spec s camera sunDirection ellipsoid Hnd)
    as (s1 & Hup1 & Hcs & Hsz & Hfar & Hmode & Hlam & Hmar & Hfade & Hfr & Hsp & Hlen
        & Hhit & Hmiss).
  assert (s1 = s') by congruence. subst s1. clear Hup1.
  assert (Hnd' : NoDup (CascadedShadows.cascades s')) by now rewrite Hcs.
  destruct (update_spec s' camera sunDirection ellipsoid Hnd')
    as (s2 & Hup2 & Hcs2 & Hsz2 & Hfar2 & Hmode2 & Hlam2 & Hmar2 & Hfade2 & Hfr2 & Hsp2
        & Hlen2 & Hhit2 & Hmiss2).
  rewrite Hup2. f_equal.
  assert (Hn : CascadedShadows.cascadeCount s' = CascadedShadows.cascadeCount s)
    by (unfold CascadedShadows.cascadeCount; now rewrite Hcs).
  assert (Hsplits : newSplits s' camera = newSplits s camera).
  { unfold newSplits, shadowFar. now rewrite Hn, Hfar, Hmode, Hlam. }
  assert (Hfrusta : newFrusta s' camera = newFrusta s camera).
  { unfold newFrusta, shadowFar. rewrite Hsplits, Hfar. apply Hout. }
  assert (Hstore : CascadedShadows.store s2 = CascadedShadows.store s').
  { apply list_eq. intros l.
    destruct (decide (l ∈ CascadedShadows.cascades s')) as [Hl|Hl].
    - apply list_elem_of_lookup_1 in Hl as [i Hi].
      rewrite (Hhit2 i l Hi). rewrite Hcs in Hi. rewrite (Hhit i l Hi).
      destruct (CascadedShadows.store s !! l) as [c|]; [|reflexivity].
      cbn. f_equal.
      rewrite (updatedCascade_ext camera sunDirection ellipsoid s' s) by assumption.
      apply updatedCascade_idempotent.
    - apply Hmiss2, Hl. }
  destruct s', s2.
  cbn [CascadedShadows.store CascadedShadows.cascades CascadedShadows.cascadeSize
       CascadedShadows.far CascadedShadows.mode CascadedShadows.lambda
       CascadedShadows.margin CascadedShadows.fade CascadedShadows.frusta
       CascadedShadows.splits] in *.
  rewrite Hfr2, Hsp2, Hfrusta, Hsplits, <- Hfr, <- Hsp.
  now subst.
Qed.

(** X5.  [update] changes the objects the array refers to and nothing
    else: the array, the number of objects ever created and the seven
    configuration values are as before, and an object that is not in the
    array keeps its contents.  In particular a cascade dropped by an earlier
    shrink of [cascadeCount] is not updated any more: who still holds it
    reads the old interval and matrices. *)
Theorem update_touches_only_current_cascades (s s' : CascadedShadows.t)
    (camera : PerspectiveCamera.t) (sunDirection : Vector3.t)
    (ellipsoid : option Ellipsoid.t) :
  CascadedShadows.wf s ->
  CascadedShadows.update s camera sunDirection ellipsoid = CascadedShadows.Returned s' ->
  CascadedShadows.cascades s' = CascadedShadows.cascades s
  /\ length (CascadedShadows.store s') = length (CascadedShadows.store s)
  /\ (CascadedShadows.cascadeSize s' = CascadedShadows.cascadeSize s
      /\ CascadedShadows.far s' = CascadedShadows.far s
      /\ CascadedShadows.mode s' = CascadedShadows.mode s
      /\ CascadedShadows.lambda s' = CascadedShadows.lambda s
      /\ CascadedShadows.margin s' = CascadedShadows.margin s
      /\ CascadedShadows.fade s' = CascadedShadows.fade s)
  /\ (forall l : nat, l ∉ CascadedShadows.cascades s ->
        CascadedShadows.store s' !! l = CascadedShadows.store s !! l)
  /\ (forall (n i l : nat) (s0 : CascadedShadows.t),
        CascadedShadows.wf s0 ->
        s = CascadedShadows.set_cascadeCount n s0 ->
        (n <= i)%nat ->
        CascadedShadows.cascades s0 !! i = Some l ->
        CascadedShadows.store s' !! l = CascadedShadows.store s0 !! l).
Proof.
  intros [Hnd Hin] Hup.
  destruct (update_spec s camera sunDirection ellipsoid Hnd)
    as (s1 & Hup1 & Hcs & Hsz & Hfar & Hmode & Hlam & Hmar & Hfade & Hfr & Hsp & Hlen
        & Hhit & Hmiss).
  assert (s1 = s') by congruence. subst s1. clear Hup1.
  split; [exact Hcs|]. split; [exact Hlen|].
  split; [repeat split; assumption|].
  split; [exact Hmiss|].
  intros n i l s0 [Hnd0 Hin0] -> Hni Hl.
  rewrite Forall_forall in Hin0.
  assert (Hl0 : (l < length (CascadedShadows.store s0))%nat)
    by (apply Hin0; eapply list_elem_of_lookup_2; eauto).
  rewrite Hmiss.
  - rewrite set_cascadeCount_store. now rewrite lookup_app_l.
  - rewrite set_cascadeCount_cascades. intros Hel.
    apply elem_of_app in Hel as [Hel|Hel].
    + apply list_elem_of_lookup_1 in Hel as [j Hj].
      apply lookup_take_Some in Hj as [Hj Hjn].
      assert (i = j) by (eapply NoDup_lookup; eauto). lia.
    + apply elem_of_seq in Hel. lia.
Qed.

End UpdateTwice.

(** ** The matrices [update] derives *)

Lemma makeOrthographic_determinant (l r t b n f : R) :
  r <> l -> t <> b -> f <> n ->
  Matrix4.determinant (Matrix4.makeOrthographic l r t b n f)
  = - 8 / ((r - l) * (t - b) * (f - n))
  /\ Matrix4.determinant (Matrix4.makeOrthographic l r t b n f) <> 0.
Proof.
  intros Hrl Htb Hfn.
  assert (E : Matrix4.determinant (Matrix4.makeOrthographic l r t b n f)
              = - 8 / ((r - l) * (t - b) * (f - n))).
  { unfold Matrix4.determinant, Matrix4.makeOrthographic.
    cbn [Matrix4.e0 Matrix4.e1 Matrix4.e2 Matrix4.e3 Matrix4.e4 Matrix4.e5
         Matrix4.e6 Matrix4.e7 Matrix4.e8 Matrix4.e9 Matrix4.e10 Matrix4.e11
         Matrix4.e12 Matrix4.e13 Matrix4.e14 Matrix4.e15].
    cbv zeta. field. repeat split; lra. }
  split; [exact E|]. rewrite E.
  assert (Hd : (r - l) * (t - b) * (f - n) <> 0).
  { repeat apply Rmult_integral_contrapositive_currified; lra. }
  intros H0. apply (Rmult_eq_compat_r ((r - l) * (t - b) * (f - n))) in H0.
  unfold Rdiv in H0. rewrite Rmult_assoc, Rinv_l in H0 by exact Hd. lra.
Qed.

(** ** The radius and the orthographic bounds *)

(** X6.  The fade widens the radius by farCorner0.z^2 / (8 * (far - near)),
    far being min(this.far, camera.far): with fade the radius is the radius
    without fade plus that term.  Without fade the radius is half the longer
    of the two diagonals, so it is not negative and twice the radius covers
    either diagonal.  The term has the sign of far - near: with the camera's
    near plane before the far distance the fade never shrinks the radius,
    and with near beyond far it does (strictly, where farCorner0.z is not
    zero). *)
Theorem getFrustumRadius_fade_widening (s : CascadedShadows.t)
    (camera : PerspectiveCamera.t) (frustum : FrustumCorners.t) :
  let near := PerspectiveCamera.near camera in
  let far := Rmin (CascadedShadows.far s) (PerspectiveCamera.far camera) in
  let z := Vector3.z (FrustumCorners.q0 (FrustumCorners.far frustum)) in
  let plain := CascadedShadows.getFrustumRadius (CascadedShadows.set_fade false s) camera frustum in
  let faded := CascadedShadows.getFrustumRadius (CascadedShadows.set_fade true s) camera frustum in
  far <> near ->
  faded = plain + z ^ 2 / (8 * (far - near))
  /\ 0 <= plain
  /\ Vector3.distanceTo (FrustumCorners.q0 (FrustumCorners.far frustum))
       (FrustumCorners.q2 (FrustumCorners.far frustum)) <= 2 * plain
  /\ Vector3.distanceTo (FrustumCorners.q0 (FrustumCorners.far frustum))
       (FrustumCorners.q2 (FrustumCorners.near frustum)) <= 2 * plain
  /\ (near < far -> plain <= faded)
  /\ (far < near -> faded <= plain)
  /\ (far < near -> z <> 0 -> faded < plain).
Proof.
  intros near far z plain faded Hfn.
  subst plain faded. unfold CascadedShadows.getFrustumRadius.
  cbn [CascadedShadows.fade CascadedShadows.set_fade CascadedShadows.far
       FrustumCorners.get].
  unfold Math.max, Math.min. fold near. fold far. fold z.
  set (d1 := Vector3.distanceTo _ (FrustumCorners.q2 (FrustumCorners.far frustum))).
  set (d2 := Vector3.distanceTo _ (FrustumCorners.q2 (FrustumCorners.near frustum))).
  assert (H1 : 0 <= d1) by apply sqrt_pos.
  pose proof (Rmax_l d1 d2) as Hl. pose proof (Rmax_r d1 d2) as Hr.
  set (d := Rmax d1 d2) in *.
  assert (E : (d + 0.25 * (z / (far - near)) ^ 2 * (far - near)) * 0.5
              = d * 0.5 + z ^ 2 / (8 * (far - near))).
  { replace 0.25 with (/ 4) by lra. replace 0.5 with (/ 2) by lra. field. lra. }
  rewrite E.
  assert (Hsq : 0 <= z ^ 2) by (simpl; nra).
  split; [reflexivity|]. split; [lra|]. split; [lra|]. split; [lra|].
  split; [|split].
  - intros Hlt.
    assert (0 <= z ^ 2 / (8 * (far - near))).
    { apply Rmult_le_pos; [exact Hsq|]. left. apply Rinv_0_lt_compat. lra. }
    lra.
  - intros Hlt.
    assert (z ^ 2 / (8 * (far - near)) <= 0).
    { replace (z ^ 2 / (8 * (far - near))) with (- (z ^ 2 / (8 * (near - far))))
        by (field; lra).
      assert (0 <= z ^ 2 / (8 * (near - far))).
      { apply Rmult_le_pos; [exact Hsq|]. left. apply Rinv_0_lt_compat. lra. }
      lra. }
    lra.
  - intros Hlt Hz.
    assert (z ^ 2 / (8 * (far - near)) < 0).
    { replace (z ^ 2 / (8 * (far - near))) with (- (z ^ 2 / (8 * (near - far))))
        by (field; lra).
      assert (0 < z ^ 2 / (8 * (near - far))).
      { apply Rmult_lt_0_compat; [simpl; nra|]. apply Rinv_0_lt_compat. lra. }
      lra. }
    lra.
Qed.

(** The camera of the sample scene: near = 1, far = min(1e4, 1000). *)
Lemma getFrustumRadius_fade_widening_witness :
  Rmin (CascadedShadows.far Reference.shadows) (PerspectiveCamera.far Reference.camera)
    <> PerspectiveCamera.near Reference.camera
  /\ 0 <= CascadedShadows.getFrustumRadius
            (CascadedShadows.set_fade false Reference.shadows) Reference.camera
            (Reference.frustumAt 1 1000).
Proof.
  assert (Hfn : Rmin (CascadedShadows.far Reference.shadows)
                  (PerspectiveCamera.far Reference.camera)
                <> PerspectiveCamera.near Reference.camera).
  { pose proof reference_near_far. lra. }
  split; [exact Hfn|].
  apply (getFrustumRadius_fade_widening Reference.shadows Reference.camera
           (Reference.frustumAt 1 1000) Hfn).
Defined.

(** X7.  [extractOrthographicTuple] undoes [makeOrthographic] on the four
    bounds, whatever near and far are, for any left <> right and
    top <> bottom; the other way round, rebuilding an orthographic matrix
    from the tuple of a matrix with nonzero elements 0 and 5 gives back its
    elements 0, 5, 12 and 13, and right - left = 2 / elements[0],
    top - bottom = 2 / elements[5].  The tuple depends on those four
    elements only; for the identity matrix it is (-1, 1, 1, -1). *)
Theorem extractOrthographicTuple_round_trip :
  (forall l r t b n f : R,
     r <> l -> t <> b ->
     extractOrthographicTuple (Matrix4.makeOrthographic l r t b n f) = (l, r, t, b))
  /\ (forall (m : Matrix4.t) (n f : R),
        Matrix4.e0 m <> 0 -> Matrix4.e5 m <> 0 ->
        let '(l, r, t, b) := extractOrthographicTuple m in
        let m' := Matrix4.makeOrthographic l r t b n f in
        r - l = 2 / Matrix4.e0 m /\ t - b = 2 / Matrix4.e5 m
        /\ Matrix4.e0 m' = Matrix4.e0 m /\ Matrix4.e5 m' = Matrix4.e5 m
        /\ Matrix4.e12 m' = Matrix4.e12 m /\ Matrix4.e13 m' = Matrix4.e13 m)
  /\ (forall m m' : Matrix4.t,
        Matrix4.e0 m = Matrix4.e0 m' -> Matrix4.e5 m = Matrix4.e5 m' ->
        Matrix4.e12 m = Matrix4.e12 m' -> Matrix4.e13 m = Matrix4.e13 m' ->
        extractOrthographicTuple m = extractOrthographicTuple m')
  /\ extractOrthographicTuple Matrix4.new = (-1, 1, 1, -1).
Proof.
  split; [exact extractOrthographicTuple_makeOrthographic|].
  split; [|split].
  - intros m n f H0 H5.
    unfold extractOrthographicTuple, Matrix4.makeOrthographic.
    cbn [Matrix4.e0 Matrix4.e12 Matrix4.e5 Matrix4.e13]. cbv zeta.
    assert (H20 : 2 / Matrix4.e0 m <> 0).
    { unfold Rdiv. apply Rmult_integral_contrapositive_currified; [lra|].
      now apply Rinv_neq_0_compat. }
    assert (H25 : 2 / Matrix4.e5 m <> 0).
    { unfold Rdiv. apply Rmult_integral_contrapositive_currified; [lra|].
      now apply Rinv_neq_0_compat. }
    repeat split; field; repeat split; (assumption || lra).
  - intros m m' H0 H5 H12 H13. unfold extractOrthographicTuple.
    now rewrite H0, H5, H12, H13.
  - unfold extractOrthographicTuple, Matrix4.new.
    cbn [Matrix4.e0 Matrix4.e12 Matrix4.e5 Matrix4.e13].
    repeat f_equal; field.
Qed.

(** ** The texel grid and the light-space box *)

Lemma round_shift (x : R) (k : Z) : Math.round (x + IZR k) = Math.round x + IZR k.
Proof.
  destruct (round_nearest x) as (j & Hj & Hlo & Hhi).
  rewrite (round_eq (x + IZR k) (j + k)); rewrite ?plus_IZR; lra.
Qed.

Lemma round_IZR (k : Z) : Math.round (IZR k) = IZR k.
Proof. apply round_eq. lra. Qed.

(** The texel sizes [snapToTexel] works with, in terms of the matrix. *)
Lemma snapToTexel_eq (cascadeSize : R) (P : Matrix4.t) (center : Vector3.t) :
  let texelWidth := 2 / Matrix4.e0 P / cascadeSize in
  let texelHeight := 2 / Matrix4.e5 P / cascadeSize in
  CascadedShadows.snapToTexel cascadeSize P center
  = Vector3.mk (Math.round (Vector3.x center / texelWidth) * texelWidth)
               (Math.round (Vector3.y center / texelHeight) * texelHeight)
               (Vector3.z center).
Proof.
  cbv zeta. unfold CascadedShadows.snapToTexel, extractOrthographicTuple.
  cbv zeta. unfold Vector3.setX, Vector3.setY.
  cbn [Vector3.x Vector3.y Vector3.z].
  generalize (2 / Matrix4.e0 P) (2 / Matrix4.e5 P). intros a b.
  replace ((a + a * - Matrix4.e12 P) / 2 - (a * - Matrix4.e12 P - a) / 2) with a by lra.
  replace ((b + b * - Matrix4.e13 P) / 2 - (b * - Matrix4.e13 P - b) / 2) with b by lra.
  reflexivity.
Qed.

Lemma snap_again (x w : R) :
  w <> 0 -> Math.round (Math.round (x / w) * w / w) * w = Math.round (x / w) * w.
Proof.
  intros Hw. destruct (round_nearest (x / w)) as (j & Hj & _).
  rewrite Hj. replace (IZR j * w / w) with (IZR j) by (field; exact Hw).
  now rewrite round_IZR.
Qed.

Lemma snap_shift (x w : R) (k : Z) :
  w <> 0 -> Math.round ((x + IZR k * w) / w) * w = Math.round (x / w) * w + IZR k * w.
Proof.
  intros Hw. replace ((x + IZR k * w) / w) with (x / w + IZR k) by (field; exact Hw).
  rewrite round_shift. ring.
Qed.

(** X8.  The rounding of the light-space target to texel increments
    works on a grid of steps (right - left) / cascadeSize = 2 / elements[0] /
    cascadeSize and (top - bottom) / cascadeSize = 2 / elements[5] /
    cascadeSize.  With nonzero steps it is idempotent (snapping a snapped
    target changes nothing), its result is a whole number of steps in x and
    in y, and it commutes with moving the target by whole steps: a target
    moved by kx steps in x, ky steps in y and anything in z snaps to the
    snapped target moved by the same. *)
Theorem snapToTexel_stable (cascadeSize : R) (projectionMatrix : Matrix4.t)
    (center : Vector3.t) (kx ky : Z) (dz : R) :
  cascadeSize <> 0 ->
  Matrix4.e0 projectionMatrix <> 0 -> Matrix4.e5 projectionMatrix <> 0 ->
  let texelWidth := 2 / Matrix4.e0 projectionMatrix / cascadeSize in
  let texelHeight := 2 / Matrix4.e5 projectionMatrix / cascadeSize in
  let snap := CascadedShadows.snapToTexel cascadeSize projectionMatrix in
  (let '(left', right', top, bottom) := extractOrthographicTuple projectionMatrix in
   (right' - left') / cascadeSize = texelWidth
   /\ (top - bottom) / cascadeSize = texelHeight)
  /\ snap (snap center) = snap center
  /\ snap (Vector3.mk (Vector3.x center + IZR kx * texelWidth)
                      (Vector3.y center + IZR ky * texelHeight)
                      (Vector3.z center + dz))
     = Vector3.mk (Vector3.x (snap center) + IZR kx * texelWidth)
                  (Vector3.y (snap center) + IZR ky * texelHeight)
                  (Vector3.z center + dz)
  /\ exists jx jy : Z,
       snap center = Vector3.mk (IZR jx * texelWidth) (IZR jy * texelHeight) (Vector3.z center).
Proof.
  intros Hs H0 H5 texelWidth texelHeight snap.
  assert (Hw : texelWidth <> 0).
  { subst texelWidth. unfold Rdiv.
    repeat apply Rmult_integral_contrapositive_currified;
      try apply Rinv_neq_0_compat; (assumption || lra). }
  assert (Hh : texelHeight <> 0).
  { subst texelHeight. unfold Rdiv.
    repeat apply Rmult_integral_contrapositive_currified;
      try apply Rinv_neq_0_compat; (assumption || lra). }
  split.
  { unfold extractOrthographicTuple. cbv zeta. subst texelWidth texelHeight.
    generalize (2 / Matrix4.e0 projectionMatrix) (2 / Matrix4.e5 projectionMatrix).
    intros a b. split; f_equal; lra. }
  subst snap. rewrite !snapToTexel_eq. cbv zeta.
  fold texelWidth texelHeight. cbn [Vector3.x Vector3.y Vector3.z].
  split; [|split].
  - now rewrite !snap_again.
  - now rewrite !snap_shift.
  - destruct (round_nearest (Vector3.x center / texelWidth)) as (jx & Hjx & _).
    destruct (round_nearest (Vector3.y center / texelHeight)) as (jy & Hjy & _).
    exists jx, jy. now rewrite Hjx, Hjy.
Qed.

(** The identity as projection matrix and two texels: steps of 1. *)
Lemma snapToTexel_stable_witness :
  (2 : R) <> 0 /\ Matrix4.e0 Matrix4.new <> 0 /\ Matrix4.e5 Matrix4.new <> 0
  /\ CascadedShadows.snapToTexel 2 Matrix4.new
       (CascadedShadows.snapToTexel 2 Matrix4.new (Vector3.mk 3.4 7.6 0))
     = CascadedShadows.snapToTexel 2 Matrix4.new (Vector3.mk 3.4 7.6 0).
Proof.
  assert (H2 : (2 : R) <> 0) by lra.
  assert (H0 : Matrix4.e0 Matrix4.new <> 0) by (cbn; lra).
  assert (H5 : Matrix4.e5 Matrix4.new <> 0) by (cbn; lra).
  split; [exact H2|]. split; [exact H0|]. split; [exact H5|].
  apply (snapToTexel_stable 2 Matrix4.new (Vector3.mk 3.4 7.6 0) 0 0 0 H2 H0 H5).
Defined.

(** X9.  The box built by the loop over the eight transformed corners is
    never empty and bounds each of the eight corners on each axis; the
    look-at target in light space is the midpoint of the box in x and y and
    the box's largest z plus the margin. *)
Theorem frustumBox_bounds (f : FrustumCorners.t) :
  exists mn mx : Vector3.t,
    CascadedShadows.frustumBox f = Some (mn, mx)
    /\ (forall (j : nat) (p : Vector3.t),
          p = FrustumCorners.get (FrustumCorners.near f) j
          \/ p = FrustumCorners.get (FrustumCorners.far f) j ->
          Vector3.x mn <= Vector3.x p <= Vector3.x mx
          /\ Vector3.y mn <= Vector3.y p <= Vector3.y mx
          /\ Vector3.z mn <= Vector3.z p <= Vector3.z mx)
    /\ (forall margin : R,
          CascadedShadows.boxTarget margin (CascadedShadows.frustumBox f)
          = Vector3.mk ((Vector3.x mn + Vector3.x mx) / 2)
                       ((Vector3.y mn + Vector3.y mx) / 2)
                       (Vector3.z mx + margin)).
Proof.
  unfold CascadedShadows.frustumBox, for_range. simpl.
  eexists _, _. split; [reflexivity|]. split.
  - intros j p Hp. cbn [Vector3.x Vector3.y Vector3.z].
    unfold Math.max, Math.min.
    repeat match goal with
    | |- context [Rmax ?a ?b] =>
        lazymatch a with
        | context [Rmax _ _] => fail
        | _ => lazymatch b with
               | context [Rmax _ _] => fail
               | _ => pose proof (Rmax_l a b); pose proof (Rmax_r a b);
                      generalize dependent (Rmax a b); intros
               end
        end
    | |- context [Rmin ?a ?b] =>
        lazymatch a with
        | context [Rmin _ _] => fail
        | _ => lazymatch b with
               | context [Rmin _ _] => fail
               | _ => pose proof (Rmin_l a b); pose proof (Rmin_r a b);
                      generalize dependent (Rmin a b); intros
               end
        end
    end.
    destruct Hp as [-> | ->]; destruct j as [|[|[|j]]]; simpl; lra.
  - intros margin. unfold CascadedShadows.boxTarget, Box3.getCenter, Box3.max,
      Vector3.setZ, Vector3.multiplyScalar, Vector3.add.
    cbn [Vector3.x Vector3.y Vector3.z]. f_equal; lra.
Qed.

(** ** Light space *)

Lemma new_affine : affine Matrix4.new.
Proof. repeat split. Qed.

Lemma lookAt_new_setPosition (eye target : Vector3.t) :
  Matrix4.lookAt Matrix4.new eye target DEFAULT_UP
  = Matrix4.setPosition (Matrix4.lookAt Matrix4.new eye target DEFAULT_UP) (Vector3.mk 0 0 0).
Proof. rewrite (lookAt_frame Matrix4.new). reflexivity. Qed.

(** The backward axis of a look-at that needs none of the two
    corrections: the normalised eye - target. *)
Lemma lookAt_axis (m : Matrix4.t) (eye target : Vector3.t) :
  let d := Vector3.subVectors eye target in
  Vector3.lengthSq d <> 0 ->
  Vector3.lengthSq (Vector3.crossVectors DEFAULT_UP (Vector3.normalize d)) <> 0 ->
  let L := Matrix4.lookAt m eye target DEFAULT_UP in
  Vector3.mk (Matrix4.e8 L) (Matrix4.e9 L) (Matrix4.e10 L) = Vector3.normalize d.
Proof.
  intros d Hd Hx L. subst L. unfold Matrix4.lookAt. cbv zeta. fold d.
  destruct (Req_dec_T (Vector3.lengthSq d) 0) as [E|_]; [contradiction|].
  destruct (Req_dec_T (Vector3.lengthSq (Vector3.crossVectors DEFAULT_UP (Vector3.normalize d))) 0)
    as [E|_]; [contradiction|].
  cbn [Matrix4.e8 Matrix4.e9 Matrix4.e10]. now destruct (Vector3.normalize d).
Qed.

(** X10.  For every sun direction (the zero vector and a direction along
    the up vector included) the light orientation matrix is an affine matrix
    without translation and of determinant 1, [invert] gives its inverse on
    both sides, and transforming to light space and back is the identity:
    lightOrientationMatrix * cameraToLightMatrix = camera.matrixWorld.  For a
    nonzero sun direction that is not along the up vector, the third column
    of the matrix (the z axis of light space) is the normalised sun
    direction. *)
Theorem lightOrientationMatrix_rotation (camera : PerspectiveCamera.t)
    (sunDirection : Vector3.t) :
  let L := CascadedShadows.lightOrientationMatrix sunDirection in
  affine L
  /\ Matrix4.position L = Vector3.mk 0 0 0
  /\ Matrix4.determinant L = 1
  /\ Matrix4.multiplyMatrices L (Matrix4.invert L) = Matrix4.new
  /\ Matrix4.multiplyMatrices (Matrix4.invert L) L = Matrix4.new
  /\ Matrix4.multiplyMatrices L (CascadedShadows.cameraToLightMatrix camera sunDirection)
     = PerspectiveCamera.matrixWorld camera
  /\ (Vector3.lengthSq sunDirection <> 0 ->
      Vector3.lengthSq (Vector3.crossVectors DEFAULT_UP (Vector3.normalize sunDirection)) <> 0 ->
      Vector3.mk (Matrix4.e8 L) (Matrix4.e9 L) (Matrix4.e10 L)
      = Vector3.normalize sunDirection).
Proof.
  intros L.
  set (eye := Vector3.setScalar Vector3.new 0).
  set (target := Vector3.multiplyScalar (Vector3.copy Vector3.new sunDirection) (-1)).
  assert (HL : L = Matrix4.setPosition
                     (Matrix4.lookAt Matrix4.new eye target DEFAULT_UP) (Vector3.mk 0 0 0))
    by apply lookAt_new_setPosition.
  destruct (light_matrix_invertible Matrix4.new eye target (Vector3.mk 0 0 0) new_affine)
    as (Haff & Hdet & Hr & Hl).
  rewrite <- HL in Haff, Hdet, Hr, Hl.
  split; [exact Haff|].
  split; [rewrite HL; reflexivity|].
  split; [exact Hdet|]. split; [exact Hr|]. split; [exact Hl|].
  split.
  - unfold CascadedShadows.cameraToLightMatrix, Matrix4.copy. fold L.
    now rewrite <- multiplyMatrices_assoc, Hr, multiplyMatrices_new_l.
  - intros Hs Hx.
    assert (Hd : Vector3.subVectors eye target = sunDirection).
    { subst eye target. destruct sunDirection.
      unfold Vector3.subVectors, Vector3.setScalar, Vector3.multiplyScalar, Vector3.copy.
      cbn [Vector3.x Vector3.y Vector3.z]. f_equal; ring. }
    pose proof (lookAt_axis Matrix4.new eye target) as Hax. cbv zeta in Hax.
    rewrite Hd in Hax. exact (Hax Hs Hx).
Qed.

Ltac matrix_fields :=
  cbn [Matrix4.e0 Matrix4.e1 Matrix4.e2 Matrix4.e3 Matrix4.e4 Matrix4.e5
       Matrix4.e6 Matrix4.e7 Matrix4.e8 Matrix4.e9 Matrix4.e10 Matrix4.e11
       Matrix4.e12 Matrix4.e13 Matrix4.e14 Matrix4.e15
       Vector3.x Vector3.y Vector3.z] in *.

(** The inverse of an invertible affine matrix is affine. *)
Lemma invert_affine (m : Matrix4.t) :
  affine m -> Matrix4.determinant m <> 0 -> affine (Matrix4.invert m).
Proof.
  destruct m. unfold affine, Matrix4.invert, Matrix4.determinant. matrix_fields.
  intros (-> & -> & -> & ->) Hdet. cbv zeta in *.
  destruct (Req_dec_T _ 0) as [E|_]; [contradiction|].
  matrix_fields. repeat split; field; intros E; apply Hdet; (etransitivity; [|exact E]); ring.
Qed.

(** Transforming a point by two affine matrices in turn is transforming it
    by their product. *)
Lemma applyToVector3_compose (a b : Matrix4.t) (v : Vector3.t) :
  affine a -> affine b ->
  Matrix4.applyToVector3 (Matrix4.applyToVector3 v b) a
  = Matrix4.applyToVector3 v (Matrix4.multiplyMatrices a b).
Proof.
  destruct a, b, v. unfold affine. matrix_fields.
  intros (-> & -> & -> & ->) (-> & -> & -> & ->).
  unfold Matrix4.applyToVector3, Matrix4.multiplyMatrices. matrix_fields.
  f_equal; field; lra.
Qed.

Lemma applyToVector3_new (v : Vector3.t) : Matrix4.applyToVector3 v Matrix4.new = v.
Proof.
  destruct v. unfold Matrix4.applyToVector3, Matrix4.new. matrix_fields.
  f_equal; field; lra.
Qed.

(** A point given in the frame of an affine matrix: its image. *)
Lemma applyToVector3_affine (m : Matrix4.t) (v : Vector3.t) :
  affine m ->
  Matrix4.applyToVector3 v m
  = Vector3.mk
      (Matrix4.e0 m * Vector3.x v + Matrix4.e4 m * Vector3.y v + Matrix4.e8 m * Vector3.z v
       + Matrix4.e12 m)
      (Matrix4.e1 m * Vector3.x v + Matrix4.e5 m * Vector3.y v + Matrix4.e9 m * Vector3.z v
       + Matrix4.e13 m)
      (Matrix4.e2 m * Vector3.x v + Matrix4.e6 m * Vector3.y v + Matrix4.e10 m * Vector3.z v
       + Matrix4.e14 m).
Proof.
  destruct m, v. unfold affine. matrix_fields. intros (-> & -> & -> & ->).
  unfold Matrix4.applyToVector3. matrix_fields. f_equal; field; lra.
Qed.

Lemma normalize_scaled (u v : Vector3.t) (k : R) :
  Vector3.lengthSq v = 1 -> 0 < k ->
  Vector3.x u = k * Vector3.x v -> Vector3.y u = k * Vector3.y v ->
  Vector3.z u = k * Vector3.z v ->
  Vector3.lengthSq u <> 0 /\ Vector3.normalize u = v.
Proof.
  intros Hv Hk Hx Hy Hz.
  assert (Hl : Vector3.lengthSq u = k * k).
  { unfold Vector3.lengthSq in *. rewrite Hx, Hy, Hz.
    transitivity (k * k * (Vector3.x v * Vector3.x v + Vector3.y v * Vector3.y v
                           + Vector3.z v * Vector3.z v)); [ring|]. rewrite Hv. ring. }
  split; [rewrite Hl; nra|].
  unfold Vector3.normalize, Vector3.length. rewrite Hl.
  rewrite sqrt_square by lra.
  destruct (Req_dec_T k 0) as [E|_]; [lra|].
  destruct u, v. unfold Vector3.multiplyScalar. matrix_fields. subst.
  f_equal; field; lra.
Qed.

Section ViewSpace.

Context `{Helpers}.

(** After [update] every index has its cascade and its sub-frustum. *)
Lemma update_cascade_frustum (s : CascadedShadows.t) (camera : PerspectiveCamera.t)
    (sunDirection : Vector3.t) (ellipsoid : option Ellipsoid.t) :
  CascadedShadows.wf s ->
  exists s' : CascadedShadows.t,
    CascadedShadows.update s camera sunDirection ellipsoid = CascadedShadows.Returned s'
    /\ CascadedShadows.cascadeCount s' = CascadedShadows.cascadeCount s
    /\ CascadedShadows.margin s' = CascadedShadows.margin s
    /\ CascadedShadows.cascadeSize s' = CascadedShadows.cascadeSize s
    /\ CascadedShadows.fade s' = CascadedShadows.fade s
    /\ CascadedShadows.far s' = CascadedShadows.far s
    /\ forall i : nat, (i < CascadedShadows.cascadeCount s')%nat ->
         exists (c0 : Cascade.t) (frustum : FrustumCorners.t),
           CascadedShadows.cascade_at s i = Some c0
           /\ CascadedShadows.cascade_at s' i
              = Some (updatedCascade s camera sunDirection ellipsoid i c0)
           /\ newFrusta s camera !! i = Some frustum
           /\ CascadedShadows.frusta s' !! i = Some frustum.
Proof.
  intros Hwf.
  destruct (update_cascades s camera sunDirection ellipsoid Hwf)
    as (s' & Hup & Hwf' & Hn & Hsz & Hfar & Hmode & Hlam & Hmar & Hfade & Hfr & Hsp & Hat).
  exists s'. repeat (split; [assumption|]).
  intros i Hi. rewrite Hn in Hi.
  destruct (Hat i Hi) as (c0 & Hc0 & Hc).
  destruct (lookup_lt_is_Some_2 (newFrusta s camera) i) as [frustum Hf];
    [now rewrite newFrusta_length|].
  exists c0, frustum. rewrite Hfr. auto.
Qed.

(** X11.  After [update], in every reachable state, the view matrix of
    each cascade is affine and sends the light's position to the origin.
    For a unit sun direction that is not along the up vector and a positive
    light distance, the z axis of the light matrix is minus the sun
    direction, and the view matrix sends the look-at target to
    (0, 0, distance): the target lies on the positive z axis of the view
    space, the light distance away. *)
Theorem update_view_space (s : CascadedShadows.t) (camera : PerspectiveCamera.t)
    (sunDirection : Vector3.t) (ellipsoid : option Ellipsoid.t) :
  reachable s ->
  exists s' : CascadedShadows.t,
    CascadedShadows.update s camera sunDirection ellipsoid = CascadedShadows.Returned s'
    /\ forall i : nat, (i < CascadedShadows.cascadeCount s')%nat ->
         exists (c : Cascade.t) (frustum : FrustumCorners.t),
           CascadedShadows.cascade_at s' i = Some c
           /\ CascadedShadows.frusta s' !! i = Some frustum
           /\ let target := CascadedShadows.lightTarget s' camera sunDirection frustum c in
              let distance :=
                CascadedShadows.lightDistance camera sunDirection (default WGS84 ellipsoid) in
              let position := CascadedShadows.lightPosition sunDirection distance target in
              let view := Cascade.viewMatrix c in
              let inverseView := Cascade.inverseViewMatrix c in
              affine view
              /\ Matrix4.applyToVector3 position view = Vector3.mk 0 0 0
              /\ (Vector3.lengthSq sunDirection = 1 ->
                  0 < distance ->
                  Vector3.lengthSq (Vector3.crossVectors DEFAULT_UP sunDirection) <> 0 ->
                  Vector3.mk (Matrix4.e8 inverseView) (Matrix4.e9 inverseView)
                    (Matrix4.e10 inverseView)
                  = Vector3.multiplyScalar sunDirection (-1)
                  /\ Matrix4.applyToVector3 target view = Vector3.mk 0 0 distance).
Proof.
  intros Hr. destruct (reachable_consistent s Hr) as (Hwf & Hat).
  destruct (update_cascade_frustum s camera sunDirection ellipsoid Hwf)
    as (s' & Hup & Hn & Hmar & Hsz & _ & _ & Hall).
  exists s'. split; [exact Hup|]. intros i Hi.
  destruct (Hall i Hi) as (c0 & frustum & Hc0 & Hc & Hf & Hf').
  exists (updatedCascade s camera sunDirection ellipsoid i c0), frustum.
  split; [exact Hc|]. split; [exact Hf'|].
  pose proof (updatedCascade_inverseViewMatrix s camera sunDirection ellipsoid i c0 frustum Hf)
    as HV. cbv zeta in HV.
  destruct (updatedCascade_is_derived s camera sunDirection ellipsoid i c0)
    as (_ & HVw & _ & _).
  set (c := updatedCascade s camera sunDirection ellipsoid i c0) in *.
  assert (Ht : CascadedShadows.lightTarget s' camera sunDirection frustum c
               = CascadedShadows.lightTarget s camera sunDirection frustum c)
    by (apply lightTarget_ext; auto).
  cbv zeta. rewrite Ht.
  set (target := CascadedShadows.lightTarget s camera sunDirection frustum c) in *.
  set (distance := CascadedShadows.lightDistance camera sunDirection (default WGS84 ellipsoid)) in *.
  set (position := CascadedShadows.lightPosition sunDirection distance target) in *.
  destruct (light_matrix_invertible (Cascade.inverseViewMatrix c0) target position position)
    as (Haff & Hdet & _ & Hl); [apply (Hat i c0 Hc0)|].
  cbv zeta in Haff, Hdet, Hl. rewrite <- HV in Haff, Hdet, Hl. rewrite <- HVw in Hl.
  assert (Haffv : affine (Cascade.viewMatrix c)).
  { rewrite HVw. apply invert_affine; [exact Haff|]. rewrite Hdet. lra. }
  assert (Hpos : Matrix4.applyToVector3 (Vector3.mk 0 0 0) (Cascade.inverseViewMatrix c)
                 = position).
  { rewrite (applyToVector3_affine _ _ Haff). rewrite HV.
    unfold Matrix4.setPosition. matrix_fields. destruct position. matrix_fields.
    f_equal; ring. }
  split; [exact Haffv|]. split.
  - rewrite <- Hpos. rewrite (applyToVector3_compose _ _ _ Haffv Haff), Hl.
    apply applyToVector3_new.
  - intros Hunit Hd Hx.
    set (back := Vector3.multiplyScalar sunDirection (-1)).
    assert (Hback : Vector3.lengthSq back = 1).
    { subst back. unfold Vector3.lengthSq, Vector3.multiplyScalar in *. matrix_fields. nra. }
    destruct (normalize_scaled (Vector3.subVectors target position) back distance Hback Hd)
      as [Hne Hnorm].
    1-3: subst back position; unfold Vector3.subVectors, CascadedShadows.lightPosition,
      Vector3.add, Vector3.multiplyScalar, Vector3.copy; matrix_fields; ring.
    assert (Hz : Vector3.mk (Matrix4.e8 (Cascade.inverseViewMatrix c))
                   (Matrix4.e9 (Cascade.inverseViewMatrix c))
                   (Matrix4.e10 (Cascade.inverseViewMatrix c)) = back).
    { rewrite HV. unfold Matrix4.setPosition. matrix_fields.
      pose proof (lookAt_axis (Cascade.inverseViewMatrix c0) target position) as Hax.
      cbv zeta in Hax. rewrite Hnorm in Hax. apply Hax; [exact Hne|].
      subst back. unfold Vector3.lengthSq, Vector3.crossVectors, Vector3.multiplyScalar,
        DEFAULT_UP in *. matrix_fields. nra. }
    split; [exact Hz|].
    assert (Htar : Matrix4.applyToVector3 (Vector3.mk 0 0 distance) (Cascade.inverseViewMatrix c)
                   = target).
    { rewrite (applyToVector3_affine _ _ Haff).
      pose proof (f_equal Vector3.x Hz) as Hz8. pose proof (f_equal Vector3.y Hz) as Hz9.
      pose proof (f_equal Vector3.z Hz) as Hz10.
      cbn [Vector3.x Vector3.y Vector3.z] in Hz8, Hz9, Hz10. rewrite Hz8, Hz9, Hz10.
      rewrite HV. unfold Matrix4.setPosition. matrix_fields.
      subst back position. unfold CascadedShadows.lightPosition, Vector3.add,
        Vector3.multiplyScalar, Vector3.copy. matrix_fields.
      destruct target. matrix_fields. f_equal; ring. }
    rewrite <- Htar at 1. rewrite (applyToVector3_compose _ _ _ Haffv Haff), Hl.
    apply applyToVector3_new.
Qed.

End ViewSpace.

Section MatricesInvertible.

Context `{Helpers}.

(** X12.  After [update], in every reachable state, each cascade whose
    radius and radius + margin are not zero has a projection matrix of
    determinant -1 / (radius^2 * (radius + margin)), and its derived matrices
    are inverses on both sides: projectionMatrix * inverseProjectionMatrix,
    inverseProjectionMatrix * projectionMatrix, matrix * inverseMatrix and
    inverseMatrix * matrix are the identity. *)
Theorem update_matrices_invertible (s : CascadedShadows.t)
    (camera : PerspectiveCamera.t) (sunDirection : Vector3.t)
    (ellipsoid : option Ellipsoid.t) :
  reachable s ->
  exists s' : CascadedShadows.t,
    CascadedShadows.update s camera sunDirection ellipsoid = CascadedShadows.Returned s'
    /\ forall i : nat, (i < CascadedShadows.cascadeCount s')%nat ->
         exists (c : Cascade.t) (frustum : FrustumCorners.t),
           CascadedShadows.cascade_at s' i = Some c
           /\ CascadedShadows.frusta s' !! i = Some frustum
           /\ let radius := CascadedShadows.getFrustumRadius s' camera frustum in
              (radius <> 0 -> radius + CascadedShadows.margin s' <> 0 ->
               Matrix4.determinant (Cascade.projectionMatrix c)
               = - 1 / (radius * radius * (radius + CascadedShadows.margin s'))
               /\ Matrix4.multiplyMatrices (Cascade.projectionMatrix c)
                    (Cascade.inverseProjectionMatrix c) = Matrix4.new
               /\ Matrix4.multiplyMatrices (Cascade.inverseProjectionMatrix c)
                    (Cascade.projectionMatrix c) = Matrix4.new
               /\ Matrix4.multiplyMatrices (Cascade.matrix c) (Cascade.inverseMatrix c)
                  = Matrix4.new
               /\ Matrix4.multiplyMatrices (Cascade.inverseMatrix c) (Cascade.matrix c)
                  = Matrix4.new).
Proof.
  intros Hr. destruct (reachable_consistent s Hr) as (Hwf & Hat).
  destruct (update_cascade_frustum s camera sunDirection ellipsoid Hwf)
    as (s' & Hup & Hn & Hmar & Hsz & Hfade & Hfar & Hall).
  exists s'. split; [exact Hup|]. intros i Hi.
  destruct (Hall i Hi) as (c0 & frustum & Hc0 & Hc & Hf & Hf').
  exists (updatedCascade s camera sunDirection ellipsoid i c0), frustum.
  split; [exact Hc|]. split; [exact Hf'|].
  intros radius Hrad Hrm.
  pose proof (updatedCascade_projectionMatrix s camera sunDirection ellipsoid i c0 frustum Hf)
    as HP. cbv zeta in HP.
  pose proof (updatedCascade_inverseViewMatrix s camera sunDirection ellipsoid i c0 frustum Hf)
    as HV. cbv zeta in HV.
  destruct (updatedCascade_is_derived s camera sunDirection ellipsoid i c0)
    as (HiP & HVw & HM & HiM).
  set (c := updatedCascade s camera sunDirection ellipsoid i c0) in *.
  assert (Hrs : CascadedShadows.getFrustumRadius s camera frustum = radius).
  { subst radius. apply getFrustumRadius_ext; congruence. }
  rewrite Hrs in HP. rewrite <- Hmar in HP.
  destruct (makeOrthographic_determinant (- radius) radius radius (- radius)
              (- CascadedShadows.margin s') (radius * 2 + CascadedShadows.margin s'))
    as [HdetP HdetP0]; [lra..|].
  rewrite <- HP in HdetP, HdetP0.
  destruct (light_matrix_invertible (Cascade.inverseViewMatrix c0)
              (CascadedShadows.lightTarget s camera sunDirection frustum c)
              (CascadedShadows.lightPosition sunDirection
                 (CascadedShadows.lightDistance camera sunDirection (default WGS84 ellipsoid))
                 (CascadedShadows.lightTarget s camera sunDirection frustum c))
              (CascadedShadows.lightPosition sunDirection
                 (CascadedShadows.lightDistance camera sunDirection (default WGS84 ellipsoid))
                 (CascadedShadows.lightTarget s camera sunDirection frustum c)))
    as (_ & _ & HVr & HVl); [apply (Hat i c0 Hc0)|].
  cbv zeta in HVr, HVl. rewrite <- HV in HVr, HVl.
  pose proof (Matrix4_invert_right _ HdetP0) as HPr.
  pose proof (Matrix4_invert_left _ HdetP0) as HPl.
  rewrite <- HiP in HPr, HPl. rewrite <- HVw in HVr, HVl.
  split; [rewrite HdetP; field; split; lra|].
  split; [exact HPr|]. split; [exact HPl|].
  rewrite HM, HiM. split.
  - rewrite multiplyMatrices_assoc.
    rewrite <- (multiplyMatrices_assoc (Cascade.viewMatrix c)).
    now rewrite HVl, multiplyMatrices_new_l.
  - rewrite multiplyMatrices_assoc.
    rewrite <- (multiplyMatrices_assoc (Cascade.inverseProjectionMatrix c)).
    now rewrite HPl, multiplyMatrices_new_l.
Qed.

End MatricesInvertible.

(** ** The sample scene *)

Lemma reference_reachable : reachable (H:=Reference.helpers) Reference.shadows.
Proof. apply reachable_constructor. Qed.

Lemma reference_shadowFar : shadowFar Reference.shadows Reference.camera = 1000.
Proof.
  unfold shadowFar, Math.min. change (Rmin 1e4 1000 = 1000). rewrite Rmin_right; lra.
Qed.

(** The far face of every sub-frustum of the sample scene sits at its
    split depth, which lies beyond the camera's near plane. *)
Lemma reference_frustum (i : nat) (frustum : FrustumCorners.t) :
  newFrusta (H:=Reference.helpers) Reference.shadows Reference.camera !! i = Some frustum ->
  exists d : R,
    1 < d
    /\ FrustumCorners.q0 (FrustumCorners.far frustum) = Vector3.mk d d (- d)
    /\ FrustumCorners.q2 (FrustumCorners.far frustum) = Vector3.mk (- d) (- d) (- d).
Proof.
  unfold newFrusta. cbn [split setFromCamera Reference.helpers].
  unfold Reference.splitCorners, Reference.cornersFromCamera.
  rewrite reference_shadowFar.
  intros Hf. apply list_lookup_fmap_Some in Hf as (j & Hfr & Hj).
  apply lookup_seq in Hj as [Hj Hlt]. cbn in Hj. subst j.
  destruct (lookup_lt_is_Some_2 _ _ Hlt) as [d Hd]. rewrite Hd in Hfr.
  pose proof Hd as Hd'. unfold newSplits in Hd'.
  apply splitFrustum_lookup_inv in Hd' as [Hi Hdv].
  assert (Hb : PerspectiveCamera.near Reference.camera < d
               <= shadowFar Reference.shadows Reference.camera).
  { rewrite Hdv. apply splitAt_bounds.
    - lia.
    - exact reference_near_far.
    - exact reference_lambda.
    - lia. }
  change (PerspectiveCamera.near Reference.camera) with 1 in Hb.
  exists d. split; [lra|]. subst frustum.
  cbn [FrustumCorners.far FrustumCorners.q0 FrustumCorners.q2].
  unfold Reference.lerpQuad, Reference.depthParameter, Reference.frustumAt,
    Reference.lerpVectors, Vector3.add, Vector3.multiplyScalar, Vector3.subVectors.
  cbn [FrustumCorners.far FrustumCorners.near FrustumCorners.q0 FrustumCorners.q2
       Vector3.x Vector3.y Vector3.z].
  change (PerspectiveCamera.near Reference.camera) with 1.
  split; f_equal; field; lra.
Qed.

Lemma reference_radius_pos (s' : CascadedShadows.t) (i : nat) (frustum : FrustumCorners.t) :
  CascadedShadows.fade s' = CascadedShadows.fade Reference.shadows ->
  CascadedShadows.far s' = CascadedShadows.far Reference.shadows ->
  newFrusta (H:=Reference.helpers) Reference.shadows Reference.camera !! i = Some frustum ->
  0 < CascadedShadows.getFrustumRadius s' Reference.camera frustum.
Proof.
  intros Hfade Hfar Hf.
  rewrite (getFrustumRadius_ext s' Reference.shadows) by assumption.
  destruct (reference_frustum i frustum Hf) as (d & Hd & H0 & H2).
  unfold CascadedShadows.getFrustumRadius. cbn [FrustumCorners.get].
  rewrite H0, H2.
  change (CascadedShadows.fade Reference.shadows) with true. cbv iota.
  fold (shadowFar Reference.shadows Reference.camera). rewrite reference_shadowFar.
  change (PerspectiveCamera.near Reference.camera) with 1.
  unfold Math.max.
  set (d1 := Vector3.distanceTo _ (Vector3.mk (- d) (- d) (- d))).
  set (d2 := Vector3.distanceTo _ _).
  assert (H1 : 0 < d1).
  { subst d1. unfold Vector3.distanceTo, Vector3.distanceToSquared.
    cbn [Vector3.x Vector3.y Vector3.z]. apply sqrt_lt_R0. nra. }
  pose proof (Rmax_l d1 d2).
  cbn [Vector3.z].
  assert (0 <= 0.25 * (- d / (1000 - 1)) ^ 2 * (1000 - 1)).
  { apply Rmult_le_pos; [|lra]. apply Rmult_le_pos; [lra|]. apply pow2_ge_0. }
  lra.
Qed.

(** ** The properties of [update] at the sample scene *)

(** At the sample scene, whose [split] does not read its output buffer, a
    second [update] returns the state of the first. *)
Lemma update_idempotent_witness :
  CascadedShadows.wf Reference.shadows
  /\ exists s' : CascadedShadows.t,
       CascadedShadows.update (H:=Reference.helpers) Reference.shadows Reference.camera
         Reference.sun None
       = CascadedShadows.Returned s'
       /\ CascadedShadows.update (H:=Reference.helpers) s' Reference.camera Reference.sun None
          = CascadedShadows.Returned s'.
Proof.
  split; [exact reference_wf|].
  destruct (update_cascades (H:=Reference.helpers) Reference.shadows Reference.camera
              Reference.sun None reference_wf) as (s' & Hup & _).
  exists s'. split; [exact Hup|].
  exact (update_idempotent (H:=Reference.helpers) Reference.shadows s' Reference.camera
           Reference.sun None (fun _ _ _ _ => eq_refl) reference_wf Hup).
Defined.

(** [update] at the sample scene keeps the array. *)
Lemma update_touches_only_current_cascades_witness :
  CascadedShadows.wf Reference.shadows
  /\ exists s' : CascadedShadows.t,
       CascadedShadows.update (H:=Reference.helpers) Reference.shadows Reference.camera
         Reference.sun None
       = CascadedShadows.Returned s'
       /\ CascadedShadows.cascades s' = CascadedShadows.cascades Reference.shadows.
Proof.
  split; [exact reference_wf|].
  destruct (update_cascades (H:=Reference.helpers) Reference.shadows Reference.camera
              Reference.sun None reference_wf) as (s' & Hup & _).
  exists s'. split; [exact Hup|].
  apply (update_touches_only_current_cascades (H:=Reference.helpers) Reference.shadows s'
           Reference.camera Reference.sun None reference_wf Hup).
Defined.

(** At the sample scene the first cascade has a positive radius and no
    margin: its matrix and inverse matrix multiply to the identity. *)
Lemma update_matrices_invertible_witness :
  reachable (H:=Reference.helpers) Reference.shadows
  /\ exists (s' : CascadedShadows.t) (c : Cascade.t),
       CascadedShadows.update (H:=Reference.helpers) Reference.shadows Reference.camera
         Reference.sun None
       = CascadedShadows.Returned s'
       /\ CascadedShadows.cascade_at s' 0 = Some c
       /\ Matrix4.multiplyMatrices (Cascade.matrix c) (Cascade.inverseMatrix c) = Matrix4.new
       /\ Matrix4.multiplyMatrices (Cascade.inverseMatrix c) (Cascade.matrix c) = Matrix4.new.
Proof.
  split; [exact reference_reachable|].
  destruct (update_matrices_invertible (H:=Reference.helpers) Reference.shadows
              Reference.camera Reference.sun None reference_reachable)
    as (s' & Hup & Hall).
  destruct (update_cascades (H:=Reference.helpers) Reference.shadows Reference.camera
              Reference.sun None reference_wf)
    as (s1 & Hup1 & _ & Hn & _ & Hfar & _ & _ & Hmar & Hfade & Hfr & _).
  assert (s1 = s') by congruence. subst s1.
  destruct (Hall 0%nat) as (c & frustum & Hc & Hf & Hinv).
  { rewrite Hn, reference_cascadeCount. lia. }
  rewrite Hfr in Hf.
  pose proof (reference_radius_pos s' 0 frustum Hfade Hfar Hf) as Hpos.
  exists s', c. split; [exact Hup|]. split; [exact Hc|].
  apply Hinv.
  - lra.
  - rewrite Hmar. change (CascadedShadows.margin Reference.shadows) with 0. lra.
Defined.

(** At the sample scene (unit sun direction (0, 0, 1), light distance 1000)
    the first cascade's target is at (0, 0, 1000) in view space. *)
Lemma update_view_space_witness :
  reachable (H:=Reference.helpers) Reference.shadows
  /\ exists (s' : CascadedShadows.t) (c : Cascade.t) (frustum : FrustumCorners.t),
       CascadedShadows.update (H:=Reference.helpers) Reference.shadows Reference.camera
         Reference.sun None
       = CascadedShadows.Returned s'
       /\ CascadedShadows.cascade_at s' 0 = Some c
       /\ CascadedShadows.frusta s' !! 0%nat = Some frustum
       /\ Matrix4.applyToVector3
            (CascadedShadows.lightTarget s' Reference.camera
               Reference.sun frustum c)
            (Cascade.viewMatrix c)
          = Vector3.mk 0 0 1000.
Proof.
  split; [exact reference_reachable|].
  destruct (update_view_space (H:=Reference.helpers) Reference.shadows
              Reference.camera Reference.sun None reference_reachable)
    as (s' & Hup & Hall).
  destruct (update_cascades (H:=Reference.helpers) Reference.shadows Reference.camera
              Reference.sun None reference_wf)
    as (s1 & Hup1 & _ & Hn & _).
  assert (s1 = s') by congruence. subst s1.
  destruct (Hall 0%nat) as (c & frustum & Hc & Hf & _ & _ & Hview).
  { rewrite Hn, reference_cascadeCount. lia. }
  exists s', c, frustum. split; [exact Hup|]. split; [exact Hc|]. split; [exact Hf|].
  change (default WGS84 None) with Reference.unitSphere in Hview.
  rewrite reference_lightDistance in Hview.
  apply Hview.
  - unfold Reference.sun, Vector3.lengthSq. cbn [Vector3.x Vector3.y Vector3.z]. lra.
  - lra.
  - unfold Reference.sun, Vector3.lengthSq, Vector3.crossVectors, DEFAULT_UP.
    cbn [Vector3.x Vector3.y Vector3.z]. lra.
Defined.

(** ** The defines of the material *)

(** X13.  The accessors [depthPacking] and [useShapeDetail] of the
    material: the getter returns what the setter was given; setting the
    value the getter returns leaves the material as it is, [needsUpdate]
    not set; setting another value sets [needsUpdate] once and rewrites the
    one define (DEPTH_PACKING to the numeral, USE_SHAPE_DETAIL to "1" or
    deleted).  After construction [depthPacking] is 0 and [useShapeDetail]
    is true. *)
Theorem define_accessors_round_trip (m : CloudsShadowMaterial.t) :
  (forall v : nat, ShadowMaterial.depthPacking (ShadowMaterial.set_depthPacking v m) = Some v)
  /\ (forall v : nat,
        ShadowMaterial.depthPacking m = Some v -> ShadowMaterial.set_depthPacking v m = m)
  /\ (forall v : nat,
        ShadowMaterial.depthPacking m <> Some v ->
        CloudsShadowMaterial.version (ShadowMaterial.set_depthPacking v m)
        = S (CloudsShadowMaterial.version m)
        /\ CloudsShadowMaterial.defines (ShadowMaterial.set_depthPacking v m)
           = <["DEPTH_PACKING"%string := CloudsShadowMaterial.numberToString v]>
               (CloudsShadowMaterial.defines m))
  /\ (forall b : bool,
        ShadowMaterial.useShapeDetail (ShadowMaterial.set_useShapeDetail b m) = b)
  /\ ShadowMaterial.set_useShapeDetail (ShadowMaterial.useShapeDetail m) m = m
  /\ (forall b : bool,
        b <> ShadowMaterial.useShapeDetail m ->
        CloudsShadowMaterial.version (ShadowMaterial.set_useShapeDetail b m)
        = S (CloudsShadowMaterial.version m)
        /\ CloudsShadowMaterial.defines (ShadowMaterial.set_useShapeDetail b m)
             !! "USE_SHAPE_DETAIL"%string
           = if b then Some "1"%string else None)
  /\ (forall a b : nat,
        ShadowMaterial.depthPacking (CloudsShadowMaterial.constructor a b) = Some 0%nat
        /\ ShadowMaterial.useShapeDetail (CloudsShadowMaterial.constructor a b) = true).
Proof.
  split; [|split; [|split; [|split; [|split; [|split]]]]].
  - intros v. unfold ShadowMaterial.set_depthPacking.
    destruct (decide (Some v <> ShadowMaterial.depthPacking m)) as [Hne|He].
    + unfold ShadowMaterial.depthPacking, ShadowMaterial.define. cbn.
      rewrite lookup_insert_eq. apply toNumber_numberToString.
    + destruct (decide (Some v = ShadowMaterial.depthPacking m)) as [E|E]; [now symmetry|].
      contradiction.
  - intros v Hv. unfold ShadowMaterial.set_depthPacking.
    rewrite decide_False; [reflexivity|]. intros Hne. now apply Hne.
  - intros v Hv. unfold ShadowMaterial.set_depthPacking.
    rewrite decide_True by (intros E; now apply Hv). split; reflexivity.
  - intros b. unfold ShadowMaterial.set_useShapeDetail.
    destruct (decide (b <> ShadowMaterial.useShapeDetail m)) as [Hne|He].
    + unfold ShadowMaterial.useShapeDetail, ShadowMaterial.define, ShadowMaterial.undefine.
      destruct b; cbn.
      * rewrite lookup_insert_eq. apply bool_decide_eq_true. eauto.
      * rewrite lookup_delete_eq. apply bool_decide_eq_false. now intros [? ?].
    + destruct (decide (b = ShadowMaterial.useShapeDetail m)) as [E|E]; [now symmetry|].
      contradiction.
  - unfold ShadowMaterial.set_useShapeDetail. rewrite decide_False; [reflexivity|].
    intros Hne. now apply Hne.
  - intros b Hb. unfold ShadowMaterial.set_useShapeDetail.
    rewrite decide_True by exact Hb.
    destruct b; cbn; [rewrite lookup_insert_eq|rewrite lookup_delete_eq]; split; reflexivity.
  - intros a b. split; [|apply bool_decide_eq_true]; vm_compute; eauto.
Qed.

Lemma keyedUpdate_frame (k k' : string) test v (m : CloudsShadowMaterial.t) :
  k <> k' ->
  CloudsShadowMaterial.defines (keyedUpdate k test v m) !! k'
  = CloudsShadowMaterial.defines m !! k'.
Proof.
  intros Hk. unfold keyedUpdate. destruct (test _); [|reflexivity].
  cbn. now rewrite lookup_partial_alter_ne.
Qed.

Lemma keyedUpdate_commute (k k' : string) test test' v v' (m : CloudsShadowMaterial.t) :
  k <> k' ->
  keyedUpdate k test v (keyedUpdate k' test' v' m)
  = keyedUpdate k' test' v' (keyedUpdate k test v m).
Proof.
  intros Hk. unfold keyedUpdate.
  destruct (test' (CloudsShadowMaterial.defines m !! k')) eqn:E';
    destruct (test (CloudsShadowMaterial.defines m !! k)) eqn:E; cbn;
    rewrite ?lookup_partial_alter_ne by congruence; rewrite ?E, ?E'; try reflexivity.
  f_equal. apply partial_alter_partial_alter_ne. congruence.
Qed.

Lemma set_cascadeCount_keyed (value : nat) (m : CloudsShadowMaterial.t) :
  CloudsShadowMaterial.set_cascadeCount value m
  = keyedUpdate "CASCADE_COUNT"
      (fun o => bool_decide (Some value <> CloudsShadowMaterial.toNumber o))
      (Some (CloudsShadowMaterial.numberToString value)) m.
Proof.
  unfold CloudsShadowMaterial.set_cascadeCount, keyedUpdate, CloudsShadowMaterial.cascadeCount.
  destruct (decide _) as [Hy|Hn].
  - now rewrite bool_decide_eq_true_2.
  - now rewrite bool_decide_eq_false_2.
Qed.

Lemma set_depthPacking_keyed (value : nat) (m : CloudsShadowMaterial.t) :
  ShadowMaterial.set_depthPacking value m
  = keyedUpdate "DEPTH_PACKING"
      (fun o => bool_decide (Some value <> CloudsShadowMaterial.toNumber o))
      (Some (CloudsShadowMaterial.numberToString value)) m.
Proof.
  unfold ShadowMaterial.set_depthPacking, keyedUpdate, ShadowMaterial.depthPacking.
  destruct (decide _) as [Hy|Hn].
  - now rewrite bool_decide_eq_true_2.
  - now rewrite bool_decide_eq_false_2.
Qed.

Lemma set_useShapeDetail_keyed (value : bool) (m : CloudsShadowMaterial.t) :
  ShadowMaterial.set_useShapeDetail value m
  = keyedUpdate "USE_SHAPE_DETAIL"
      (fun o => bool_decide (value <> bool_decide (is_Some o)))
      (if value then Some "1"%string else None) m.
Proof.
  unfold ShadowMaterial.set_useShapeDetail, keyedUpdate, ShadowMaterial.useShapeDetail.
  destruct (decide _) as [Hy|Hn].
  - rewrite bool_decide_eq_true_2 by exact Hy. now destruct value.
  - now rewrite bool_decide_eq_false_2.
Qed.

Lemma perspectiveDefine_keyed (camera : Camera.t) (m : CloudsShadowMaterial.t) :
  ShadowMaterial.perspectiveDefine camera m
  = keyedUpdate "PERSPECTIVE_CAMERA"
      (fun o =>
         if decide (Camera.isPerspectiveCamera camera = Some true)
         then bool_decide (o <> Some "1"%string) else bool_decide (is_Some o))
      (if decide (Camera.isPerspectiveCamera camera = Some true)
       then Some "1"%string else None) m.
Proof.
  unfold ShadowMaterial.perspectiveDefine, keyedUpdate.
  destruct (decide (Camera.isPerspectiveCamera camera = Some true)).
  - destruct (decide _) as [Hy|Hn].
    + now rewrite bool_decide_eq_true_2.
    + now rewrite bool_decide_eq_false_2.
  - destruct (decide _) as [Hy|Hn].
    + now rewrite bool_decide_eq_true_2.
    + now rewrite bool_decide_eq_false_2.
Qed.

(** X14.  The four setters of a define ([cascadeCount], [depthPacking],
    [useShapeDetail] and the PERSPECTIVE_CAMERA step of
    [copyCameraSettings]) do not interfere: none changes what the getter of
    another returns, and any two of them commute, the material (defines and
    version) being the same in either order. *)
Theorem define_setters_independent (m : CloudsShadowMaterial.t) (count packing : nat)
    (detail : bool) (camera : Camera.t) :
  let setCount := CloudsShadowMaterial.set_cascadeCount count in
  let setPacking := ShadowMaterial.set_depthPacking packing in
  let setDetail := ShadowMaterial.set_useShapeDetail detail in
  let setCamera := ShadowMaterial.perspectiveDefine camera in
  (CloudsShadowMaterial.cascadeCount (setPacking m) = CloudsShadowMaterial.cascadeCount m
   /\ CloudsShadowMaterial.cascadeCount (setDetail m) = CloudsShadowMaterial.cascadeCount m
   /\ CloudsShadowMaterial.cascadeCount (setCamera m) = CloudsShadowMaterial.cascadeCount m
   /\ ShadowMaterial.depthPacking (setCount m) = ShadowMaterial.depthPacking m
   /\ ShadowMaterial.depthPacking (setDetail m) = ShadowMaterial.depthPacking m
   /\ ShadowMaterial.depthPacking (setCamera m) = ShadowMaterial.depthPacking m
   /\ ShadowMaterial.useShapeDetail (setCount m) = ShadowMaterial.useShapeDetail m
   /\ ShadowMaterial.useShapeDetail (setPacking m) = ShadowMaterial.useShapeDetail m
   /\ ShadowMaterial.useShapeDetail (setCamera m) = ShadowMaterial.useShapeDetail m)
  /\ (setCount (setPacking m) = setPacking (setCount m)
      /\ setCount (setDetail m) = setDetail (setCount m)
      /\ setPacking (setDetail m) = setDetail (setPacking m)
      /\ setCamera (setCount m) = setCount (setCamera m)
      /\ setCamera (setPacking m) = setPacking (setCamera m)
      /\ setCamera (setDetail m) = setDetail (setCamera m)).
Proof.
  cbv zeta.
  unfold CloudsShadowMaterial.cascadeCount, ShadowMaterial.depthPacking,
    ShadowMaterial.useShapeDetail.
  rewrite !set_cascadeCount_keyed, !set_depthPacking_keyed, !set_useShapeDetail_keyed,
    !perspectiveDefine_keyed.
  split.
  - repeat split; rewrite keyedUpdate_frame; (reflexivity || discriminate).
  - repeat split; apply keyedUpdate_commute; discriminate.
Qed.

Section CameraSettings.

Variable correctAtmosphereAltitude :
  Ellipsoid.t -> bool -> Vector3.t -> R -> Vector3.t -> Vector3.t.

(** X15.  [copyCameraSettings]: afterwards the define PERSPECTIVE_CAMERA
    is "1" for a camera whose [isPerspectiveCamera] is true and absent for
    any other, every other define is as before, and [needsUpdate] was set
    exactly when the defines changed; a second call with the same camera
    leaves defines and version alone.  The uniforms projectionMatrix,
    viewMatrix, inverseProjectionMatrix, cameraNear and cameraFar hold the
    camera's projectionMatrix, matrixWorldInverse, projectionMatrixInverse,
    near and far; depthBuffer and resolution are untouched. *)
Theorem copyCameraSettings_perspective_define (camera : Camera.t) (s : ShadowMaterial.t) :
  let copy := ShadowMaterial.copyCameraSettings correctAtmosphereAltitude in
  let s' := copy camera s in
  let defines t := CloudsShadowMaterial.defines (ShadowMaterial.material t) in
  let version t := CloudsShadowMaterial.version (ShadowMaterial.material t) in
  defines s' !! "PERSPECTIVE_CAMERA"%string
  = (if decide (Camera.isPerspectiveCamera camera = Some true)
     then Some "1"%string else None)
  /\ (forall k : string, k <> "PERSPECTIVE_CAMERA"%string -> defines s' !! k = defines s !! k)
  /\ (defines s' = defines s -> version s' = version s)
  /\ (defines s' <> defines s -> version s' = S (version s))
  /\ ShadowMaterial.material (copy camera s') = ShadowMaterial.material s'
  /\ (let u := ShadowMaterial.uniformsOf s' in
      ShadowMaterial.u_projectionMatrix u = Camera.projectionMatrix camera
      /\ ShadowMaterial.u_viewMatrix u = Camera.matrixWorldInverse camera
      /\ ShadowMaterial.u_inverseProjectionMatrix u = Camera.projectionMatrixInverse camera
      /\ ShadowMaterial.u_cameraNear u = Camera.near camera
      /\ ShadowMaterial.u_cameraFar u = Camera.far camera
      /\ ShadowMaterial.u_depthBuffer u
         = ShadowMaterial.u_depthBuffer (ShadowMaterial.uniformsOf s)
      /\ ShadowMaterial.u_resolution u
         = ShadowMaterial.u_resolution (ShadowMaterial.uniformsOf s)).
Proof.
  cbv zeta. unfold ShadowMaterial.copyCameraSettings.
  cbn [ShadowMaterial.material ShadowMaterial.uniformsOf ShadowMaterial.u_projectionMatrix
       ShadowMaterial.u_viewMatrix ShadowMaterial.u_inverseProjectionMatrix
       ShadowMaterial.u_cameraNear ShadowMaterial.u_cameraFar
       ShadowMaterial.u_depthBuffer ShadowMaterial.u_resolution].
  set (m := ShadowMaterial.material s).
  assert (Hkey : CloudsShadowMaterial.defines (ShadowMaterial.perspectiveDefine camera m)
                   !! "PERSPECTIVE_CAMERA"%string
                 = (if decide (Camera.isPerspectiveCamera camera = Some true)
                    then Some "1"%string else None)).
  { unfold ShadowMaterial.perspectiveDefine.
    destruct (decide (Camera.isPerspectiveCamera camera = Some true)).
    - destruct (decide (_ <> Some "1"%string)) as [Hy|Hn].
      + cbn. apply lookup_insert_eq.
      + destruct (CloudsShadowMaterial.defines m !! "PERSPECTIVE_CAMERA"%string)
          as [v|] eqn:E.
        * destruct (decide (v = "1"%string)) as [->|Hv]; [reflexivity|].
          exfalso. apply Hn. congruence.
        * exfalso. apply Hn. discriminate.
    - destruct (decide (is_Some _)) as [Hy|Hn].
      + cbn. apply lookup_delete_eq.
      + now apply eq_None_not_Some. }
  assert (Hidem : ShadowMaterial.perspectiveDefine camera
                    (ShadowMaterial.perspectiveDefine camera m)
                  = ShadowMaterial.perspectiveDefine camera m).
  { unfold ShadowMaterial.perspectiveDefine at 1. rewrite Hkey.
    destruct (decide (Camera.isPerspectiveCamera camera = Some true)).
    - rewrite decide_False; [reflexivity|]. intros Hne. now apply Hne.
    - rewrite decide_False; [reflexivity|]. now intros [? ?]. }
  split; [exact Hkey|].
  split.
  { intros k Hk. rewrite perspectiveDefine_keyed. apply keyedUpdate_frame. congruence. }
  split; [|split].
  - intros Hd. unfold ShadowMaterial.perspectiveDefine in *.
    destruct (decide (Camera.isPerspectiveCamera camera = Some true)).
    + destruct (decide (_ <> Some "1"%string)) as [Hy|Hn]; [|reflexivity].
      exfalso. apply Hy. rewrite <- Hd. cbn. apply lookup_insert_eq.
    + destruct (decide (is_Some _)) as [Hy|Hn]; [|reflexivity].
      exfalso. destruct Hy as [v Hv]. rewrite <- Hd in Hv. cbn in Hv.
      now rewrite lookup_delete_eq in Hv.
  - intros Hd. unfold ShadowMaterial.perspectiveDefine in *.
    destruct (decide (Camera.isPerspectiveCamera camera = Some true)).
    + destruct (decide (_ <> Some "1"%string)) as [Hy|Hn]; [reflexivity|].
      now contradiction Hd.
    + destruct (decide (is_Some _)) as [Hy|Hn]; [reflexivity|].
      now contradiction Hd.
  - split; [exact Hidem|]. repeat split.
Qed.

End CameraSettings.

(** ** [CascadedShadowMaps]: the flag and the setters *)

Section ShadowMaps.

Context {MaterialStates : Type}.
Variable setCount : nat -> CascadedDirectionalLights.t -> CascadedDirectionalLights.t.
Variable materialStates_update : CascadedShadowMaps.t MaterialStates -> MaterialStates.
Context `{Helpers}.

(** X16.  The setters of [CascadedShadowMaps] compare before they mark:
    far, mode, lambda, margin, fade, disableLastCascadeCutoff and
    cascadeCount, given the current value, leave the instance as it is, the
    flag [needsUpdateFrusta] included; given another value they store it and
    raise the flag, and change nothing else (the cascadeCount setter hands
    the count to the lights' [setCount]). *)
Theorem shadow_maps_setters_compare (s : CascadedShadowMaps.t MaterialStates) :
  let far := CascadedShadowMaps.far s in
  let mode := CascadedShadowMaps.mode s in
  let lambda := CascadedShadowMaps.lambda s in
  let margin := CascadedShadowMaps.margin s in
  let fade := CascadedShadowMaps.fade s in
  let cutoff := CascadedShadowMaps.disableLastCascadeCutoff s in
  (CascadedShadowMaps.set_far far s = s
   /\ CascadedShadowMaps.set_mode mode s = s
   /\ CascadedShadowMaps.set_lambda lambda s = s
   /\ CascadedShadowMaps.set_margin margin s = s
   /\ CascadedShadowMaps.set_fade fade s = s
   /\ CascadedShadowMaps.set_disableLastCascadeCutoff cutoff s = s
   /\ CascadedShadowMaps.set_cascadeCount setCount (CascadedShadowMaps.cascadeCount s) s = s)
  /\ (forall v, v <> far ->
        raisesFlag s (CascadedShadowMaps.set_far v s) (v, mode, lambda, margin, fade, cutoff))
  /\ (forall v, v <> mode ->
        raisesFlag s (CascadedShadowMaps.set_mode v s) (far, v, lambda, margin, fade, cutoff))
  /\ (forall v, v <> lambda ->
        raisesFlag s (CascadedShadowMaps.set_lambda v s) (far, mode, v, margin, fade, cutoff))
  /\ (forall v, v <> margin ->
        raisesFlag s (CascadedShadowMaps.set_margin v s) (far, mode, lambda, v, fade, cutoff))
  /\ (forall v, v <> fade ->
        raisesFlag s (CascadedShadowMaps.set_fade v s) (far, mode, lambda, margin, v, cutoff))
  /\ (forall v, v <> cutoff ->
        raisesFlag s (CascadedShadowMaps.set_disableLastCascadeCutoff v s)
          (far, mode, lambda, margin, fade, v))
  /\ (forall v : nat,
        v <> CascadedShadowMaps.cascadeCount s ->
        let s' := CascadedShadowMaps.set_cascadeCount setCount v s in
        CascadedShadowMaps.needsUpdateFrusta s' = true
        /\ CascadedShadowMaps.directionalLights s'
           = setCount v (CascadedShadowMaps.directionalLights s)
        /\ configuration s' = configuration s
        /\ frustaState s' = frustaState s).
Proof.
  cbv zeta.
  unfold CascadedShadowMaps.set_far, CascadedShadowMaps.set_mode,
    CascadedShadowMaps.set_lambda, CascadedShadowMaps.set_margin,
    CascadedShadowMaps.set_fade, CascadedShadowMaps.set_disableLastCascadeCutoff,
    CascadedShadowMaps.set_cascadeCount, CascadedShadowMaps.far, CascadedShadowMaps.mode,
    CascadedShadowMaps.lambda, CascadedShadowMaps.margin, CascadedShadowMaps.fade,
    CascadedShadowMaps.disableLastCascadeCutoff, raisesFlag.
  split.
  { repeat split;
      first [ destruct (Req_dec_T _ _); [reflexivity|contradiction]
            | rewrite decide_False; [reflexivity|]; intros Hne; now apply Hne ]. }
  repeat match goal with |- _ /\ _ => split end; intros v Hv;
    first [ destruct (Req_dec_T _ _); [contradiction|]
          | rewrite decide_True by exact Hv ];
    repeat split.
Qed.

(** *** The loop of [update] *)

Lemma for_range_outcome_S (n : nat)
    (body : nat -> CascadedShadowMaps.t MaterialStates
            -> CascadedShadowMaps.outcome MaterialStates)
    (s : CascadedShadowMaps.t MaterialStates) :
  CascadedShadowMaps.for_range_outcome (S n) body s
  = CascadedShadowMaps.bind (CascadedShadowMaps.for_range_outcome n body s) (body n).
Proof. unfold CascadedShadowMaps.for_range_outcome. now rewrite seq_S, fold_left_app. Qed.

(** The lights after [n] rounds of the loop of [update]. *)
Lemma place_loop (n : nat) (s : CascadedShadowMaps.t MaterialStates) :
  (n <= length (CascadedShadowMaps.cascadedFrusta s))%nat ->
  exists L : list DirectionalLight.t,
    stateOf (CascadedShadowMaps.for_range_outcome n CascadedShadowMaps.placeLight s)
    = CascadedShadowMaps.set_cascadedLights L s
    /\ length L = length (lightsOf s)
    /\ (forall i : nat,
          L !! i = (if decide (i < Nat.min n (length (lightsOf s)))%nat
                    then placedLight s i else fun l => l) <$> lightsOf s !! i)
    /\ CascadedShadowMaps.for_range_outcome n CascadedShadowMaps.placeLight s
       = if decide (n <= length (lightsOf s))%nat
         then CascadedShadowMaps.Returned (CascadedShadowMaps.set_cascadedLights L s)
         else CascadedShadowMaps.Thrown CascadedShadowMaps.TypeError
                (CascadedShadowMaps.set_cascadedLights L s).
Proof.
  induction n as [|n IH]; intros Hn.
  - exists (lightsOf s). split; [now destruct s as [? [] ]|]. split; [reflexivity|].
    split.
    + intros i. rewrite decide_False by lia. now destruct (lightsOf s !! i).
    + rewrite decide_True by lia. cbn. now destruct s as [? [] ].
  - destruct IH as (L & Hst & Hlen & HL & Hout); [lia|].
    rewrite for_range_outcome_S, Hout.
    destruct (decide (n <= length (lightsOf s))%nat) as [Hle|Hgt].
    + cbn [CascadedShadowMaps.bind]. unfold CascadedShadowMaps.placeLight.
      change (CascadedShadowMaps.cascadedFrusta (CascadedShadowMaps.set_cascadedLights L s))
        with (CascadedShadowMaps.cascadedFrusta s).
      destruct (lookup_lt_is_Some_2 (CascadedShadowMaps.cascadedFrusta s) n) as [frustum Hf];
        [lia|].
      rewrite Hf.
      change (CascadedDirectionalLights.cascadedLights
                (CascadedShadowMaps.directionalLights
                   (CascadedShadowMaps.set_cascadedLights L s))) with L.
      destruct (L !! n) as [light|] eqn:El.
      * assert (Hlt : (n < length (lightsOf s))%nat)
          by (rewrite <- Hlen; eapply lookup_lt_Some; eauto).
        eexists. split; [reflexivity|]. split; [now rewrite length_insert|].
        split.
        -- intros i. destruct (decide (i = n)) as [->|Hne].
           ++ rewrite list_lookup_insert_eq by lia.
              rewrite decide_True by lia.
              rewrite HL in El. rewrite decide_False in El by lia.
              destruct (lightsOf s !! n) as [l0|]; [|discriminate].
              cbn in El. injection El as <-. cbn. f_equal.
              unfold placedLight. rewrite Hf. reflexivity.
           ++ rewrite list_lookup_insert_ne by congruence. rewrite HL.
              destruct (decide (i < Nat.min n (length (lightsOf s)))%nat),
                (decide (i < Nat.min (S n) (length (lightsOf s)))%nat);
                try reflexivity; lia.
        -- rewrite decide_True by lia. reflexivity.
      * assert (Hge : (length (lightsOf s) <= n)%nat)
          by (rewrite <- Hlen; now apply lookup_ge_None).
        exists L. split; [reflexivity|]. split; [exact Hlen|]. split.
        -- intros i. rewrite HL.
           destruct (decide (i < Nat.min n (length (lightsOf s)))%nat),
             (decide (i < Nat.min (S n) (length (lightsOf s)))%nat);
             try reflexivity; lia.
        -- rewrite decide_False by lia. reflexivity.
    + cbn [CascadedShadowMaps.bind]. exists L. split; [reflexivity|].
      split; [exact Hlen|]. split.
      * intros i. rewrite HL.
        destruct (decide (i < Nat.min n (length (lightsOf s)))%nat),
          (decide (i < Nat.min (S n) (length (lightsOf s)))%nat);
          try reflexivity; lia.
      * rewrite decide_False by lia. reflexivity.
Qed.

End ShadowMaps.

Section ShadowMapsUpdate.

Context {MaterialStates : Type}.
Variable materialStates_update : CascadedShadowMaps.t MaterialStates -> MaterialStates.
Context `{Helpers}.

(** The loop of [updateCascades] writes the first [n] entries. *)
Lemma cascades_loop (f : nat -> CascadedShadowMaps.interval) (n : nat)
    (a : list CascadedShadowMaps.interval) :
  for_range n (fun i a => array_set a i (f i)) a = map f (seq 0 n) ++ drop n a.
Proof.
  induction n as [|n IH].
  - now rewrite drop_0.
  - rewrite for_range_S, IH. unfold array_set.
    assert (Hlen : length (map f (seq 0 n)) = n) by now rewrite length_map, length_seq.
    rewrite length_app, Hlen, length_drop.
    rewrite seq_S, map_app. cbn [map Nat.add].
    destruct (decide (n < n + (length a - n))%nat) as [Hlt|Hge].
    + destruct (lookup_lt_is_Some_2 a n) as [b Hb]; [lia|].
      rewrite (drop_S _ _ _ Hb).
      rewrite insert_app_r_alt by lia. rewrite Hlen, Nat.sub_diag. cbn.
      now rewrite <- app_assoc.
    + rewrite !drop_ge by lia. now rewrite !app_nil_r.
Qed.

Lemma mapsSplits_length (s : CascadedShadowMaps.t MaterialStates) :
  length (mapsSplits s) = CascadedShadowMaps.cascadeCount s.
Proof. apply splitFrustum_length. Qed.

Lemma mapsFrusta_length (s : CascadedShadowMaps.t MaterialStates) :
  length (mapsFrusta s) = CascadedShadowMaps.cascadeCount s.
Proof. unfold mapsFrusta. now rewrite split_length, mapsSplits_length. Qed.

(** [updateCascades]: what it returns, and when it throws. *)
Lemma updateCascades_spec (s : CascadedShadowMaps.t MaterialStates) :
  let s1 := afterCascades s in
  if CascadedShadowMaps.disableLastCascadeCutoff s
     && bool_decide (CascadedShadowMaps.cascadeCount s = 0%nat)
  then CascadedShadowMaps.updateCascades s
       = CascadedShadowMaps.Thrown CascadedShadowMaps.TypeError
           (CascadedShadowMaps.set_cascades (CascadedShadowMaps.cascades s) s1)
  else CascadedShadowMaps.updateCascades s = CascadedShadowMaps.Returned s1.
Proof.
  cbv zeta. unfold afterCascades, CascadedShadowMaps.updateCascades. cbv zeta.
  fold (mapsSplits s). fold (mapsFrusta s).
  unfold Math.min. fold (mapsSplits s). fold (mapsFrusta s).
  rewrite cascades_loop.
  set (n := CascadedShadowMaps.cascadeCount s).
  set (f := CascadedShadowMaps.intervalOf (mapsSplits s)).
  assert (Hlen : length (map f (seq 0 n)) = n) by now rewrite length_map, length_seq.
  assert (Hmap : forall g : nat -> CascadedShadowMaps.interval,
             (forall i, (i < n)%nat -> g i = mapsInterval s (mapsSplits s) i) ->
             map g (seq 0 n) = map (mapsInterval s (mapsSplits s)) (seq 0 n)).
  { intros g Hg. apply map_ext_in. intros i Hi. apply in_seq in Hi. apply Hg. lia. }
  destruct (CascadedShadowMaps.disableLastCascadeCutoff s) eqn:Ecut; cbn [andb].
  - destruct n as [|n'] eqn:En.
    + cbn. rewrite drop_0. reflexivity.
    + rewrite bool_decide_eq_false_2 by lia.
      rewrite at_index_pred.
      assert (Hl : (map f (seq 0 (S n')) ++ drop (S n') (CascadedShadowMaps.cascades s)) !! n'
                   = Some (f n')).
      { rewrite lookup_app_l by (rewrite Hlen; lia).
        rewrite list_lookup_fmap, lookup_seq_lt by lia. reflexivity. }
      rewrite Hl. f_equal. unfold CascadedShadowMaps.set_cascades.
      cbn [CascadedShadowMaps.needsUpdateFrusta CascadedShadowMaps.directionalLights
           CascadedShadowMaps.materialStates CascadedShadowMaps.mainFrustum
           CascadedShadowMaps.cascadedFrusta CascadedShadowMaps.splits
           CascadedShadowMaps._far CascadedShadowMaps._mode CascadedShadowMaps._lambda
           CascadedShadowMaps._margin CascadedShadowMaps._fade
           CascadedShadowMaps._disableLastCascadeCutoff CascadedShadowMaps.mainCamera].
      f_equal. cbn [Nat.pred].
      rewrite insert_app_l by (rewrite Hlen; lia).
      rewrite take_app_length' by (rewrite length_insert; now rewrite Hlen).
      apply list_eq. intros i.
      destruct (decide (i = n')) as [->|Hne].
      * rewrite list_lookup_insert_eq by (rewrite Hlen; lia).
        rewrite list_lookup_fmap, lookup_seq_lt by lia. cbn.
        unfold mapsInterval. fold n. rewrite En, Ecut. cbn [andb Nat.pred].
        rewrite bool_decide_eq_true_2 by reflexivity. reflexivity.
      * rewrite list_lookup_insert_ne by congruence.
        rewrite !list_lookup_fmap. destruct (seq 0 (S n') !! i) as [j|] eqn:Ej; [|reflexivity].
        apply lookup_seq in Ej as [-> Hj]. cbn.
        unfold mapsInterval. fold n. rewrite En, Ecut. cbn [andb Nat.pred].
        rewrite bool_decide_eq_false_2 by exact Hne. reflexivity.
  - f_equal. unfold CascadedShadowMaps.set_cascades.
    cbn [CascadedShadowMaps.needsUpdateFrusta CascadedShadowMaps.directionalLights
         CascadedShadowMaps.materialStates CascadedShadowMaps.mainFrustum
         CascadedShadowMaps.cascadedFrusta CascadedShadowMaps.splits
         CascadedShadowMaps._far CascadedShadowMaps._mode CascadedShadowMaps._lambda
         CascadedShadowMaps._margin CascadedShadowMaps._fade
         CascadedShadowMaps._disableLastCascadeCutoff CascadedShadowMaps.mainCamera].
    f_equal. rewrite take_app_length' by now rewrite Hlen.
    apply Hmap. intros i Hi. unfold mapsInterval. now rewrite Ecut.
Qed.

(** The lights after [n] rounds of the loop of [updateShadowBounds]. *)
Lemma fit_loop (n : nat) (s : CascadedShadowMaps.t MaterialStates) :
  exists L : list DirectionalLight.t,
    for_range n
      (fun i s =>
         match CascadedShadowMaps.cascadedFrusta s !! i with
         | Some frustum =>
             CascadedShadowMaps.set_cascadedLights
               (alter (CascadedShadowMaps.fitShadowCamera s frustum) i
                  (CascadedDirectionalLights.cascadedLights
                     (CascadedShadowMaps.directionalLights s)))
               s
         | None => s
         end)
      s
    = CascadedShadowMaps.set_cascadedLights L s
    /\ length L = length (lightsOf s)
    /\ forall i : nat,
         L !! i = (if decide (i < n)%nat then fittedLight s i else fun l => l)
                    <$> lightsOf s !! i.
Proof.
  induction n as [|n (L & Hst & Hlen & HL)].
  - exists (lightsOf s). split; [now destruct s as [? [] ]|]. split; [reflexivity|].
    intros i. rewrite decide_False by lia. now destruct (lightsOf s !! i).
  - rewrite for_range_S, Hst.
    change (CascadedShadowMaps.cascadedFrusta (CascadedShadowMaps.set_cascadedLights L s))
      with (CascadedShadowMaps.cascadedFrusta s).
    destruct (CascadedShadowMaps.cascadedFrusta s !! n) as [frustum|] eqn:Hf.
    + eexists. split; [reflexivity|].
      change (CascadedDirectionalLights.cascadedLights
                (CascadedShadowMaps.directionalLights
                   (CascadedShadowMaps.set_cascadedLights L s))) with L.
      split; [now rewrite length_alter|].
      intros i. destruct (decide (i = n)) as [->|Hne].
      * rewrite list_lookup_alter_eq, HL. rewrite decide_False by lia.
        rewrite decide_True by lia.
        destruct (lightsOf s !! n) as [l0|]; [|reflexivity]. cbn. f_equal.
        unfold fittedLight. rewrite Hf. reflexivity.
      * rewrite list_lookup_alter_ne by congruence. rewrite HL.
        destruct (decide (i < n)%nat), (decide (i < S n)%nat); try reflexivity; lia.
    + exists L. split; [reflexivity|]. split; [exact Hlen|].
      intros i. rewrite HL.
      destruct (decide (i < n)%nat), (decide (i < S n)%nat); try reflexivity; try lia.
      assert (i = n) by lia. subst i.
      destruct (lightsOf s !! n); [|reflexivity]. cbn. f_equal.
      unfold fittedLight. now rewrite Hf.
Qed.

End ShadowMapsUpdate.

Section ShadowMapsTheorems.

Context {MaterialStates : Type}.
Variable materialStates_update : CascadedShadowMaps.t MaterialStates -> MaterialStates.
Context `{Helpers}.

(** The state [updateFrusta] returns: the lights fitted, then the material
    states refreshed. *)
Lemma updateFrusta_spec (s : CascadedShadowMaps.t MaterialStates) :
  if CascadedShadowMaps.disableLastCascadeCutoff s
     && bool_decide (CascadedShadowMaps.cascadeCount s = 0%nat)
  then CascadedShadowMaps.updateFrusta materialStates_update s
       = CascadedShadowMaps.Thrown CascadedShadowMaps.TypeError
           (CascadedShadowMaps.set_cascades (CascadedShadowMaps.cascades s) (afterCascades s))
  else exists L : list DirectionalLight.t,
         let s2 := CascadedShadowMaps.set_cascadedLights L (afterCascades s) in
         CascadedShadowMaps.updateFrusta materialStates_update s
         = CascadedShadowMaps.Returned
             (CascadedShadowMaps.set_materialStates (materialStates_update s2) s2)
         /\ length L = length (lightsOf s)
         /\ forall i : nat, L !! i = fittedLight (afterCascades s) i <$> lightsOf s !! i.
Proof.
  pose proof (updateCascades_spec s) as Hc. cbv zeta in Hc.
  unfold CascadedShadowMaps.updateFrusta.
  destruct (CascadedShadowMaps.disableLastCascadeCutoff s
            && bool_decide (CascadedShadowMaps.cascadeCount s = 0%nat)).
  - now rewrite Hc.
  - rewrite Hc. cbn [CascadedShadowMaps.bind].
    unfold CascadedShadowMaps.updateShadowBounds.
    change (CascadedShadowMaps.cascadedFrusta (afterCascades s)) with (mapsFrusta s).
    change (CascadedDirectionalLights.cascadedLights
              (CascadedShadowMaps.directionalLights (afterCascades s))) with (lightsOf s).
    rewrite decide_True by (rewrite mapsFrusta_length; reflexivity).
    destruct (fit_loop (length (mapsFrusta s)) (afterCascades s)) as (L & Hst & Hlen & HL).
    rewrite Hst. cbn [CascadedShadowMaps.bind].
    exists L. split; [reflexivity|]. split; [exact Hlen|].
    intros i. rewrite HL.
    change (lightsOf (afterCascades s)) with (lightsOf s).
    destruct (decide (i < length (mapsFrusta s))%nat) as [Hlt|Hge]; [reflexivity|].
    rewrite mapsFrusta_length in Hge.
    rewrite (lookup_ge_None_2 (lightsOf s) i); [reflexivity|].
    unfold CascadedShadowMaps.cascadeCount, lightsOf in *. lia.
Qed.

(** [update] on a clear flag is the loop over the lights alone. *)
Lemma shadow_maps_update_clean (s : CascadedShadowMaps.t MaterialStates) :
  CascadedShadowMaps.needsUpdateFrusta s = false ->
  CascadedShadowMaps.update materialStates_update s
  = CascadedShadowMaps.for_range_outcome (length (CascadedShadowMaps.cascadedFrusta s))
      CascadedShadowMaps.placeLight s.
Proof. intros Hf. unfold CascadedShadowMaps.update. now rewrite Hf. Qed.

(** [update] on a raised flag, with a last cascade to cut: the frusta are
    recomputed, then the lights are placed. *)
Lemma shadow_maps_update_dirty (s : CascadedShadowMaps.t MaterialStates) :
  CascadedShadowMaps.needsUpdateFrusta s = true ->
  (CascadedShadowMaps.disableLastCascadeCutoff s = true ->
   (1 <= CascadedShadowMaps.cascadeCount s)%nat) ->
  exists (L2 L4 : list DirectionalLight.t),
    let s1 := afterCascades (CascadedShadowMaps.set_needsUpdateFrusta false s) in
    let s2 := CascadedShadowMaps.set_cascadedLights L2 s1 in
    let s3 := CascadedShadowMaps.set_materialStates (materialStates_update s2) s2 in
    CascadedShadowMaps.update materialStates_update s
    = CascadedShadowMaps.Returned (CascadedShadowMaps.set_cascadedLights L4 s3)
    /\ length L2 = length (lightsOf s)
    /\ length L4 = length (lightsOf s)
    /\ (forall i : nat, L2 !! i = fittedLight s1 i <$> lightsOf s !! i)
    /\ (forall i : nat, L4 !! i = placedLight s3 i <$> L2 !! i).
Proof.
  intros Hflag Hcut.
  set (s0 := CascadedShadowMaps.set_needsUpdateFrusta false s).
  pose proof (updateFrusta_spec s0) as Hf.
  assert (Hno : CascadedShadowMaps.disableLastCascadeCutoff s0
                && bool_decide (CascadedShadowMaps.cascadeCount s0 = 0%nat) = false).
  { change (CascadedShadowMaps.disableLastCascadeCutoff s0)
      with (CascadedShadowMaps.disableLastCascadeCutoff s).
    change (CascadedShadowMaps.cascadeCount s0) with (CascadedShadowMaps.cascadeCount s).
    destruct (CascadedShadowMaps.disableLastCascadeCutoff s); [|reflexivity].
    cbn. apply bool_decide_eq_false_2. specialize (Hcut eq_refl). lia. }
  rewrite Hno in Hf. destruct Hf as (L2 & Hup & Hlen2 & HL2). cbv zeta in Hup.
  change (lightsOf s0) with (lightsOf s) in Hlen2, HL2.
  unfold CascadedShadowMaps.update. rewrite Hflag. fold s0. rewrite Hup.
  cbn [CascadedShadowMaps.bind].
  set (s1 := afterCascades s0) in *.
  set (s2 := CascadedShadowMaps.set_cascadedLights L2 s1) in *.
  set (s3 := CascadedShadowMaps.set_materialStates (materialStates_update s2) s2).
  assert (Hfr : length (CascadedShadowMaps.cascadedFrusta s3) = length (lightsOf s)).
  { change (CascadedShadowMaps.cascadedFrusta s3) with (mapsFrusta s0).
    rewrite mapsFrusta_length. reflexivity. }
  destruct (place_loop (length (CascadedShadowMaps.cascadedFrusta s3)) s3 (le_n _))
    as (L4 & _ & Hlen4 & HL4 & Hout).
  change (lightsOf s3) with L2 in Hlen4, HL4, Hout.
  rewrite decide_True in Hout by lia.
  exists L2, L4. cbv zeta. fold s0 s1 s2 s3.
  split; [exact Hout|]. split; [exact Hlen2|]. split; [lia|]. split; [exact HL2|].
  intros i. rewrite HL4.
  destruct (decide (i < Nat.min (length (CascadedShadowMaps.cascadedFrusta s3)) (length L2))%nat)
    as [Hlt|Hge]; [reflexivity|].
  rewrite (lookup_ge_None_2 L2 i) by lia. reflexivity.
Qed.

(** X17.  [update] of [CascadedShadowMaps] consults the flag and clears
    it: however the call ends, [needsUpdateFrusta] is false and the
    configuration is unchanged afterwards.  With the flag clear the call
    recomputes nothing: splits, cascades, frusta, the main frustum, the
    material states and every light's shadow camera are as before (only
    light positions are written); it returns when there are at least as many
    lights as frusta and throws a TypeError otherwise.  So a second [update]
    in a row never recomputes the frusta. *)
Theorem shadow_maps_update_consults_flag (s : CascadedShadowMaps.t MaterialStates) :
  let after := stateOf (CascadedShadowMaps.update materialStates_update s) in
  CascadedShadowMaps.needsUpdateFrusta after = false
  /\ configuration after = configuration s
  /\ (CascadedShadowMaps.needsUpdateFrusta s = false ->
      frustaState after = frustaState s
      /\ map DirectionalLight.shadowCamera (lightsOf after)
         = map DirectionalLight.shadowCamera (lightsOf s)
      /\ ((length (CascadedShadowMaps.cascadedFrusta s) <= length (lightsOf s))%nat ->
          CascadedShadowMaps.update materialStates_update s
          = CascadedShadowMaps.Returned after)
      /\ ((length (lightsOf s) < length (CascadedShadowMaps.cascadedFrusta s))%nat ->
          CascadedShadowMaps.update materialStates_update s
          = CascadedShadowMaps.Thrown CascadedShadowMaps.TypeError after))
  /\ frustaState (stateOf (CascadedShadowMaps.update materialStates_update after))
     = frustaState after.
Proof.
  cbv zeta.
  assert (Hclean : forall s0 : CascadedShadowMaps.t MaterialStates,
            CascadedShadowMaps.needsUpdateFrusta s0 = false ->
            let after := stateOf (CascadedShadowMaps.update materialStates_update s0) in
            CascadedShadowMaps.needsUpdateFrusta after = false
            /\ configuration after = configuration s0
            /\ frustaState after = frustaState s0
            /\ map DirectionalLight.shadowCamera (lightsOf after)
               = map DirectionalLight.shadowCamera (lightsOf s0)
            /\ ((length (CascadedShadowMaps.cascadedFrusta s0) <= length (lightsOf s0))%nat ->
                CascadedShadowMaps.update materialStates_update s0
                = CascadedShadowMaps.Returned after)
            /\ ((length (lightsOf s0) < length (CascadedShadowMaps.cascadedFrusta s0))%nat ->
                CascadedShadowMaps.update materialStates_update s0
                = CascadedShadowMaps.Thrown CascadedShadowMaps.TypeError after)).
  { intros s0 Hf. cbv zeta. rewrite (shadow_maps_update_clean s0 Hf).
    destruct (place_loop (length (CascadedShadowMaps.cascadedFrusta s0)) s0 (le_n _))
      as (L & Hst & Hlen & HL & Hout).
    rewrite Hst. split; [exact Hf|]. split; [reflexivity|]. split; [reflexivity|].
    split.
    - change (lightsOf (CascadedShadowMaps.set_cascadedLights L s0)) with L.
      apply list_eq. intros i. rewrite !list_lookup_fmap, HL.
      destruct (lightsOf s0 !! i) as [l0|]; [|reflexivity]. cbn.
      destruct (decide (i < _)%nat); [|reflexivity].
      unfold placedLight. now destruct (CascadedShadowMaps.cascadedFrusta s0 !! i).
    - split; intros Hl; rewrite Hout.
      + now rewrite decide_True by exact Hl.
      + now rewrite decide_False by lia. }
  assert (Hflag : CascadedShadowMaps.needsUpdateFrusta
                    (stateOf (CascadedShadowMaps.update materialStates_update s)) = false
                  /\ configuration (stateOf (CascadedShadowMaps.update materialStates_update s))
                     = configuration s).
  { destruct (CascadedShadowMaps.needsUpdateFrusta s) eqn:Hf.
    - unfold CascadedShadowMaps.update. rewrite Hf.
      pose proof (updateFrusta_spec (CascadedShadowMaps.set_needsUpdateFrusta false s)) as Hu.
      destruct (CascadedShadowMaps.disableLastCascadeCutoff _ && _).
      + rewrite Hu. split; reflexivity.
      + destruct Hu as (L2 & Hu & _). cbv zeta in Hu. rewrite Hu.
        cbn [CascadedShadowMaps.bind].
        match goal with
        | |- context [CascadedShadowMaps.for_range_outcome ?n _ ?s3] =>
            destruct (place_loop n s3 (le_n _)) as (L4 & Hst & _)
        end.
        rewrite Hst. split; reflexivity.
    - destruct (Hclean s Hf) as (H1 & H2 & _). split; assumption. }
  destruct Hflag as [Hflag Hconf].
  split; [exact Hflag|]. split; [exact Hconf|]. split.
  - intros Hf. destruct (Hclean s Hf) as (_ & _ & H3 & H4 & H5 & H6). auto.
  - now destruct (Hclean _ Hflag) as (_ & _ & H3 & _).
Qed.

End ShadowMapsTheorems.

Section ShadowMapsTheorems2.

Context {MaterialStates : Type}.
Variable materialStates_update : CascadedShadowMaps.t MaterialStates -> MaterialStates.
Context `{Helpers}.

Lemma mapsInterval_eq (s : CascadedShadowMaps.t MaterialStates) (splits : list R) (i : nat) :
  mapsInterval s splits i
  = CascadedShadowMaps.mkInterval
      (match i with 0%nat => 0 | S j => default 0 (splits !! j) end)
      (if CascadedShadowMaps.disableLastCascadeCutoff s
          && bool_decide (i = Nat.pred (CascadedShadowMaps.cascadeCount s))
       then CascadedShadowMaps.Infinity
       else CascadedShadowMaps.Finite (default 0 (splits !! i))).
Proof.
  unfold mapsInterval, CascadedShadowMaps.intervalOf.
  rewrite at_index_pred, at_index_nat.
  destruct (_ && _); destruct i; reflexivity.
Qed.

(** X18.  [update] with the flag raised (and at least one cascade when the
    last cascade's cutoff is disabled) returns with the flag clear and
    everything recomputed from the configuration: the splits are
    splitFrustum(mode, count, camera.near, min(camera.far, far), lambda), the
    main frustum is taken at [far], there are as many cascades, frusta and
    lights as the count, cascade i spans from split i-1 (0 for the first) to
    split i (Infinity for the last when the cutoff is disabled), and every
    light's shadow camera has left = -radius, right = radius, top = radius,
    bottom = -radius, near = 0 and far = 2 * radius + margin (with them its
    projection matrix, at zoom 1). *)
Theorem shadow_maps_update_recomputes_when_dirty (s : CascadedShadowMaps.t MaterialStates) :
  CascadedShadowMaps.needsUpdateFrusta s = true ->
  (CascadedShadowMaps.disableLastCascadeCutoff s = true ->
   (1 <= CascadedShadowMaps.cascadeCount s)%nat) ->
  let count := CascadedShadowMaps.cascadeCount s in
  let splits :=
    splitFrustum (CascadedShadowMaps.mode s) count
      (PerspectiveCamera.near (CascadedShadowMaps.mainCamera s))
      (Rmin (PerspectiveCamera.far (CascadedShadowMaps.mainCamera s))
            (CascadedShadowMaps.far s))
      (CascadedShadowMaps.lambda s) in
  let mainFrustum :=
    setFromCamera (CascadedShadowMaps.mainCamera s) (CascadedShadowMaps.far s) in
  exists s' : CascadedShadowMaps.t MaterialStates,
    CascadedShadowMaps.update materialStates_update s = CascadedShadowMaps.Returned s'
    /\ CascadedShadowMaps.needsUpdateFrusta s' = false
    /\ CascadedShadowMaps.splits s' = splits
    /\ CascadedShadowMaps.mainFrustum s' = mainFrustum
    /\ CascadedShadowMaps.cascadedFrusta s'
       = split mainFrustum splits (CascadedShadowMaps.cascadedFrusta s)
    /\ length (CascadedShadowMaps.cascades s') = count
    /\ length (CascadedShadowMaps.cascadedFrusta s') = count
    /\ length (lightsOf s') = count
    /\ (forall i : nat, (i < count)%nat ->
          CascadedShadowMaps.cascades s' !! i
          = Some (CascadedShadowMaps.mkInterval
                    (match i with 0%nat => 0 | S j => default 0 (splits !! j) end)
                    (if CascadedShadowMaps.disableLastCascadeCutoff s
                        && bool_decide (i = Nat.pred count)
                     then CascadedShadowMaps.Infinity
                     else CascadedShadowMaps.Finite (default 0 (splits !! i)))))
    /\ (forall (i : nat) (light : DirectionalLight.t),
          lightsOf s' !! i = Some light ->
          exists (frustum : FrustumCorners.t) (light0 : DirectionalLight.t),
            CascadedShadowMaps.cascadedFrusta s' !! i = Some frustum
            /\ lightsOf s !! i = Some light0
            /\ let radius := CascadedShadowMaps.getFrustumRadius s frustum in
               let camera := DirectionalLight.shadowCamera light in
               OrthographicCamera.left camera = - radius
               /\ OrthographicCamera.right camera = radius
               /\ OrthographicCamera.top camera = radius
               /\ OrthographicCamera.bottom camera = - radius
               /\ OrthographicCamera.near camera = 0
               /\ OrthographicCamera.far camera = radius * 2 + CascadedShadowMaps.margin s
               /\ (OrthographicCamera.zoom
                     (DirectionalLight.shadowCamera light0) = 1 ->
                   OrthographicCamera.projectionMatrix camera
                   = Matrix4.makeOrthographic (- radius) radius radius (- radius) 0
                       (radius * 2 + CascadedShadowMaps.margin s))).
Proof.
  intros Hflag Hcut count splits mainFrustum.
  destruct (shadow_maps_update_dirty materialStates_update s Hflag Hcut)
    as (L2 & L4 & Hup & Hlen2 & Hlen4 & HL2 & HL4).
  cbv zeta in Hup, HL2, HL4.
  set (s0 := CascadedShadowMaps.set_needsUpdateFrusta false s) in *.
  set (s1 := afterCascades s0) in *.
  set (s2 := CascadedShadowMaps.set_cascadedLights L2 s1) in *.
  set (s3 := CascadedShadowMaps.set_materialStates (materialStates_update s2) s2) in *.
  eexists. split; [exact Hup|].
  split; [reflexivity|]. split; [reflexivity|]. split; [reflexivity|].
  split; [reflexivity|].
  split.
  { change (length (map (mapsInterval s0 (mapsSplits s0)) (seq 0 count)) = count).
    now rewrite length_map, length_seq. }
  split; [exact (mapsFrusta_length s0)|].
  split; [exact Hlen4|].
  split.
  - intros i Hi.
    change (map (mapsInterval s0 (mapsSplits s0)) (seq 0 count) !! i = Some
              (CascadedShadowMaps.mkInterval
                 (match i with 0%nat => 0 | S j => default 0 (splits !! j) end)
                 (if CascadedShadowMaps.disableLastCascadeCutoff s
                     && bool_decide (i = Nat.pred count)
                  then CascadedShadowMaps.Infinity
                  else CascadedShadowMaps.Finite (default 0 (splits !! i))))).
    rewrite list_lookup_fmap, lookup_seq_lt by exact Hi. cbn.
    now rewrite mapsInterval_eq.
  - intros i light Hl.
    change (lightsOf (CascadedShadowMaps.set_cascadedLights L4 s3)) with L4 in Hl.
    rewrite HL4, HL2 in Hl.
    destruct (lightsOf s !! i) as [light0|] eqn:E0; [|discriminate].
    cbn in Hl. injection Hl as <-.
    assert (Hi : (i < length (mapsFrusta s0))%nat).
    { rewrite mapsFrusta_length. apply lookup_lt_Some in E0. exact E0. }
    destruct (lookup_lt_is_Some_2 _ _ Hi) as [frustum Hfr].
    exists frustum, light0.
    split; [exact Hfr|]. split; [reflexivity|].
    unfold placedLight, fittedLight.
    change (CascadedShadowMaps.cascadedFrusta s3) with (mapsFrusta s0).
    change (CascadedShadowMaps.cascadedFrusta s1) with (mapsFrusta s0).
    rewrite Hfr. cbv zeta.
    cbn [DirectionalLight.shadowCamera CascadedShadowMaps.fitShadowCamera].
    unfold CascadedShadowMaps.fitShadowCamera, OrthographicCamera.updateProjectionMatrix.
    cbn [DirectionalLight.shadowCamera OrthographicCamera.left OrthographicCamera.right
         OrthographicCamera.top OrthographicCamera.bottom OrthographicCamera.near
         OrthographicCamera.far OrthographicCamera.zoom OrthographicCamera.projectionMatrix].
    change (CascadedShadowMaps.getFrustumRadius s1 frustum)
      with (CascadedShadowMaps.getFrustumRadius s frustum).
    change (CascadedShadowMaps.margin s1) with (CascadedShadowMaps.margin s).
    repeat (split; [reflexivity|]).
    intros Hz. rewrite Hz. f_equal; field.
Qed.

(** X19.  With no cascade and the last cascade's cutoff disabled, [update]
    on a raised flag throws a TypeError (there is no last cascade to write
    Infinity to).  The flag has been cleared before: the state left has
    [needsUpdateFrusta] false, empty splits and frusta, and the cascades, the
    lights and the material states as they were; the next [update] returns
    without recomputing anything. *)
Theorem shadow_maps_update_without_cascades_throws (s : CascadedShadowMaps.t MaterialStates) :
  CascadedShadowMaps.needsUpdateFrusta s = true ->
  CascadedShadowMaps.cascadeCount s = 0%nat ->
  CascadedShadowMaps.disableLastCascadeCutoff s = true ->
  exists s' : CascadedShadowMaps.t MaterialStates,
    CascadedShadowMaps.update materialStates_update s
    = CascadedShadowMaps.Thrown CascadedShadowMaps.TypeError s'
    /\ CascadedShadowMaps.needsUpdateFrusta s' = false
    /\ CascadedShadowMaps.cascades s' = CascadedShadowMaps.cascades s
    /\ CascadedShadowMaps.materialStates s' = CascadedShadowMaps.materialStates s
    /\ CascadedShadowMaps.directionalLights s' = CascadedShadowMaps.directionalLights s
    /\ CascadedShadowMaps.splits s' = []
    /\ length (CascadedShadowMaps.cascadedFrusta s') = 0%nat
    /\ CascadedShadowMaps.update materialStates_update s' = CascadedShadowMaps.Returned s'.
Proof.
  intros Hflag Hn Hcut.
  set (s0 := CascadedShadowMaps.set_needsUpdateFrusta false s).
  pose proof (updateFrusta_spec materialStates_update s0) as Hu.
  change (CascadedShadowMaps.disableLastCascadeCutoff s0)
    with (CascadedShadowMaps.disableLastCascadeCutoff s) in Hu.
  change (CascadedShadowMaps.cascadeCount s0) with (CascadedShadowMaps.cascadeCount s) in Hu.
  rewrite Hcut, Hn in Hu. cbn [andb] in Hu.
  rewrite bool_decide_eq_true_2 in Hu by reflexivity.
  unfold CascadedShadowMaps.update at 1. rewrite Hflag. fold s0. rewrite Hu.
  cbn [CascadedShadowMaps.bind].
  assert (Hfr : length (mapsFrusta s0) = 0%nat).
  { rewrite mapsFrusta_length. exact Hn. }
  eexists. split; [reflexivity|].
  split; [reflexivity|]. split; [reflexivity|]. split; [reflexivity|].
  split; [reflexivity|].
  split.
  { change (mapsSplits s0 = []). apply length_zero_iff_nil. rewrite mapsSplits_length.
    exact Hn. }
  split; [exact Hfr|].
  rewrite shadow_maps_update_clean by reflexivity.
  change (CascadedShadowMaps.cascadedFrusta
            (CascadedShadowMaps.set_cascades (CascadedShadowMaps.cascades s0)
               (afterCascades s0))) with (mapsFrusta s0).
  rewrite Hfr. reflexivity.
Qed.

(** The state [update] returns: the lights of the state its loop started
    from, each placed. *)
Lemma shadow_maps_update_returned (s s' : CascadedShadowMaps.t MaterialStates) :
  CascadedShadowMaps.update materialStates_update s = CascadedShadowMaps.Returned s' ->
  exists (s3 : CascadedShadowMaps.t MaterialStates) (L : list DirectionalLight.t),
    s' = CascadedShadowMaps.set_cascadedLights L s3
    /\ (length (CascadedShadowMaps.cascadedFrusta s3) <= length (lightsOf s3))%nat
    /\ forall i : nat,
         L !! i = (if decide (i < length (CascadedShadowMaps.cascadedFrusta s3))%nat
                   then placedLight s3 i else fun l => l) <$> lightsOf s3 !! i.
Proof.
  unfold CascadedShadowMaps.update. intros Hup.
  destruct (if CascadedShadowMaps.needsUpdateFrusta s
            then CascadedShadowMaps.updateFrusta materialStates_update
                   (CascadedShadowMaps.set_needsUpdateFrusta false s)
            else CascadedShadowMaps.Returned s) as [s3|e s3]; [|discriminate].
  cbn [CascadedShadowMaps.bind] in Hup.
  destruct (place_loop (length (CascadedShadowMaps.cascadedFrusta s3)) s3 (le_n _))
    as (L & _ & Hlen & HL & Hout).
  rewrite Hout in Hup.
  destruct (decide (length (CascadedShadowMaps.cascadedFrusta s3) <= length (lightsOf s3))%nat)
    as [Hle|]; [|discriminate].
  injection Hup as <-. exists s3, L. split; [reflexivity|]. split; [exact Hle|].
  intros i. rewrite HL.
  destruct (decide (i < Nat.min _ _)%nat), (decide (i < length _)%nat);
    try reflexivity; lia.
Qed.

(** X20.  When [update] of [CascadedShadowMaps] returns, there is a light
    for every frustum, each at the texel-snapped centre of its frustum's
    light-space box taken back to world space, and each light's target is
    the light's position plus the light direction, a unit vector whenever
    the lights' direction is not the zero vector. *)
Theorem shadow_maps_update_places_lights (s s' : CascadedShadowMaps.t MaterialStates) :
  CascadedShadowMaps.update materialStates_update s = CascadedShadowMaps.Returned s' ->
  (length (CascadedShadowMaps.cascadedFrusta s') <= length (lightsOf s'))%nat
  /\ (Vector3.lengthSq
        (CascadedDirectionalLights.direction (CascadedShadowMaps.directionalLights s')) <> 0 ->
      Vector3.lengthSq (CascadedShadowMaps.lightDirection s') = 1)
  /\ forall (i : nat) (frustum : FrustumCorners.t),
       CascadedShadowMaps.cascadedFrusta s' !! i = Some frustum ->
       exists light : DirectionalLight.t,
         lightsOf s' !! i = Some light
         /\ DirectionalLight.position light
            = Matrix4.applyToVector3
                (CascadedShadowMaps.snappedCenter s' frustum
                   (DirectionalLight.shadowCamera light))
                (CascadedShadowMaps.lightOrientationMatrix s')
         /\ DirectionalLight.targetPosition light
            = Vector3.add (DirectionalLight.position light)
                (CascadedShadowMaps.lightDirection s').
Proof.
  intros Hup. destruct (shadow_maps_update_returned s s' Hup) as (s3 & L & -> & Hle & HL).
  change (CascadedShadowMaps.cascadedFrusta (CascadedShadowMaps.set_cascadedLights L s3))
    with (CascadedShadowMaps.cascadedFrusta s3).
  change (lightsOf (CascadedShadowMaps.set_cascadedLights L s3)) with L.
  assert (Hlen : length L = length (lightsOf s3)).
  { apply Nat.le_antisymm.
    - destruct (decide (length L <= length (lightsOf s3))%nat) as [|Hgt]; [assumption|].
      destruct (lookup_lt_is_Some_2 L (length (lightsOf s3))) as [x Hx]; [lia|].
      rewrite HL in Hx. rewrite (lookup_ge_None_2 (lightsOf s3)) in Hx by lia. discriminate.
    - destruct (decide (length (lightsOf s3) <= length L)%nat) as [|Hgt]; [assumption|].
      destruct (lookup_lt_is_Some_2 (lightsOf s3) (length L)) as [x Hx]; [lia|].
      pose proof (HL (length L)) as HLl. rewrite Hx in HLl.
      rewrite (lookup_ge_None_2 L) in HLl by lia.
      destruct (decide _); discriminate. }
  split; [lia|]. split.
  - intros Hd. unfold CascadedShadowMaps.lightDirection, Vector3.copy.
    now apply normalize_unit.
  - intros i frustum Hf.
    pose proof (lookup_lt_Some _ _ _ Hf) as Hi.
    destruct (lookup_lt_is_Some_2 (lightsOf s3) i) as [light0 Hl0]; [lia|].
    exists (placedLight s3 i light0). split.
    + rewrite HL, Hl0. now rewrite decide_True by exact Hi.
    + unfold placedLight. rewrite Hf. split; reflexivity.
Qed.

End ShadowMapsTheorems2.

(** ** [CascadedShadowMaps] at the sample instance *)

Lemma referenceMaps_cutoff :
  CascadedShadowMaps.disableLastCascadeCutoff ReferenceMaps.maps = true ->
  (1 <= CascadedShadowMaps.cascadeCount ReferenceMaps.maps)%nat.
Proof. intros _. cbn. lia. Qed.

(** The sample instance, its flag raised as after construction: [update]
    returns, clears the flag and leaves two cascades. *)
Lemma shadow_maps_update_recomputes_when_dirty_witness :
  CascadedShadowMaps.needsUpdateFrusta ReferenceMaps.maps = true
  /\ exists s' : CascadedShadowMaps.t unit,
       CascadedShadowMaps.update ReferenceMaps.noMaterials (H:=Reference.helpers)
         ReferenceMaps.maps
       = CascadedShadowMaps.Returned s'
       /\ CascadedShadowMaps.needsUpdateFrusta s' = false
       /\ length (CascadedShadowMaps.cascades s') = 2%nat.
Proof.
  split; [reflexivity|].
  destruct (shadow_maps_update_recomputes_when_dirty ReferenceMaps.noMaterials (H:=Reference.helpers)
              ReferenceMaps.maps eq_refl referenceMaps_cutoff)
    as (s' & Hup & Hflag & _ & _ & _ & Hlen & _).
  exists s'. split; [exact Hup|]. split; [exact Hflag|exact Hlen].
Defined.

(** The sample instance without lights and with the cutoff disabled. *)
Lemma shadow_maps_update_without_cascades_throws_witness :
  CascadedShadowMaps.needsUpdateFrusta ReferenceMaps.noLights = true
  /\ CascadedShadowMaps.cascadeCount ReferenceMaps.noLights = 0%nat
  /\ CascadedShadowMaps.disableLastCascadeCutoff ReferenceMaps.noLights = true
  /\ exists s' : CascadedShadowMaps.t unit,
       CascadedShadowMaps.update ReferenceMaps.noMaterials (H:=Reference.helpers)
         ReferenceMaps.noLights
       = CascadedShadowMaps.Thrown CascadedShadowMaps.TypeError s'
       /\ CascadedShadowMaps.needsUpdateFrusta s' = false.
Proof.
  split; [reflexivity|]. split; [reflexivity|]. split; [reflexivity|].
  destruct (shadow_maps_update_without_cascades_throws ReferenceMaps.noMaterials (H:=Reference.helpers)
              ReferenceMaps.noLights eq_refl eq_refl eq_refl)
    as (s' & Hup & Hflag & _).
  exists s'. split; [exact Hup|exact Hflag].
Defined.

(** [update] returns at the sample instance, a light for every frustum. *)
Lemma shadow_maps_update_places_lights_witness :
  exists s' : CascadedShadowMaps.t unit,
    CascadedShadowMaps.update ReferenceMaps.noMaterials (H:=Reference.helpers)
      ReferenceMaps.maps
    = CascadedShadowMaps.Returned s'
    /\ (length (CascadedShadowMaps.cascadedFrusta s') <= length (lightsOf s'))%nat.
Proof.
  destruct (shadow_maps_update_dirty ReferenceMaps.noMaterials (H:=Reference.helpers)
              ReferenceMaps.maps eq_refl referenceMaps_cutoff)
    as (L2 & L4 & Hup & _).
  eexists. split; [exact Hup|].
  apply (shadow_maps_update_places_lights ReferenceMaps.noMaterials (H:=Reference.helpers)
           ReferenceMaps.maps _ Hup).
Defined.

(** ** The moon's disc *)

(** X21.  [intersectSphere] of the sky's fragment shader, for a unit ray
    from the origin and a discriminant that is not negative: the value is
    dot(point, ray) - sqrt(discriminant); the point ray * t lies on the
    sphere around [point] (its squared distance to [point] is radius^2);
    no other parameter on the ray that lies on the sphere is smaller; and
    from outside the sphere the value is positive exactly when the centre
    lies ahead (dot(point, ray) > 0). *)
Theorem intersectSphere_nearest_hit (ray point : Vector3.t) (radius : R) :
  Vector3.lengthSq ray = 1 ->
  let toCentre := Vector3.dot point ray in
  let discriminant := toCentre * toCentre - (Vector3.lengthSq point - radius * radius) in
  0 <= discriminant ->
  let t := AtmosphereShader.intersectSphere ray point radius in
  t = toCentre - sqrt discriminant
  /\ Vector3.distanceToSquared (Vector3.multiplyScalar ray t) point = radius * radius
  /\ (forall t' : R,
        Vector3.distanceToSquared (Vector3.multiplyScalar ray t') point = radius * radius ->
        t <= t')
  /\ (radius * radius < Vector3.lengthSq point -> (0 < t <-> 0 < toCentre)).
Proof.
  intros Hunit toCentre discriminant Hd t.
  assert (Ht : t = toCentre - sqrt discriminant).
  { subst t toCentre discriminant.
    unfold AtmosphereShader.intersectSphere, AtmosphereShader.negate, Vector3.dot,
      Vector3.lengthSq.
    cbn [Vector3.x Vector3.y Vector3.z].
    f_equal; [ring|]. f_equal. ring. }
  pose proof (sqrt_pos discriminant) as Hs0.
  pose proof (sqrt_sqrt discriminant Hd) as Hss.
  assert (Hdist : forall u : R,
            Vector3.distanceToSquared (Vector3.multiplyScalar ray u) point - radius * radius
            = (u - toCentre) * (u - toCentre) - discriminant).
  { intros u. subst toCentre discriminant.
    unfold Vector3.distanceToSquared, Vector3.multiplyScalar, Vector3.dot, Vector3.lengthSq
      in *.
    cbn [Vector3.x Vector3.y Vector3.z] in *.
    transitivity
      (u * u * (Vector3.x ray * Vector3.x ray + Vector3.y ray * Vector3.y ray
                + Vector3.z ray * Vector3.z ray)
       - 2 * u * (Vector3.x point * Vector3.x ray + Vector3.y point * Vector3.y ray
                  + Vector3.z point * Vector3.z ray)
       + (Vector3.x point * Vector3.x point + Vector3.y point * Vector3.y point
          + Vector3.z point * Vector3.z point) - radius * radius); [ring|].
    rewrite Hunit. ring. }
  split; [exact Ht|]. split; [|split].
  - pose proof (Hdist t) as H1. rewrite Ht in H1 at 2 3.
    replace ((toCentre - sqrt discriminant - toCentre)
             * (toCentre - sqrt discriminant - toCentre))
      with (sqrt discriminant * sqrt discriminant) in H1 by ring.
    rewrite Hss in H1. lra.
  - intros t' Ht'. pose proof (Hdist t') as H1. rewrite Ht' in H1.
    assert (Hsq : (t' - toCentre) * (t' - toCentre) = sqrt discriminant * sqrt discriminant)
      by lra.
    rewrite Ht. nra.
  - intros Hout. rewrite Ht.
    assert (Hlt : discriminant < toCentre * toCentre) by (subst discriminant; lra).
    split.
    + intros Hpos. nra.
    + intros Hpos.
      assert (sqrt discriminant < toCentre); [|lra].
      apply Rsqr_incrst_0; [|exact Hs0|lra].
      unfold Rsqr. rewrite Hss. exact Hlt.
Qed.

(** A sphere of radius 3 five units ahead on the z axis. *)
Lemma intersectSphere_nearest_hit_witness :
  Vector3.lengthSq (Vector3.mk 0 0 1) = 1
  /\ AtmosphereShader.intersectSphere (Vector3.mk 0 0 1) (Vector3.mk 0 0 5) 3
     = 5 - sqrt (5 * 5 - (25 - 3 * 3)).
Proof.
  assert (Hunit : Vector3.lengthSq (Vector3.mk 0 0 1) = 1).
  { unfold Vector3.lengthSq. cbn. lra. }
  split; [exact Hunit|].
  destruct (intersectSphere_nearest_hit (Vector3.mk 0 0 1) (Vector3.mk 0 0 5) 3 Hunit)
    as [Ht _].
  - unfold Vector3.dot, Vector3.lengthSq. cbn. lra.
  - rewrite Ht. unfold Vector3.dot, Vector3.lengthSq. cbn. f_equal; [lra|]. f_equal. lra.
Defined.

(** X22.  [orenNayarDiffuse] for unit vectors L, V and N, where the
    divisor t (1 for s < 0, max(NoL, NoV) otherwise) is not zero: s lies in
    [-1, 1], the value is max(0, NoL) * (0.62406015 + 0.41284404 * s / t), it
    is never negative, it is 0 where the light is at or below the horizon of
    the surface (NoL <= 0) and positive where it is above. *)
Theorem orenNayarDiffuse_nonnegative (L V N : Vector3.t) :
  Vector3.lengthSq L = 1 -> Vector3.lengthSq V = 1 -> Vector3.lengthSq N = 1 ->
  let NoL := Vector3.dot N L in
  let NoV := Vector3.dot N V in
  let s := Vector3.dot L V - NoL * NoV in
  let t := if Rlt_dec s 0 then 1 else Rmax NoL NoV in
  t <> 0 ->
  -1 <= s <= 1
  /\ AtmosphereShader.orenNayarDiffuse L V N
     = Rmax 0 NoL * (0.62406015 + 0.41284404 * s / t)
  /\ 0 <= AtmosphereShader.orenNayarDiffuse L V N
  /\ (NoL <= 0 -> AtmosphereShader.orenNayarDiffuse L V N = 0)
  /\ (0 < NoL -> 0 < AtmosphereShader.orenNayarDiffuse L V N).
Proof.
  intros HL HV HN NoL NoV s t Ht.
  assert (Hs : -1 <= s <= 1).
  { subst s NoL NoV. destruct L as [lx ly lz], V as [vx vy vz], N as [nx ny nz].
    unfold Vector3.dot, Vector3.lengthSq in *. cbn [Vector3.x Vector3.y Vector3.z] in *.
    set (a := nx * lx + ny * ly + nz * lz).
    set (b := nx * vx + ny * vy + nz * vz).
    assert (Hp : 0 <= (lx - a * nx + (vx - b * nx)) ^ 2 + (ly - a * ny + (vy - b * ny)) ^ 2
                      + (lz - a * nz + (vz - b * nz)) ^ 2)
      by (repeat apply Rplus_le_le_0_compat; apply pow2_ge_0).
    assert (Hm : 0 <= (lx - a * nx - (vx - b * nx)) ^ 2 + (ly - a * ny - (vy - b * ny)) ^ 2
                      + (lz - a * nz - (vz - b * nz)) ^ 2)
      by (repeat apply Rplus_le_le_0_compat; apply pow2_ge_0).
    assert (Ep : (lx - a * nx + (vx - b * nx)) ^ 2 + (ly - a * ny + (vy - b * ny)) ^ 2
                 + (lz - a * nz + (vz - b * nz)) ^ 2
                 = (lx * lx + ly * ly + lz * lz) + (vx * vx + vy * vy + vz * vz)
                   + 2 * (lx * vx + ly * vy + lz * vz)
                   - 2 * a * a - 2 * b * b - 4 * a * b
                   + (a + b) * (a + b) * (nx * nx + ny * ny + nz * nz)).
    { subst a b. ring. }
    assert (Em : (lx - a * nx - (vx - b * nx)) ^ 2 + (ly - a * ny - (vy - b * ny)) ^ 2
                 + (lz - a * nz - (vz - b * nz)) ^ 2
                 = (lx * lx + ly * ly + lz * lz) + (vx * vx + vy * vy + vz * vz)
                   - 2 * (lx * vx + ly * vy + lz * vz)
                   - 2 * a * a - 2 * b * b + 4 * a * b
                   + (a - b) * (a - b) * (nx * nx + ny * ny + nz * nz)).
    { subst a b. ring. }
    rewrite Ep in Hp. rewrite Em in Hm. rewrite HL, HV, HN in Hp, Hm.
    assert (0 <= a * a) by nra. assert (0 <= b * b) by nra.
    split; nra. }
  assert (Heq : AtmosphereShader.orenNayarDiffuse L V N
                = Rmax 0 NoL * (0.62406015 + 0.41284404 * s / t)).
  { unfold AtmosphereShader.orenNayarDiffuse, AtmosphereShader.mix, AtmosphereShader.step.
    cbv zeta. fold NoL NoV. fold s. subst t.
    destruct (Rlt_dec s 0); do 3 f_equal; ring. }
  split; [exact Hs|]. split; [exact Heq|].
  rewrite Heq.
  assert (Hfactor : 0 < NoL -> 0 < 0.62406015 + 0.41284404 * s / t).
  { intros Hpos. subst t. destruct (Rlt_dec s 0) as [Hneg|Hnn].
    - replace (0.41284404 * s / 1) with (0.41284404 * s) by field. lra.
    - assert (Hm : 0 < Rmax NoL NoV) by (pose proof (Rmax_l NoL NoV); lra).
      assert (0 <= 0.41284404 * s / Rmax NoL NoV).
      { apply Rmult_le_pos; [nra|]. left. now apply Rinv_0_lt_compat. }
      lra. }
  split; [|split].
  - destruct (Rle_or_lt NoL 0) as [Hle|Hgt].
    + rewrite Rmax_left by exact Hle. lra.
    + rewrite Rmax_right by lra. specialize (Hfactor Hgt). nra.
  - intros Hle. rewrite Rmax_left by exact Hle. ring.
  - intros Hgt. rewrite Rmax_right by lra. specialize (Hfactor Hgt). nra.
Qed.

(** Light, viewer and normal all along the z axis. *)
Lemma orenNayarDiffuse_nonnegative_witness :
  0 <= AtmosphereShader.orenNayarDiffuse (Vector3.mk 0 0 1) (Vector3.mk 0 0 1)
         (Vector3.mk 0 0 1).
Proof.
  assert (Hunit : Vector3.lengthSq (Vector3.mk 0 0 1) = 1).
  { unfold Vector3.lengthSq. cbn. lra. }
  apply (orenNayarDiffuse_nonnegative (Vector3.mk 0 0 1) (Vector3.mk 0 0 1)
           (Vector3.mk 0 0 1) Hunit Hunit Hunit).
  unfold Vector3.dot. cbn [Vector3.x Vector3.y Vector3.z].
  destruct (Rlt_dec _ 0) as [Hlt|_]; [lra|].
  rewrite Rmax_left by lra. lra.
Defined.
